(** * camera_driver.c: a V4L2 single-frame grabber

    A shallow embedding of [camera_driver.c]: the YUYV422 to RGB24
    converter, the PPM frame writer, the format negotiation clamp, the
    buffer pool set-up and the capture loop, followed by the properties
    of the design document that can be stated over them.

    Conventions.
    - C integers are [Z]; where the source computes on [unsigned int]
      fields the wrap-around modulo [2^32] is written out.
    - Memory areas ([bigbuffer], a mapped capture buffer, the two global
      [char] arrays) are lists indexed from 0; an access outside the
      area is reported as a fault, it is never silently dropped.
    - System calls are answered by a script: the values the kernel
      returned, in the order the program asked for them. *)

From Stdlib Require Import ZArith Lia List Bool Ascii String.
From stdpp Require Import base list strings gmap.
Import ListNotations.

Local Open Scope Z_scope.

(** ** Constants of the source and of the system headers it includes *)

Definition HRES : Z := 320.
Definition VRES : Z := 240.
Definition HRES_STR : string := "320".
Definition VRES_STR : string := "240".
(* [PRINT_ENABLE] is 0: [errno_exit] is not compiled, and neither is any
   of its calls. Where the source has such a call the embedding goes on to
   the next statement. *)
Definition PRINT_ENABLE : Z := 0.

Definition EXIT_FAILURE : Z := 1.
Definition EINTR : Z := 4.
Definition EIO : Z := 5.
Definition EAGAIN : Z := 11.
Definition EINVAL : Z := 22.
Definition SIGINT : Z := 2.
Definition SIGTERM : Z := 15.

Definition V4L2_CAP_VIDEO_CAPTURE : Z := 0x00000001.
Definition V4L2_CAP_STREAMING : Z := 0x04000000.
Definition V4L2_FIELD_NONE : Z := 1.
(* v4l2_fourcc('Y','U','Y','V') *)
Definition V4L2_PIX_FMT_YUYV : Z := 0x56595559.
Definition MAP_FAILED : Z := -1.

(** [unsigned char bigbuffer[(1280 * 960)]] *)
Definition BIGBUFFER_SIZE : Z := 1280 * 960.

(** ** Integer conversions *)

Definition to_uchar (x : Z) : Z := x mod 2 ^ 8.
Definition to_uint (x : Z) : Z := x mod 2 ^ 32.
(* conversion to a 32-bit [int]: two's complement wrap-around *)
Definition to_int (x : Z) : Z := (x + 2 ^ 31) mod 2 ^ 32 - 2 ^ 31.

Definition INT_MIN : Z := - 2 ^ 31.
Definition INT_MAX : Z := 2 ^ 31 - 1.
Definition in_int (x : Z) : Prop := INT_MIN <= x <= INT_MAX.
Definition is_byte (x : Z) : Prop := 0 <= x <= 255.

(** ** Memory areas *)

Definition load (m : list Z) (i : Z) : option Z :=
  if i <? 0 then None else m !! Z.to_nat i.

Definition store (m : list Z) (i v : Z) : option (list Z) :=
  if (0 <=? i) && (i <? Z.of_nat (length m))
  then Some (<[Z.to_nat i := v]> m)
  else None.

(** ** Colorspace converter *)

(** The three channels as [yuv2rgb] computes them in [int], before they
    are stored through the [unsigned char] pointers. *)
Definition yuv2rgb_int (y u v : Z) : Z * Z * Z :=
  let c := y - 16 in
  let d := u - 128 in
  let e := v - 128 in
  let r1 := Z.shiftr (298 * c + 409 * e + 128) 8 in
  let g1 := Z.shiftr (298 * c - 100 * d - 208 * e + 128) 8 in
  let b1 := Z.shiftr (298 * c + 516 * d + 128) 8 in
  let r1 := if r1 >? 255 then 255 else r1 in
  let g1 := if g1 >? 255 then 255 else g1 in
  let b1 := if b1 >? 255 then 255 else b1 in
  let r1 := if r1 <? 0 then 0 else r1 in
  let g1 := if g1 <? 0 then 0 else g1 in
  let b1 := if b1 <? 0 then 0 else b1 in
  (r1, g1, b1).

(** [yuv2rgb y u v r g b]: [r], [g] and [b] are positions in the area
    [m]; the three stores narrow to [unsigned char]. *)
Definition yuv2rgb (y u v : Z) (m : list Z) (r g b : Z) : option (list Z) :=
  let '(r1, g1, b1) := yuv2rgb_int y u v in
  m ← store m r (to_uchar r1);
  m ← store m g (to_uchar g1);
  store m b (to_uchar b1).

Inductive loop_result : Type :=
| LoopDone (bigbuffer : list Z)
| ReadFault
| WriteFault
| OutOfFuel.

(** The conversion loop of [process_image]:
    [for (i = 0, newi = 0; i < size; i = i + 4, newi = newi + 6)]. *)
Fixpoint yuyv_loop (fuel : nat) (pptr : list Z) (size i newi : Z)
    (bigbuffer : list Z) : loop_result :=
  if i <? size then
    match fuel with
    | O => OutOfFuel
    | S fuel =>
        match load pptr i, load pptr (i + 1), load pptr (i + 2), load pptr (i + 3) with
        | Some y_temp, Some u_temp, Some y2_temp, Some v_temp =>
            match yuv2rgb y_temp u_temp v_temp bigbuffer newi (newi + 1) (newi + 2) with
            | Some bigbuffer =>
                match yuv2rgb y2_temp u_temp v_temp bigbuffer
                        (newi + 3) (newi + 4) (newi + 5) with
                | Some bigbuffer => yuyv_loop fuel pptr size (i + 4) (newi + 6) bigbuffer
                | None => WriteFault
                end
            | None => WriteFault
            end
        | _, _, _, _ => ReadFault
        end
    end
  else LoopDone bigbuffer.

(** Every iteration advances [i] by 4, so [size] iterations always suffice. *)
Definition yuyv_convert (pptr : list Z) (size : Z) (bigbuffer : list Z) : loop_result :=
  yuyv_loop (Z.to_nat size) pptr size 0 0 bigbuffer.

(** ** The converter as the design document words it *)

Definition clamp_0_255 (x : Z) : Z := Z.max 0 (Z.min 255 x).

Definition spec_R (Y _U V : Z) : Z :=
  clamp_0_255 (Z.shiftr (298 * (Y - 16) + 409 * (V - 128) + 128) 8).
Definition spec_G (Y U V : Z) : Z :=
  clamp_0_255 (Z.shiftr (298 * (Y - 16) - 100 * (U - 128) - 208 * (V - 128) + 128) 8).
Definition spec_B (Y U _V : Z) : Z :=
  clamp_0_255 (Z.shiftr (298 * (Y - 16) + 516 * (U - 128) + 128) 8).

Definition spec_pixel (Y U V : Z) : list Z := [spec_R Y U V; spec_G Y U V; spec_B Y U V].

(** One quadruple (Y0, U, Y1, V) gives two pixels with the same chroma. *)
Fixpoint spec_yuyv_to_rgb (p : list Z) : list Z :=
  match p with
  | Y0 :: U :: Y1 :: V :: rest =>
      spec_pixel Y0 U V ++ spec_pixel Y1 U V ++ spec_yuyv_to_rgb rest
  | _ => []
  end.

(** ** C strings in fixed [char] arrays *)

Definition NUL : ascii := "000"%char.
Definition LF : string := String "010"%char EmptyString.

Definition chars (s : string) : list ascii := list_ascii_of_string s.

(** Length of the NUL-terminated string at the start of [a]; [None] when
    the scan leaves the array. *)
Fixpoint strlen (a : list ascii) : option nat :=
  match a with
  | [] => None
  | c :: a => if Ascii.eqb c NUL then Some O else S <$> strlen a
  end.

(** The string held by the array [a], as the system calls read it. *)
Fixpoint c_string (a : list ascii) : string :=
  match a with
  | [] => EmptyString
  | c :: a => if Ascii.eqb c NUL then EmptyString else String c (c_string a)
  end.

(** Overwrite [a] from position [off] with [cs]; a fault when [cs] does
    not fit. *)
Definition poke (a : list ascii) (off : nat) (cs : list ascii) : option (list ascii) :=
  if (off + length cs <=? length a)%nat
  then Some (take off a ++ cs ++ drop (off + length cs) a)
  else None.

(** [snprintf(&a[off], n, fmt, ...)] where the conversion yields [out]:
    at most [n - 1] characters and the terminator. *)
Definition snprintf (a : list ascii) (off n : nat) (out : list ascii) : option (list ascii) :=
  match n with
  | O => Some a
  | S n => poke a off (take n out ++ [NUL])
  end.

(** [strncat(&a[off], src, n)] *)
Definition strncat (a : list ascii) (off : nat) (src : string) (n : nat) : option (list ascii) :=
  len ← strlen (drop off a);
  poke a (off + len) (take n (chars src) ++ [NUL]).

(** [strcat(&a[off], src)] *)
Definition strcat (a : list ascii) (off : nat) (src : string) : option (list ascii) :=
  len ← strlen (drop off a);
  poke a (off + len) (chars src ++ [NUL]).

(** *** The [%0<w>d] conversion of [printf] *)

Definition digit_char (d : Z) : ascii := ascii_of_nat (48 + Z.to_nat d).

(** Number of decimal digits of [n >= 0] (at most [S fuel]). *)
Fixpoint ndigits (fuel : nat) (n : Z) : nat :=
  match fuel with
  | O => 1
  | S fuel => if n <? 10 then 1%nat else S (ndigits fuel (n / 10))
  end.

(** The [k] low decimal digits of [n], most significant first. *)
Definition dec_digits (k : nat) (n : Z) : list ascii :=
  (fun j => digit_char ((n / 10 ^ Z.of_nat j) mod 10)) <$> rev (seq 0 k).

(** ["%0<w>d"] applied to the [int] [x]. *)
Definition fmt_0d (w : nat) (x : Z) : list ascii :=
  if x <? 0
  then "-"%char :: dec_digits (Nat.max (w - 1) (ndigits 9 (- x))) (- x)
  else dec_digits (Nat.max w (ndigits 9 x)) x.

Definition byte_of_char (c : ascii) : Z := Z.of_nat (nat_of_ascii c).

(** ** Program state: the globals of the translation unit, the files on
    disk and the two output streams *)

Record v4l2_pix_format : Type := mk_pix {
  width : Z;
  height : Z;
  pixelformat : Z;
  field : Z;
  bytesperline : Z;
  sizeimage : Z
}.

Module buffer.
Record t : Type := mk { start : Z; length : Z }.
End buffer.

Record timespec : Type := mk_timespec { tv_sec : Z; tv_nsec : Z }.

Inductive diag : Type :=
| Msg (s : string)
| Perror (s : string) (errno : Z).

Record state : Type := mk_state {
  is_capture : bool;
  fmt : v4l2_pix_format;
  fd : Z;
  buffers : list buffer.t;
  n_buffers : Z;
  force_format : Z;
  ppm_header : list ascii;
  ppm_dumpname : list ascii;
  framecnt : Z;
  bigbuffer : list Z;
  files : gmap string (list Z);
  stdout : list string;
  stderr : list diag
}.

Definition set_is_capture (v : bool) (st : state) : state :=
  mk_state v (fmt st) (fd st) (buffers st) (n_buffers st) (force_format st)
    (ppm_header st) (ppm_dumpname st) (framecnt st) (bigbuffer st) (files st)
    (stdout st) (stderr st).
Definition set_fmt (v : v4l2_pix_format) (st : state) : state :=
  mk_state (is_capture st) v (fd st) (buffers st) (n_buffers st) (force_format st)
    (ppm_header st) (ppm_dumpname st) (framecnt st) (bigbuffer st) (files st)
    (stdout st) (stderr st).
Definition set_fd (v : Z) (st : state) : state :=
  mk_state (is_capture st) (fmt st) v (buffers st) (n_buffers st) (force_format st)
    (ppm_header st) (ppm_dumpname st) (framecnt st) (bigbuffer st) (files st)
    (stdout st) (stderr st).
Definition set_buffers (v : list buffer.t) (st : state) : state :=
  mk_state (is_capture st) (fmt st) (fd st) v (n_buffers st) (force_format st)
    (ppm_header st) (ppm_dumpname st) (framecnt st) (bigbuffer st) (files st)
    (stdout st) (stderr st).
Definition set_n_buffers (v : Z) (st : state) : state :=
  mk_state (is_capture st) (fmt st) (fd st) (buffers st) v (force_format st)
    (ppm_header st) (ppm_dumpname st) (framecnt st) (bigbuffer st) (files st)
    (stdout st) (stderr st).
Definition set_ppm_header (v : list ascii) (st : state) : state :=
  mk_state (is_capture st) (fmt st) (fd st) (buffers st) (n_buffers st) (force_format st)
    v (ppm_dumpname st) (framecnt st) (bigbuffer st) (files st)
    (stdout st) (stderr st).
Definition set_ppm_dumpname (v : list ascii) (st : state) : state :=
  mk_state (is_capture st) (fmt st) (fd st) (buffers st) (n_buffers st) (force_format st)
    (ppm_header st) v (framecnt st) (bigbuffer st) (files st)
    (stdout st) (stderr st).
Definition set_framecnt (v : Z) (st : state) : state :=
  mk_state (is_capture st) (fmt st) (fd st) (buffers st) (n_buffers st) (force_format st)
    (ppm_header st) (ppm_dumpname st) v (bigbuffer st) (files st)
    (stdout st) (stderr st).
Definition set_bigbuffer (v : list Z) (st : state) : state :=
  mk_state (is_capture st) (fmt st) (fd st) (buffers st) (n_buffers st) (force_format st)
    (ppm_header st) (ppm_dumpname st) (framecnt st) v (files st)
    (stdout st) (stderr st).
Definition set_files (v : gmap string (list Z)) (st : state) : state :=
  mk_state (is_capture st) (fmt st) (fd st) (buffers st) (n_buffers st) (force_format st)
    (ppm_header st) (ppm_dumpname st) (framecnt st) (bigbuffer st) v
    (stdout st) (stderr st).
Definition printf (s : string) (st : state) : state :=
  mk_state (is_capture st) (fmt st) (fd st) (buffers st) (n_buffers st) (force_format st)
    (ppm_header st) (ppm_dumpname st) (framecnt st) (bigbuffer st) (files st)
    (stdout st ++ [s]) (stderr st).
Definition eprint (d : diag) (st : state) : state :=
  mk_state (is_capture st) (fmt st) (fd st) (buffers st) (n_buffers st) (force_format st)
    (ppm_header st) (ppm_dumpname st) (framecnt st) (bigbuffer st) (files st)
    (stdout st) (stderr st ++ [d]).

(** How a run of (a part of) the program ends. *)
Inductive outcome (A : Type) : Type :=
| Ret (a : A) (st : state)        (* the function returned *)
| Exit (code : Z) (st : state)    (* exit(code) *)
| AssertFail (st : state)         (* assert() failed *)
| Fault (st : state)              (* access outside a memory area *)
| Pending (st : state).           (* still looping when the script ends *)
Arguments Ret {A} a st.
Arguments Exit {A} code st.
Arguments AssertFail {A} st.
Arguments Fault {A} st.
Arguments Pending {A} st.

Definition prog (A : Type) : Type := state -> outcome A.

Definition prog_bind {A B : Type} (f : A -> prog B) (m : prog A) : prog B :=
  fun st =>
    match m st with
    | Ret a st => f a st
    | Exit code st => Exit code st
    | AssertFail st => AssertFail st
    | Fault st => Fault st
    | Pending st => Pending st
    end.

#[global] Instance prog_mbind : MBind prog := @prog_bind.
#[global] Instance prog_mret : MRet prog := fun A a st => Ret a st.

Definition modify (f : state -> state) : prog unit := fun st => Ret tt (f st).

(** ** Answers of the operating system *)

(** What the system answers while one frame is written out. *)
Record frame_io : Type := mk_frame_io {
  io_clock : timespec;    (* clock_gettime(CLOCK_REALTIME, &frame_time) *)
  io_open : bool;         (* does open() of the dump file succeed *)
  io_write : list Z       (* what the successive write() calls return *)
}.

(** What the system answers during one iteration of the capture loop.
    [it_dqbuf] lists what the successive [ioctl(fd, VIDIOC_DQBUF, &buf)]
    calls of [xioctl] return; [it_mem] is the content of the mapped
    buffer that the driver hands over. *)
Record iteration : Type := mk_iteration {
  it_select : Z * Z;                (* return value of select(), errno *)
  it_dqbuf : list (Z * Z);          (* return values of ioctl(), errno *)
  it_index : Z;                     (* buf.index after the call *)
  it_bytesused : Z;                 (* buf.bytesused after the call *)
  it_mem : list Z;
  it_io : frame_io;
  it_nanosleep : Z * Z              (* return value of nanosleep(), errno *)
}.

Inductive event : Type :=
| Signal (signal : Z)               (* a signal arrives, [signalHandler] runs *)
| Iter (it : iteration).

(** The capture device and the allocator during set-up. *)
Record device : Type := mk_device {
  dev_stat : Z * bool;                                (* stat(): return value, S_ISCHR *)
  dev_open : Z;                                       (* open(): descriptor or -1 *)
  dev_querycap : Z * Z * Z;                           (* return value, errno, cap.capabilities *)
  dev_s_fmt : v4l2_pix_format -> Z * v4l2_pix_format; (* VIDIOC_S_FMT rewrites fmt *)
  dev_g_fmt : v4l2_pix_format -> Z * v4l2_pix_format; (* VIDIOC_G_FMT rewrites fmt *)
  dev_reqbufs : Z -> Z * Z * Z;                       (* req.count in; return value, errno, req.count out *)
  dev_calloc : bool;                                  (* does calloc() succeed *)
  dev_querybuf : Z -> Z * Z;                          (* index in; buf.length, buf.m.offset out *)
  dev_mmap : Z -> Z -> Z                              (* length, offset in; address or MAP_FAILED *)
}.

(** ** Files *)

Definition write_at (old : list Z) (pos : nat) (data : list Z) : list Z :=
  take pos old ++ data ++ drop (pos + length data) old.

(** [open(name, O_WRONLY | O_NONBLOCK | O_CREAT, 00666)]: the file is
    created when absent, it is not truncated, the position is 0. *)
Definition sys_open (name : string) (ok : bool) (fs : gmap string (list Z))
    : gmap string (list Z) * option (string * nat) :=
  if ok
  then (<[name := default [] (fs !! name)]> fs, Some (name, O))
  else (fs, None).

(** [write(dumpfd, data, count)] answered by [answer]: an error, or the
    number of bytes the system took. *)
Definition sys_write (fs : gmap string (list Z)) (dumpfd : option (string * nat))
    (data : list Z) (answer : Z) : gmap string (list Z) * option (string * nat) * Z :=
  match dumpfd with
  | None => (fs, None, -1)
  | Some (name, pos) =>
      if answer <? 0 then (fs, dumpfd, -1)
      else
        let taken := take (Z.to_nat answer) data in
        (<[name := write_at (default [] (fs !! name)) pos taken]> fs,
         Some (name, (pos + length taken)%nat),
         Z.of_nat (length taken))
  end.

(** ** Frame writer

    [dump_ppm] hands [size] bytes at [p] to [write]; they have to lie
    inside the area [p] points to: a [size] that is negative or reaches
    past the area ends the run as [Fault]. When the answers run out
    inside the write loop the outcome is [Pending] and carries the disk
    as [open] left it. *)

Definition ppm_header0 : list ascii :=
  chars ("P6" +:+ LF +:+ "#9999999999 sec 9999999999 msec " +:+ LF +:+
         HRES_STR +:+ " " +:+ VRES_STR +:+ LF +:+ "255" +:+ LF) ++ [NUL].
Definition ppm_dumpname0 : list ascii :=
  chars "frames/test00000000.ppm" ++ [NUL].

(** The loop
    [do { written = write(dumpfd, p, size); total += written; } while (total < size);]
    Every turn offers the same [size] bytes at [p]. [total] is the sum
    as a number: it is the program's [int total] as long as that has
    not overflowed, that is for at most [2^31] failed writes and sums
    up to [INT_MAX]; the properties below say so where they depend on
    it. *)
Fixpoint dump_ppm_loop (answers : list Z) (fs : gmap string (list Z))
    (dumpfd : option (string * nat)) (p : list Z) (size total : Z)
    : option (gmap string (list Z)) :=
  match answers with
  | [] => None
  | answer :: answers =>
      let '(fs, dumpfd, written) := sys_write fs dumpfd (take (Z.to_nat size) p) answer in
      let total := total + written in
      if total <? size
      then dump_ppm_loop answers fs dumpfd p size total
      else Some fs
  end.

(** The statements of [dump_ppm] that put the frame number into
    [ppm_dumpname]. *)
Definition dump_ppm_name (ppm_dumpname : list ascii) (tag : Z) : option (list ascii) :=
  a ← snprintf ppm_dumpname 11 9 (fmt_0d 8 (to_int tag));
  strncat a 15 ".ppm" 5.

(** The statements of [dump_ppm] that put the time stamp into
    [ppm_header]. *)
Definition dump_ppm_stamp (ppm_header : list ascii) (time : timespec)
    : option (list ascii) :=
  h ← snprintf ppm_header 4 11 (fmt_0d 10 (to_int (tv_sec time)));
  h ← strncat h 14 " sec  " 5;
  h ← snprintf h 19 11 (fmt_0d 10 (to_int (Z.quot (tv_nsec time) 1000000)));
  strcat h 29 (" msec " +:+ LF +:+ HRES_STR +:+ " " +:+ VRES_STR +:+ LF +:+ "255" +:+ LF).

(** The two writes of [dump_ppm]: the header, whose return value is
    overwritten, then the loop over the pixels. *)
Definition dump_ppm_write (answers : list Z) (fs : gmap string (list Z))
    (dumpfd : option (string * nat)) (header : list ascii) (p : list Z) (size : Z)
    : option (gmap string (list Z)) :=
  match answers with
  | [] => None
  | answer :: answers =>
      (* subtract 1 because sizeof for string includes null terminator *)
      let '(fs, dumpfd, _) :=
        sys_write fs dumpfd (byte_of_char <$> take (length header - 1) header) answer in
      dump_ppm_loop answers fs dumpfd p size 0
  end.

Definition dump_ppm (io : frame_io) (p : list Z) (size tag : Z) (time : timespec)
    : prog unit := fun st =>
  match dump_ppm_name (ppm_dumpname st) tag with
  | None => Fault st
  | Some name =>
      let st := set_ppm_dumpname name st in
      let opened := sys_open (c_string name) (io_open io) (files st) in
      let st := set_files (fst opened) st in
      match dump_ppm_stamp (ppm_header st) time with
      | None => Fault st
      | Some header =>
          let st := set_ppm_header header st in
          if (0 <=? size) && (size <=? Z.of_nat (length p)) then
            match dump_ppm_write (io_write io) (files st) (snd opened) header p size with
            | None => Pending st
            | Some fs => Ret tt (printf ("Wrote a frame" +:+ LF) (set_files fs st))
            end
          else Fault st
      end
  end.

(** ** Image processing

    A load or a store of the conversion loop outside its area ends the
    run there, as [Fault]; the state it carries is the one before the
    conversion, and nothing is said of the program beyond that access. *)

Definition process_image (io : frame_io) (p : list Z) (size : Z) : prog unit := fun st =>
  let frame_time := io_clock io in
  let st := set_framecnt (to_uint (framecnt st + 1)) st in
  if pixelformat (fmt st) =? V4L2_PIX_FMT_YUYV then
    match yuyv_convert p size (bigbuffer st) with
    | LoopDone bigbuffer =>
        let st := set_bigbuffer bigbuffer st in
        dump_ppm io bigbuffer (Z.quot (size * 6) 4) (framecnt st) frame_time st
    | _ => Fault st
    end
  else
    Ret tt (printf ("ERROR - unknown dump format" +:+ LF) st).

(** ** Capture loop *)

(** [xioctl]: the request is repeated as long as it fails with [EINTR];
    [answers] are the return value and [errno] of the successive [ioctl]
    calls. *)
Fixpoint xioctl (answers : list (Z * Z)) : option (Z * Z) :=
  match answers with
  | [] => None
  | (r, errno) :: answers =>
      if (r =? -1) && (errno =? EINTR) then xioctl answers else Some (r, errno)
  end.

(** [read_frame]: with [PRINT_ENABLE] at 0 the [default:] branch of the
    [switch] is compiled out, any other error falls through to the
    assertion. A buffer whose mapping failed has no readable memory. *)
Definition read_frame (it : iteration) : prog Z := fun st =>
  match xioctl (it_dqbuf it) with
  | None => Pending st
  | Some (r, errno) =>
      if (r =? -1) && ((errno =? EAGAIN) || (errno =? EIO)) then Ret 0 st
      else if it_index it <? n_buffers st then
        match buffers st !! Z.to_nat (it_index it) with
        | None => Fault st
        | Some b =>
            let p := if buffer.start b =? MAP_FAILED then [] else it_mem it in
            (process_image (it_io it) p (to_int (it_bytesused it)) ;; mret 1) st
        end
      else AssertFail st
  end.

Definition signalHandler (signal : Z) (st : state) : state :=
  if signal =? SIGINT then set_is_capture false st
  else if signal =? SIGTERM then set_is_capture false st
  else st.

(** [capture_frame]: one script entry per turn of [for (;;)]. A
    [select] error other than [EINTR] goes on to [read_frame]. The
    [break] is the [else] branch of the [nanosleep] test, the [printf]
    that used to stand there being commented out. *)
Fixpoint capture_frame (script : list event) : prog (list event) := fun st =>
  match script with
  | [] => Pending st
  | Signal signal :: script => capture_frame script (signalHandler signal st)
  | Iter it :: script =>
      let '(r, errno) := it_select it in
      if (r =? -1) && (errno =? EINTR) then capture_frame script st
      else if r =? 0 then
        Exit EXIT_FAILURE (eprint (Msg ("select timeout" +:+ LF)) st)
      else
        match read_frame it st with
        | Ret got st =>
            if got =? 0 then capture_frame script st
            else
              let '(r, errno) := it_nanosleep it in
              if r =? 0 then Ret script st
              else capture_frame script (eprint (Perror "nanosleep" errno) st)
        | Exit code st => Exit code st
        | AssertFail st => AssertFail st
        | Fault st => Fault st
        | Pending st => Pending st
        end
  end.

(** ** Device set-up and tear-down *)

Definition dev_name : string := "/dev/video0".

(** The diagnostics carry [errno] and its text in the source; they are
    left out here. *)
Definition open_device (dev : device) : prog unit := fun st =>
  let '(r, is_chr) := dev_stat dev in
  if r =? -1 then
    Exit EXIT_FAILURE (eprint (Msg ("Cannot identify '" +:+ dev_name +:+ "'")) st)
  else if negb is_chr then
    Exit EXIT_FAILURE (eprint (Msg (dev_name +:+ " is no device" +:+ LF)) st)
  else
    let st := set_fd (dev_open dev) st in
    if fd st =? -1 then
      Exit EXIT_FAILURE (eprint (Msg ("Cannot open '" +:+ dev_name +:+ "'")) st)
    else Ret tt st.

(** The loop [for (n_buffers = 0; n_buffers < req.count; ++n_buffers)] of
    [init_mmap]. Neither a failed [VIDIOC_QUERYBUF] nor a failed [mmap]
    stops it: both calls of [errno_exit] are compiled out. *)
Fixpoint init_mmap_loop (fuel : nat) (dev : device) (count n_buffers : Z)
    (buffers : list buffer.t) : Z * list buffer.t :=
  if n_buffers <? count then
    match fuel with
    | O => (n_buffers, buffers)
    | S fuel =>
        let '(len, offset) := dev_querybuf dev n_buffers in
        let b := buffer.mk (dev_mmap dev len offset) len in
        init_mmap_loop fuel dev count (n_buffers + 1)
          (<[Z.to_nat n_buffers := b]> buffers)
    end
  else (n_buffers, buffers).

(** [init_mmap]: a [VIDIOC_REQBUFS] error other than [EINVAL] goes on to
    the test of [req.count]. *)
Definition init_mmap (dev : device) : prog unit := fun st =>
  let '(r, errno, count) := dev_reqbufs dev 6 in
  if (r =? -1) && (errno =? EINVAL) then
    Exit EXIT_FAILURE
      (eprint (Msg (dev_name +:+ " does not support memory mapping" +:+ LF)) st)
  else if count <? 2 then
    Exit EXIT_FAILURE
      (eprint (Msg ("Insufficient buffer memory on " +:+ dev_name +:+ LF)) st)
  else if negb (dev_calloc dev) then
    Exit EXIT_FAILURE (eprint (Msg ("Out of memory" +:+ LF)) st)
  else
    let '(n, bufs) :=
      init_mmap_loop (Z.to_nat count) dev count 0
        (replicate (Z.to_nat count) (buffer.mk 0 0)) in
    Ret tt (set_n_buffers n (set_buffers bufs st)).

(** "Buggy driver paranoia": the two corrections of [init_device], on
    [unsigned int] fields. *)
Definition paranoia (f : v4l2_pix_format) : v4l2_pix_format :=
  let min := to_uint (width f * 2) in
  let bpl := if bytesperline f <? min then min else bytesperline f in
  let min := to_uint (bpl * height f) in
  let szi := if sizeimage f <? min then min else sizeimage f in
  mk_pix (width f) (height f) (pixelformat f) (field f) bpl szi.

(** Format negotiation of [init_device]: [CLEAR(fmt)], then either the
    forced geometry is sent with [VIDIOC_S_FMT] or the current one is
    read with [VIDIOC_G_FMT]; the driver rewrites [fmt] and the return
    value is not looked at. *)
Definition negotiate (dev : device) (force_format : Z) : v4l2_pix_format :=
  let fmt := mk_pix 0 0 0 0 0 0 in
  if force_format =? 0 then snd (dev_g_fmt dev fmt)
  else
    snd (dev_s_fmt dev
           (mk_pix HRES VRES V4L2_PIX_FMT_YUYV V4L2_FIELD_NONE
              (bytesperline fmt) (sizeimage fmt))).

(** [init_device]: a [VIDIOC_QUERYCAP] error other than [EINVAL] goes on
    to the capability tests. *)
Definition init_device (dev : device) : prog unit := fun st =>
  let '(r, errno, capabilities) := dev_querycap dev in
  if (r =? -1) && (errno =? EINVAL) then
    Exit EXIT_FAILURE (eprint (Msg (dev_name +:+ " is no V4L2 device" +:+ LF)) st)
  else if Z.land capabilities V4L2_CAP_VIDEO_CAPTURE =? 0 then
    Exit EXIT_FAILURE
      (eprint (Msg (dev_name +:+ " is no video capture device" +:+ LF)) st)
  else if Z.land capabilities V4L2_CAP_STREAMING =? 0 then
    Exit EXIT_FAILURE
      (eprint (Msg (dev_name +:+ " does not support streaming i/o" +:+ LF)) st)
  else
    (* VIDIOC_CROPCAP and VIDIOC_S_CROP: errors ignored *)
    let st := set_fmt (paranoia (negotiate dev (force_format st))) st in
    init_mmap dev st.

(** [VIDIOC_QBUF] for every buffer, then [VIDIOC_STREAMON]; no answer is
    looked at and no global changes. *)
Definition start_capturing : prog unit := fun st => Ret tt st.

(** [VIDIOC_STREAMOFF], answer not looked at. *)
Definition stop_capturing : prog unit := fun st => Ret tt st.

(** [munmap] of every buffer, answers not looked at, then [free(buffers)]. *)
Definition uninit_device : prog unit := modify (set_buffers []).

Definition close_device : prog unit := modify (set_fd (-1)).

Definition camera_capture (dev : device) (script : list event) : prog Z :=
  open_device dev ;;
  init_device dev ;;
  start_capturing ;;
  (* Edit: Capture a single frame *)
  capture_frame script ;;
  modify (set_is_capture false) ;;
  stop_capturing ;;
  uninit_device ;;
  close_device ;;
  modify (eprint (Msg LF)) ;;
  mret 0.

(** The globals as the loader initialises them, over the files [fs]. *)
Definition bigbuffer0 : list Z := replicate (Z.to_nat BIGBUFFER_SIZE) 0.

Definition initial_state (fs : gmap string (list Z)) : state :=
  {| is_capture := true;
     fmt := mk_pix 0 0 0 0 0 0;
     fd := -1;
     buffers := [];
     n_buffers := 0;
     force_format := 1;
     ppm_header := ppm_header0;
     ppm_dumpname := ppm_dumpname0;
     framecnt := 0;
     bigbuffer := bigbuffer0;
     files := fs;
     stdout := [];
     stderr := [] |}.

(** ** Quantities used in the statements *)

(** Turns the conversion loop still has to run from position [i]. *)
Definition turns_left (size i : Z) : Z := (size - i + 3) / 4.

(** The largest frame whose conversion fits the scratch area. *)
Definition MAX_FRAME_BYTES : Z := BIGBUFFER_SIZE * 4 / 6.

Definition is_uint (x : Z) : Prop := 0 <= x < 2 ^ 32.

(** The driver answered with [unsigned int] values. *)
Definition pix_uint (f : v4l2_pix_format) : Prop :=
  is_uint (width f) /\ is_uint (height f) /\
  is_uint (bytesperline f) /\ is_uint (sizeimage f).

(** The state an outcome carries. *)
Definition state_of {A : Type} (o : outcome A) : state :=
  match o with
  | Ret _ st | Exit _ st | AssertFail st | Fault st | Pending st => st
  end.

Definition returned {A : Type} (o : outcome A) : bool :=
  match o with
  | Ret _ _ => true
  | _ => false
  end.

Definition faulted {A : Type} (o : outcome A) : bool :=
  match o with
  | Fault _ => true
  | _ => false
  end.

Definition outcome_map {A : Type} (f : state -> state) (o : outcome A) : outcome A :=
  match o with
  | Ret a st => Ret a (f st)
  | Exit code st => Exit code (f st)
  | AssertFail st => AssertFail (f st)
  | Fault st => Fault (f st)
  | Pending st => Pending (f st)
  end.

(** Classification of one turn of the capture loop by what the system
    answered. *)
Definition select_interrupted (it : iteration) : bool :=
  (fst (it_select it) =? -1) && (snd (it_select it) =? EINTR).
Definition select_timeout (it : iteration) : bool := fst (it_select it) =? 0.
Definition select_ready (it : iteration) : bool := 0 <? fst (it_select it).
Definition dqbuf_not_ready (it : iteration) : bool :=
  match xioctl (it_dqbuf it) with
  | Some (r, errno) => (r =? -1) && ((errno =? EAGAIN) || (errno =? EIO))
  | None => false
  end.

(** A transient condition: the wait was interrupted, or the wait came
    back ready and the dequeue said try-again or EIO. *)
Definition transient (e : event) : bool :=
  match e with
  | Signal _ => false
  | Iter it => select_interrupted it || (select_ready it && dqbuf_not_ready it)
  end.

(** What set-up may do to the state it starts from: return with the
    disk, the frame counter and the diagnostics as they were, or leave
    the process with [EXIT_FAILURE] and one more diagnostic. *)
Definition setup_outcome (st : state) (o : outcome unit) : Prop :=
  match o with
  | Ret _ st' =>
      files st' = files st /\ framecnt st' = framecnt st /\ stderr st' = stderr st
  | Exit code st' =>
      code = EXIT_FAILURE /\ files st' = files st /\ framecnt st' = framecnt st /\
      stderr st' <> stderr st
  | _ => False
  end.

(** ** Sample turns of the capture loop *)

Definition no_frame_io : frame_io := mk_frame_io (mk_timespec 0 0) false [].

Definition it_eintr : iteration :=
  mk_iteration (-1, EINTR) [] 0 0 [] no_frame_io (0, 0).
Definition it_eagain : iteration :=
  mk_iteration (1, 0) [(-1, EAGAIN)] 0 0 [] no_frame_io (0, 0).
(* the dequeue is interrupted once, then fails with EIO *)
Definition it_eio : iteration :=
  mk_iteration (1, 0) [(-1, EINTR); (-1, EIO)] 0 0 [] no_frame_io (0, 0).
Definition it_timeout : iteration :=
  mk_iteration (0, 0) [] 0 0 [] no_frame_io (0, 0).

(** The wait comes back ready, buffer [index] holds the frame [mem], the
    dump file opens, the header and the pixels are each taken by one
    [write], the pause is not interrupted. *)
Definition it_frame (index : Z) (mem : list Z) (time : timespec) : iteration :=
  mk_iteration (1, 0) [(0, 0)] index (Z.of_nat (length mem)) mem
    (mk_frame_io time true [48; Z.of_nat (length mem) * 6 / 4]) (0, 0).

(** A state with the stop flag forgotten. *)
Definition ignoring_flag {A : Type} (o : outcome A) : outcome A :=
  outcome_map (set_is_capture false) o.

Definition not_nul (c : ascii) : Prop := Ascii.eqb c NUL = false.

(** ** The output file as the design document words it *)

(** [n] as [w] decimal digits, zero-padded. *)
Definition zero_padded (w : nat) (n : Z) : string :=
  string_of_list_ascii (dec_digits w n).

(** ["P6\n#<10-digit-seconds> sec <10-digit-millis> msec \n320 240\n255\n"] *)
Definition spec_ppm_header (seconds millis : Z) : string :=
  "P6" +:+ LF +:+ "#" +:+ zero_padded 10 seconds +:+ " sec " +:+
  zero_padded 10 millis +:+ " msec " +:+ LF +:+ "320 240" +:+ LF +:+ "255" +:+ LF.

(** [frames/test<8-digit-zero-padded-frame-number>.ppm] *)
Definition spec_ppm_name (frame_number : Z) : string :=
  "frames/test" +:+ zero_padded 8 frame_number +:+ ".ppm".

Definition bytes_of_string (s : string) : list Z := byte_of_char <$> chars s.

(** ** Devices on which set-up goes through *)



(** The disk [fs'] differs from [fs] at most in the file [name], which
    is still there if it was. *)
Definition only_touches (name : string) (fs fs' : gmap string (list Z)) : Prop :=
  (is_Some (fs !! name) -> is_Some (fs' !! name)) /\
  (forall other, other <> name -> fs' !! other = fs !! other).

(** ** Simulated devices *)

(** Accepts the forced geometry, grants what is asked, maps every buffer. *)
Definition sim_device : device :=
  {| dev_stat := (0, true);
     dev_open := 3;
     dev_querycap := (0, 0, Z.lor V4L2_CAP_VIDEO_CAPTURE V4L2_CAP_STREAMING);
     dev_s_fmt := fun f =>
       (0, mk_pix (width f) (height f) (pixelformat f) (field f)
             (width f * 2) (width f * 2 * height f));
     dev_g_fmt := fun _ => (0, mk_pix 640 480 V4L2_PIX_FMT_YUYV V4L2_FIELD_NONE 1280 614400);
     dev_reqbufs := fun count => (0, 0, count);
     dev_calloc := true;
     dev_querybuf := fun index => (153600, index * 153600);
     dev_mmap := fun len offset => 0x7f0000000000 + offset |}.

(** As [sim_device], but the driver reports a line stride of [2^31]
    bytes and an image size of 0. *)
Definition misreporting_device : device :=
  {| dev_stat := dev_stat sim_device;
     dev_open := dev_open sim_device;
     dev_querycap := dev_querycap sim_device;
     dev_s_fmt := fun f =>
       (0, mk_pix (width f) (height f) (pixelformat f) (field f) (2 ^ 31) 0);
     dev_g_fmt := dev_g_fmt sim_device;
     dev_reqbufs := dev_reqbufs sim_device;
     dev_calloc := true;
     dev_querybuf := dev_querybuf sim_device;
     dev_mmap := dev_mmap sim_device |}.

(** As [sim_device], but only two buffers are granted and only the
    first one can be mapped. *)
Definition unmappable_device : device :=
  {| dev_stat := dev_stat sim_device;
     dev_open := dev_open sim_device;
     dev_querycap := dev_querycap sim_device;
     dev_s_fmt := dev_s_fmt sim_device;
     dev_g_fmt := dev_g_fmt sim_device;
     dev_reqbufs := fun _ => (0, 0, 2);
     dev_calloc := true;
     dev_querybuf := dev_querybuf sim_device;
     dev_mmap := fun len offset =>
       if offset =? 0 then 0x7f0000000000 else MAP_FAILED |}.

(** ** A session on [sim_device] in which [SIGINT] arrives before the loop *)

Definition sample_frame : list Z := [16; 128; 235; 128].
Definition sample_time : timespec := mk_timespec 1700000000 123456789.

(** [sim_device] is set up, the loop has not been entered. *)
Definition sim_ready : state := state_of (init_device sim_device (initial_state ∅)).

(** [SIGINT] has arrived: the handler has run. *)
Definition sim_stopped : state := signalHandler SIGINT sim_ready.


(** ** Further sample sessions on [sim_device] *)

(** [unmappable_device] is set up; the driver then hands over a frame
    in the buffer that is not mapped. *)
Definition unmappable_ready : state :=
  state_of (init_device unmappable_device (initial_state ∅)).

Definition unmappable_run : outcome (list event) :=
  capture_frame [Iter (it_frame 1 sample_frame sample_time)] unmappable_ready.


(** The pixel write is cut short after 4 of the 6 bytes, the loop asks
    again and the second write takes all it is offered. *)
Definition it_short_write : iteration :=
  mk_iteration (1, 0) [(0, 0)] 0 4 sample_frame
    (mk_frame_io sample_time true [48; 4; 6]) (0, 0).

Definition short_write_run : outcome (list event) :=
  capture_frame [Iter it_short_write] sim_ready.

(** As [sim_device], but the driver answers [VIDIOC_S_FMT] with motion
    JPEG, v4l2_fourcc('M','J','P','G'). *)
Definition V4L2_PIX_FMT_MJPEG : Z := 0x47504A4D.

Definition mjpeg_device : device :=
  {| dev_stat := dev_stat sim_device;
     dev_open := dev_open sim_device;
     dev_querycap := dev_querycap sim_device;
     dev_s_fmt := fun f =>
       (0, mk_pix (width f) (height f) V4L2_PIX_FMT_MJPEG (field f) 0 153600);
     dev_g_fmt := dev_g_fmt sim_device;
     dev_reqbufs := dev_reqbufs sim_device;
     dev_calloc := true;
     dev_querybuf := dev_querybuf sim_device;
     dev_mmap := dev_mmap sim_device |}.

Definition mjpeg_ready : state := state_of (init_device mjpeg_device (initial_state ∅)).

Definition mjpeg_run : outcome (list event) :=
  capture_frame [Iter (it_frame 0 sample_frame sample_time)] mjpeg_ready.

(** ** Vocabulary of the further properties *)

Definition pending {A : Type} (o : outcome A) : bool :=
  match o with
  | Pending _ => true
  | _ => false
  end.

Definition exit_code {A : Type} (o : outcome A) : option Z :=
  match o with
  | Exit code _ => Some code
  | _ => None
  end.

(** The header as [dump_ppm] hands it to [write]: the array without its
    terminator. *)
Definition header_bytes (header : list ascii) : list Z :=
  byte_of_char <$> take (length header - 1) header.

(** The three global arrays are as the loader left them, up to what
    [dump_ppm] and the conversion loop write into them: the scratch area
    has its 1280*960 bytes, [ppm_dumpname] its 24 bytes and its prefix,
    [ppm_header] its 49 bytes and its magic number. *)
Definition globals_ok (st : state) : Prop :=
  Z.of_nat (length (bigbuffer st)) = BIGBUFFER_SIZE /\
  length (ppm_dumpname st) = 24%nat /\
  take 11 (ppm_dumpname st) = chars "frames/test" /\
  length (ppm_header st) = 49%nat /\
  take 4 (ppm_header st) = chars ("P6" +:+ LF +:+ "#").

(** What set-up has established and the capture loop has no business
    changing. *)
Definition same_device (st st' : state) : Prop :=
  fmt st' = fmt st /\ fd st' = fd st /\ buffers st' = buffers st /\
  n_buffers st' = n_buffers st /\ force_format st' = force_format st.

(** The turn [it] with another answer of [select] or of [nanosleep]. *)
Definition with_select (answer : Z * Z) (it : iteration) : iteration :=
  mk_iteration answer (it_dqbuf it) (it_index it) (it_bytesused it) (it_mem it)
    (it_io it) (it_nanosleep it).

Definition with_nanosleep (answer : Z * Z) (it : iteration) : iteration :=
  mk_iteration (it_select it) (it_dqbuf it) (it_index it) (it_bytesused it) (it_mem it)
    (it_io it) answer.

(** The device [dev] with other answers to [VIDIOC_S_FMT] and
    [VIDIOC_G_FMT]. *)
Definition with_format (s_fmt g_fmt : v4l2_pix_format -> Z * v4l2_pix_format)
    (dev : device) : device :=
  {| dev_stat := dev_stat dev;
     dev_open := dev_open dev;
     dev_querycap := dev_querycap dev;
     dev_s_fmt := s_fmt;
     dev_g_fmt := g_fmt;
     dev_reqbufs := dev_reqbufs dev;
     dev_calloc := dev_calloc dev;
     dev_querybuf := dev_querybuf dev;
     dev_mmap := dev_mmap dev |}.

(** A run that left through [exit] did so with [EXIT_FAILURE], right
    after a message on [stderr]. *)
Definition failed_with_message {A : Type} (o : outcome A) : Prop :=
  match o with
  | Exit code st => code = EXIT_FAILURE /\ exists text, last (stderr st) = Some (Msg text)
  | _ => True
  end.

(** ** A session over the dump file of an earlier one *)



(** ** A session in which the wait times out after a frame *)

(** A frame is delivered and dumped, [nanosleep] is interrupted, so the
    loop waits again; this time nothing arrives within the 2 seconds. *)
Definition timeout_after_frame_run : outcome Z :=
  camera_capture sim_device
    [Iter (with_nanosleep (-1, EINTR) (it_frame 0 sample_frame sample_time));
     Iter it_timeout]
    (initial_state ∅).

(** ** Tactics *)

(** Reads a global back through the setters stacked on a state. *)
Ltac simpl_state :=
  cbn [set_is_capture set_fmt set_fd set_buffers set_n_buffers set_ppm_header
       set_ppm_dumpname set_framecnt set_bigbuffer set_files printf eprint
       is_capture fmt fd buffers n_buffers force_format ppm_header ppm_dumpname
       framecnt bigbuffer files stdout stderr].

(* ===================================================================== *)
(** * Properties *)
(* ===================================================================== *)

(** ** Memory areas *)

Lemma load_at (m pre post : list Z) (x i : Z) :
  m = pre ++ x :: post -> i = Z.of_nat (length pre) -> load m i = Some x.
Proof.
  intros -> ->. unfold load.
  destruct (Z.ltb_spec (Z.of_nat (length pre)) 0) as [Hlt | _]; [lia |].
  rewrite Nat2Z.id. by rewrite list_lookup_middle.
Qed.

Lemma store_at (m pre post : list Z) (x i v : Z) :
  m = pre ++ x :: post -> i = Z.of_nat (length pre) ->
  store m i v = Some (pre ++ v :: post).
Proof.
  intros -> ->. unfold store.
  rewrite length_app. cbn [length].
  destruct (Z.leb_spec 0 (Z.of_nat (length pre))) as [_ | Hlt]; [| lia].
  destruct (Z.ltb_spec (Z.of_nat (length pre))
              (Z.of_nat (length pre + S (length post)))) as [_ | Hge]; [| lia].
  cbn [andb]. rewrite Nat2Z.id.
  f_equal. rewrite insert_app_r_alt by lia. by rewrite Nat.sub_diag.
Qed.

Lemma store_length (m m' : list Z) (i v : Z) :
  store m i v = Some m' -> length m' = length m.
Proof.
  unfold store. case_match; [| done]. intros [= <-]. apply length_insert.
Qed.

Lemma store_in_range (m : list Z) (i v : Z) :
  0 <= i < Z.of_nat (length m) -> is_Some (store m i v).
Proof.
  intros [H0 H1]. unfold store.
  destruct (Z.leb_spec 0 i); [| lia].
  destruct (Z.ltb_spec i (Z.of_nat (length m))); [| lia]. by eexists.
Qed.

(** ** Colorspace converter *)

Lemma clamp_0_255_range (x : Z) : 0 <= clamp_0_255 x <= 255.
Proof. unfold clamp_0_255. lia. Qed.

Lemma to_uchar_clamp (x : Z) : to_uchar (clamp_0_255 x) = clamp_0_255 x.
Proof.
  unfold to_uchar. apply Z.mod_small.
  pose proof (clamp_0_255_range x). change (2 ^ 8) with 256. lia.
Qed.

Lemma clip_is_clamp (x : Z) :
  (let x1 := if x >? 255 then 255 else x in if x1 <? 0 then 0 else x1) = clamp_0_255 x.
Proof.
  unfold clamp_0_255. cbv zeta.
  destruct (Z.gtb_spec x 255).
  - destruct (Z.ltb_spec 255 0); lia.
  - destruct (Z.ltb_spec x 0); lia.
Qed.

(** The sequence of clipping tests of [yuv2rgb] is the clamp of the
    design document, channel by channel. *)
Lemma yuv2rgb_int_spec (y u v : Z) :
  yuv2rgb_int y u v = (spec_R y u v, spec_G y u v, spec_B y u v).
Proof.
  unfold yuv2rgb_int, spec_R, spec_G, spec_B. cbv zeta.
  repeat f_equal; apply clip_is_clamp.
Qed.

(** With arguments read from [unsigned char] cells no intermediate value
    of [yuv2rgb] leaves the range of [int]. *)
Lemma yuv2rgb_no_overflow (y u v : Z) :
  is_byte y -> is_byte u -> is_byte v ->
  in_int (298 * (y - 16) + 409 * (v - 128) + 128) /\
  in_int (298 * (y - 16) - 100 * (u - 128) - 208 * (v - 128) + 128) /\
  in_int (298 * (y - 16) + 516 * (u - 128) + 128).
Proof. unfold is_byte, in_int, INT_MIN, INT_MAX. lia. Qed.

Lemma yuv2rgb_at (y u v : Z) (pre post : list Z) (a b c : Z) :
  yuv2rgb y u v (pre ++ a :: b :: c :: post)
    (Z.of_nat (length pre)) (Z.of_nat (length pre) + 1) (Z.of_nat (length pre) + 2)
  = Some (pre ++ spec_pixel y u v ++ post).
Proof.
  unfold yuv2rgb. rewrite yuv2rgb_int_spec.
  unfold spec_R, spec_G, spec_B, spec_pixel. rewrite !to_uchar_clamp.
  erewrite (store_at _ pre); [| reflexivity | reflexivity]. cbn [mbind option_bind].
  erewrite (store_at _ (pre ++ [_])); cycle 1.
  { rewrite <- app_assoc. reflexivity. }
  { rewrite length_app. cbn [length]. lia. }
  cbn [mbind option_bind].
  erewrite (store_at _ (pre ++ [_; _])); cycle 1.
  { rewrite <- !app_assoc. reflexivity. }
  { rewrite !length_app. cbn [length]. lia. }
  by rewrite <- !app_assoc.
Qed.

Lemma yuyv_loop_unfold (fuel : nat) (pptr : list Z) (size i newi : Z) (bigbuffer : list Z) :
  yuyv_loop fuel pptr size i newi bigbuffer =
  if i <? size then
    match fuel with
    | O => OutOfFuel
    | S fuel =>
        match load pptr i, load pptr (i + 1), load pptr (i + 2), load pptr (i + 3) with
        | Some y_temp, Some u_temp, Some y2_temp, Some v_temp =>
            match yuv2rgb y_temp u_temp v_temp bigbuffer newi (newi + 1) (newi + 2) with
            | Some bigbuffer =>
                match yuv2rgb y2_temp u_temp v_temp bigbuffer
                        (newi + 3) (newi + 4) (newi + 5) with
                | Some bigbuffer => yuyv_loop fuel pptr size (i + 4) (newi + 6) bigbuffer
                | None => WriteFault
                end
            | None => WriteFault
            end
        | _, _, _, _ => ReadFault
        end
    end
  else LoopDone bigbuffer.
Proof. destruct fuel; reflexivity. Qed.

Lemma spec_pixel_length (y u v : Z) : length (spec_pixel y u v) = 3%nat.
Proof. reflexivity. Qed.

(** The loop over [k] whole quadruples, started anywhere in the frame
    and anywhere in the scratch area. *)
Lemma yuyv_loop_spec (k : nat) :
  forall (fuel : nat) (p ppre ptail bpre brest : list Z),
    length p = (4 * k)%nat -> (k <= fuel)%nat -> (6 * k <= length brest)%nat ->
    yuyv_loop fuel (ppre ++ p ++ ptail)
      (Z.of_nat (length ppre + length p))
      (Z.of_nat (length ppre)) (Z.of_nat (length bpre)) (bpre ++ brest)
    = LoopDone (bpre ++ spec_yuyv_to_rgb p ++ drop (6 * k) brest).
Proof.
  induction k as [| k IH]; intros fuel p ppre ptail bpre brest Hp Hfuel Hb.
  - destruct p; [| discriminate]. rewrite yuyv_loop_unfold.
    rewrite Nat.add_0_r, Z.ltb_irrefl. reflexivity.
  - destruct p as [| y0 [| u [| y1 [| v p]]]]; cbn [length] in Hp; try lia.
    destruct brest as [| a [| b [| c [| d [| e [| f brest]]]]]];
      cbn [length] in Hb; try lia.
    destruct fuel as [| fuel]; [lia |].
    rewrite yuyv_loop_unfold.
    destruct (Z.ltb_spec (Z.of_nat (length ppre))
                (Z.of_nat (length ppre + length (y0 :: u :: y1 :: v :: p))))
      as [_ | Hge]; [| cbn [length] in Hge; lia].
    erewrite (load_at _ ppre); [| cbn [app]; reflexivity | reflexivity].
    erewrite (load_at _ (ppre ++ [y0])); cycle 1.
    { rewrite <- app_assoc. reflexivity. }
    { rewrite length_app. cbn [length]. lia. }
    erewrite (load_at _ (ppre ++ [y0; u])); cycle 1.
    { rewrite <- app_assoc. reflexivity. }
    { rewrite length_app. cbn [length]. lia. }
    erewrite (load_at _ (ppre ++ [y0; u; y1])); cycle 1.
    { rewrite <- app_assoc. reflexivity. }
    { rewrite length_app. cbn [length]. lia. }
    rewrite yuv2rgb_at.
    replace (Z.of_nat (length bpre) + 3)
      with (Z.of_nat (length (bpre ++ spec_pixel y0 u v)))
      by (rewrite length_app, spec_pixel_length; lia).
    replace (Z.of_nat (length bpre) + 4)
      with (Z.of_nat (length (bpre ++ spec_pixel y0 u v)) + 1)
      by (rewrite length_app, spec_pixel_length; lia).
    replace (Z.of_nat (length bpre) + 5)
      with (Z.of_nat (length (bpre ++ spec_pixel y0 u v)) + 2)
      by (rewrite length_app, spec_pixel_length; lia).
    replace (bpre ++ spec_pixel y0 u v ++ d :: e :: f :: brest)
      with ((bpre ++ spec_pixel y0 u v) ++ d :: e :: f :: brest)
      by (by rewrite <- app_assoc).
    rewrite yuv2rgb_at.
    replace (Z.of_nat (length ppre) + 4)
      with (Z.of_nat (length (ppre ++ [y0; u; y1; v])))
      by (rewrite length_app; cbn [length]; lia).
    replace (Z.of_nat (length ppre + length (y0 :: u :: y1 :: v :: p)))
      with (Z.of_nat (length (ppre ++ [y0; u; y1; v]) + length p))
      by (rewrite length_app; cbn [length]; lia).
    replace (ppre ++ (y0 :: u :: y1 :: v :: p) ++ ptail)
      with ((ppre ++ [y0; u; y1; v]) ++ p ++ ptail)
      by (by rewrite <- app_assoc).
    replace (Z.of_nat (length bpre) + 6)
      with (Z.of_nat (length ((bpre ++ spec_pixel y0 u v) ++ spec_pixel y1 u v)))
      by (rewrite !length_app, !spec_pixel_length; lia).
    rewrite (app_assoc (bpre ++ spec_pixel y0 u v)).
    rewrite IH by lia.
    cbn [spec_yuyv_to_rgb].
    replace (6 * S k)%nat with (6 + 6 * k)%nat by lia.
    cbn [drop Nat.add]. by rewrite <- !app_assoc.
Qed.

Lemma yuyv_convert_spec (k : nat) (p ptail bigbuffer : list Z) :
  length p = (4 * k)%nat -> (6 * k <= length bigbuffer)%nat ->
  yuyv_convert (p ++ ptail) (Z.of_nat (length p)) bigbuffer
  = LoopDone (spec_yuyv_to_rgb p ++ drop (6 * k) bigbuffer).
Proof.
  intros Hp Hb. unfold yuyv_convert.
  apply (yuyv_loop_spec k (Z.to_nat (Z.of_nat (length p))) p [] ptail [] bigbuffer);
    [done | lia | done].
Qed.

Lemma spec_yuyv_to_rgb_length (k : nat) :
  forall p : list Z, length p = (4 * k)%nat -> length (spec_yuyv_to_rgb p) = (6 * k)%nat.
Proof.
  induction k as [| k IH]; intros p Hp.
  - by destruct p.
  - destruct p as [| y0 [| u [| y1 [| v p]]]]; cbn [length] in Hp; try lia.
    cbn [spec_yuyv_to_rgb]. rewrite !length_app, !spec_pixel_length, (IH p) by lia. lia.
Qed.

Lemma spec_yuyv_to_rgb_app (j : nat) :
  forall pre p : list Z, length pre = (4 * j)%nat ->
    spec_yuyv_to_rgb (pre ++ p) = spec_yuyv_to_rgb pre ++ spec_yuyv_to_rgb p.
Proof.
  induction j as [| j IH]; intros pre p Hpre.
  - by destruct pre.
  - destruct pre as [| y0 [| u [| y1 [| v pre]]]]; cbn [length] in Hpre; try lia.
    cbn [app spec_yuyv_to_rgb]. rewrite (IH pre p) by lia. by rewrite <- !app_assoc.
Qed.

(** ** Writes of the conversion loop stay inside the scratch area *)

Lemma yuv2rgb_in_range (y u v : Z) (m : list Z) (n : Z) :
  0 <= n -> n + 2 < Z.of_nat (length m) ->
  exists m', yuv2rgb y u v m n (n + 1) (n + 2) = Some m' /\ length m' = length m.
Proof.
  intros H0 H2. unfold yuv2rgb. destruct (yuv2rgb_int y u v) as [[r1 g1] b1].
  destruct (store_in_range m n (to_uchar r1)) as [m1 E1]; [lia |].
  pose proof (store_length _ _ _ _ E1) as L1.
  destruct (store_in_range m1 (n + 1) (to_uchar g1)) as [m2 E2]; [lia |].
  pose proof (store_length _ _ _ _ E2) as L2.
  destruct (store_in_range m2 (n + 2) (to_uchar b1)) as [m3 E3]; [lia |].
  pose proof (store_length _ _ _ _ E3) as L3.
  exists m3. rewrite E1. cbn [mbind option_bind]. rewrite E2. cbn [mbind option_bind].
  split; [done | congruence].
Qed.

Lemma yuyv_loop_safe (fuel : nat) :
  forall (pptr : list Z) (size i newi : Z) (bigbuffer : list Z),
    0 <= newi ->
    (i < size -> newi + 6 * turns_left size i <= Z.of_nat (length bigbuffer)) ->
    match yuyv_loop fuel pptr size i newi bigbuffer with
    | LoopDone out => length out = length bigbuffer
    | ReadFault => True
    | WriteFault => False
    | OutOfFuel => Z.of_nat fuel < turns_left size i
    end.
Proof.
  unfold turns_left.
  induction fuel as [| fuel IH]; intros pptr size i newi bigbuffer H0 Hroom;
    rewrite yuyv_loop_unfold; destruct (Z.ltb_spec i size) as [Hlt | Hge]; try done.
  - assert (1 <= (size - i + 3) / 4) by (apply Z.div_le_lower_bound; lia). lia.
  - specialize (Hroom Hlt).
    assert (1 <= (size - i + 3) / 4) by (apply Z.div_le_lower_bound; lia).
    assert ((size - (i + 4) + 3) / 4 = (size - i + 3) / 4 - 1) as Hnext.
    { replace (size - (i + 4) + 3) with (size - i + 3 + (-1) * 4) by lia.
      rewrite Z.div_add by lia. lia. }
    destruct (load pptr i); [| done].
    destruct (load pptr (i + 1)); [| done].
    destruct (load pptr (i + 2)); [| done].
    destruct (load pptr (i + 3)); [| done].
    destruct (yuv2rgb_in_range z z0 z2 bigbuffer newi) as (m1 & -> & L1); [lia | lia |].
    destruct (yuv2rgb_in_range z1 z0 z2 m1 (newi + 3)) as (m2 & E2 & L2); [lia | lia |].
    replace (newi + 3 + 1) with (newi + 4) in E2 by lia.
    replace (newi + 3 + 2) with (newi + 5) in E2 by lia.
    rewrite E2.
    specialize (IH pptr size (i + 4) (newi + 6) m2).
    rewrite Hnext in IH.
    destruct (yuyv_loop fuel pptr size (i + 4) (newi + 6) m2).
    + rewrite IH; [congruence | lia | intros; rewrite L2, L1; lia].
    + done.
    + apply IH; [lia | intros; rewrite L2, L1; lia].
    + assert (Z.of_nat fuel < (size - i + 3) / 4 - 1); [| lia].
      apply IH; [lia | intros; rewrite L2, L1; lia].
Qed.

Lemma turns_left_le (size : Z) : 0 <= size -> turns_left size 0 <= size.
Proof.
  intros H. unfold turns_left. rewrite Z.sub_0_r.
  destruct (Z.eq_dec size 0) as [-> | Hne]; [done |].
  apply Z.div_le_upper_bound; lia.
Qed.

(** [yuyv_convert] never runs out of turns: the loop of [process_image]
    always ends. *)
Lemma yuyv_loop_fuel (fuel : nat) :
  forall (pptr : list Z) (size i newi : Z) (bigbuffer : list Z),
    size - i <= Z.of_nat fuel ->
    yuyv_loop fuel pptr size i newi bigbuffer <> OutOfFuel.
Proof.
  induction fuel as [| fuel IH]; intros pptr size i newi bigbuffer Hfuel;
    rewrite yuyv_loop_unfold; destruct (Z.ltb_spec i size); try done; [lia |].
  repeat case_match; try done. apply IH. lia.
Qed.

Lemma yuyv_convert_terminates (pptr : list Z) (size : Z) (bigbuffer : list Z) :
  yuyv_convert pptr size bigbuffer <> OutOfFuel.
Proof. apply yuyv_loop_fuel. lia. Qed.

Lemma bigbuffer0_length : Z.of_nat (length bigbuffer0) = BIGBUFFER_SIZE.
Proof.
  unfold bigbuffer0. rewrite length_replicate, Z2Nat.id; [done |].
  unfold BIGBUFFER_SIZE. lia.
Qed.

(** C1. Every YUYV422 quadruple (Y0, U, Y1, V) of a frame, wherever it
    stands, is turned into exactly two RGB24 pixels, six bytes at six
    times the quadruple's rank: the first from (Y0, U, V), the second
    from (Y1, U, V) with the same chroma pair, each channel by the
    integer formula of the design document clamped into [0, 255]. *)
Theorem yuyv_quadruple_gives_two_pixels
    (pre post rest bigbuffer : list Z) (Y0 U Y1 V : Z) (j k : nat) :
  length pre = (4 * j)%nat ->
  length post = (4 * k)%nat ->
  (6 * (j + 1 + k) <= length bigbuffer)%nat ->
  let frame := pre ++ [Y0; U; Y1; V] ++ post in
  exists out,
    yuyv_convert (frame ++ rest) (Z.of_nat (length frame)) bigbuffer = LoopDone out /\
    length out = length bigbuffer /\
    take 6 (drop (6 * j) out) =
      [spec_R Y0 U V; spec_G Y0 U V; spec_B Y0 U V;
       spec_R Y1 U V; spec_G Y1 U V; spec_B Y1 U V] /\
    Forall is_byte (take 6 (drop (6 * j) out)).
Proof.
  intros Hpre Hpost Hb frame.
  assert (length frame = (4 * (j + 1 + k))%nat) as Hframe.
  { unfold frame. rewrite !length_app. cbn [length]. lia. }
  exists (spec_yuyv_to_rgb frame ++ drop (6 * (j + 1 + k)) bigbuffer).
  split; [by apply yuyv_convert_spec |].
  assert (take 6 (drop (6 * j)
            (spec_yuyv_to_rgb frame ++ drop (6 * (j + 1 + k)) bigbuffer)) =
          [spec_R Y0 U V; spec_G Y0 U V; spec_B Y0 U V;
           spec_R Y1 U V; spec_G Y1 U V; spec_B Y1 U V]) as Hsix.
  { unfold frame. rewrite (spec_yuyv_to_rgb_app j) by done.
    rewrite <- app_assoc.
    rewrite drop_app_length' by (symmetry; by apply spec_yuyv_to_rgb_length).
    cbn [app spec_yuyv_to_rgb spec_pixel]. reflexivity. }
  split; [| split; [exact Hsix |]].
  - rewrite length_app, (spec_yuyv_to_rgb_length (j + 1 + k)), length_drop by done. lia.
  - rewrite Hsix. unfold spec_R, spec_G, spec_B.
    repeat constructor; apply clamp_0_255_range.
Qed.

Lemma yuyv_quadruple_gives_two_pixels_witness :
  exists out,
    yuyv_convert ([16; 128; 235; 128] ++ []) 4 [7; 7; 7; 7; 7; 7] = LoopDone out /\
    length out = 6%nat /\
    take 6 (drop 0 out) =
      [spec_R 16 128 128; spec_G 16 128 128; spec_B 16 128 128;
       spec_R 235 128 128; spec_G 235 128 128; spec_B 235 128 128] /\
    Forall is_byte (take 6 (drop 0 out)).
Proof.
  apply (yuyv_quadruple_gives_two_pixels [] [] [] [7; 7; 7; 7; 7; 7] 16 128 235 128 0 0);
    [reflexivity | reflexivity | simpl; lia].
Defined.

(** C10. A frame of at most 819200 bytes (the scratch area's size times
    4/6) never makes the conversion loop write outside the 1280*960 byte
    scratch area, whatever the number of turns: every store at [newi] to
    [newi + 5] is in range, the loop ends and leaves the area's size as
    it was. The forced 320x240 geometry, 153600 bytes, is below that
    bound. *)
Theorem conversion_stays_in_bigbuffer (pptr bigbuffer : list Z) (size : Z) :
  Z.of_nat (length bigbuffer) = BIGBUFFER_SIZE ->
  size <= 819200 ->
  (forall fuel, yuyv_loop fuel pptr size 0 0 bigbuffer <> WriteFault) /\
  yuyv_convert pptr size bigbuffer <> OutOfFuel /\
  (forall out, yuyv_convert pptr size bigbuffer = LoopDone out ->
               Z.of_nat (length out) = BIGBUFFER_SIZE) /\
  MAX_FRAME_BYTES = 819200 /\
  HRES * VRES * 2 = 153600 /\ 153600 <= MAX_FRAME_BYTES.
Proof.
  intros Hlen Hsize.
  assert (forall fuel,
    match yuyv_loop fuel pptr size 0 0 bigbuffer with
    | LoopDone out => length out = length bigbuffer
    | ReadFault => True
    | WriteFault => False
    | OutOfFuel => Z.of_nat fuel < turns_left size 0
    end) as Hsafe.
  { intros fuel. apply yuyv_loop_safe; [lia |]. intros Hpos.
    rewrite Hlen. unfold turns_left, BIGBUFFER_SIZE. rewrite Z.sub_0_r.
    assert ((size + 3) / 4 < 204801); [| lia].
    apply Z.div_lt_upper_bound; lia. }
  repeat split.
  - intros fuel E. specialize (Hsafe fuel). by rewrite E in Hsafe.
  - unfold yuyv_convert. intros E. specialize (Hsafe (Z.to_nat size)).
    rewrite E in Hsafe.
    destruct (Z.le_gt_cases 0 size) as [Hpos | Hneg].
    + pose proof (turns_left_le size Hpos). lia.
    + unfold turns_left in Hsafe. rewrite Z.sub_0_r in Hsafe.
      assert ((size + 3) / 4 < 1); [| lia].
      apply Z.div_lt_upper_bound; lia.
  - unfold yuyv_convert. intros out E. specialize (Hsafe (Z.to_nat size)).
    rewrite E in Hsafe. by rewrite Hsafe.
  - by compute.
Qed.

Lemma conversion_stays_in_bigbuffer_witness :
  (forall fuel, yuyv_loop fuel [16; 128; 235; 128] 4 0 0 bigbuffer0 <> WriteFault) /\
  yuyv_convert [16; 128; 235; 128] 4 bigbuffer0 <> OutOfFuel /\
  (forall out, yuyv_convert [16; 128; 235; 128] 4 bigbuffer0 = LoopDone out ->
               Z.of_nat (length out) = BIGBUFFER_SIZE) /\
  MAX_FRAME_BYTES = 819200 /\
  HRES * VRES * 2 = 153600 /\ 153600 <= MAX_FRAME_BYTES.
Proof.
  apply (conversion_stays_in_bigbuffer [16; 128; 235; 128] bigbuffer0 4);
    [apply bigbuffer0_length | lia].
Defined.

(** ** Format negotiation *)

Lemma paranoia_geometry (f : v4l2_pix_format) :
  width (paranoia f) = width f /\ height (paranoia f) = height f /\
  pixelformat (paranoia f) = pixelformat f.
Proof. done. Qed.

(** The corrections only ever raise the two fields, and they compare
    against the products as [unsigned int] computes them. *)
Lemma paranoia_mod (f : v4l2_pix_format) :
  bytesperline f <= bytesperline (paranoia f) /\
  sizeimage f <= sizeimage (paranoia f) /\
  to_uint (width f * 2) <= bytesperline (paranoia f) /\
  to_uint (bytesperline (paranoia f) * height f) <= sizeimage (paranoia f).
Proof.
  unfold paranoia. cbn [bytesperline sizeimage].
  set (min1 := to_uint (width f * 2)).
  destruct (Z.ltb_spec (bytesperline f) min1);
    match goal with
    | |- context [to_uint (?b * height f)] =>
        set (min2 := to_uint (b * height f));
        destruct (Z.ltb_spec (sizeimage f) min2); lia
    end.
Qed.

Lemma to_uint_small (x : Z) : is_uint x -> to_uint x = x.
Proof. unfold is_uint, to_uint. intros H. by apply Z.mod_small. Qed.

Lemma init_mmap_fmt (dev : device) (st : state) :
  fmt (state_of (init_mmap dev st)) = fmt st.
Proof.
  unfold init_mmap.
  destruct (dev_reqbufs dev 6) as [[r errno] count].
  repeat case_match; reflexivity.
Qed.

Lemma init_device_fmt (dev : device) (st st' : state) :
  init_device dev st = Ret tt st' ->
  fmt st' = paranoia (negotiate dev (force_format st)).
Proof.
  unfold init_device.
  destruct (dev_querycap dev) as [[r errno] capabilities].
  repeat case_match; try discriminate.
  intros E.
  pose proof (init_mmap_fmt dev
    (set_fmt (paranoia (negotiate dev (force_format st))) st)) as Hf.
  rewrite E in Hf. exact Hf.
Qed.

(** C3, as the code has it. After [init_device] has negotiated the
    format, [bytesperline >= 2 * width] holds when [2 * width] fits in 32
    bits, and [sizeimage >= bytesperline * height] holds when that
    product fits in 32 bits, whatever stride and size the driver
    reported; in general the two fields are at least the products reduced
    modulo [2^32], which is what the code compares against. *)
Theorem negotiated_format_clamped (dev : device) (st st' : state) :
  init_device dev st = Ret tt st' ->
  pix_uint (negotiate dev (force_format st)) ->
  (2 * width (fmt st') < 2 ^ 32 -> bytesperline (fmt st') >= 2 * width (fmt st')) /\
  (bytesperline (fmt st') * height (fmt st') < 2 ^ 32 ->
   sizeimage (fmt st') >= bytesperline (fmt st') * height (fmt st')) /\
  bytesperline (fmt st') >= to_uint (2 * width (fmt st')) /\
  sizeimage (fmt st') >= to_uint (bytesperline (fmt st') * height (fmt st')).
Proof.
  intros Hinit (Hw & Hh & Hb & Hs).
  rewrite (init_device_fmt _ _ _ Hinit).
  set (g := negotiate dev (force_format st)) in *.
  destruct (paranoia_geometry g) as (-> & -> & _).
  destruct (paranoia_mod g) as (Hb1 & Hs1 & Hb2 & Hs2).
  replace (2 * width g) with (width g * 2) by lia.
  unfold is_uint in *.
  repeat split.
  - intros Hfit. rewrite to_uint_small in Hb2 by (unfold is_uint; lia). lia.
  - intros Hfit. rewrite to_uint_small in Hs2 by (unfold is_uint; nia). lia.
  - lia.
  - lia.
Qed.

Lemma negotiated_format_clamped_witness :
  let st' := state_of (init_device sim_device (initial_state ∅)) in
  (2 * width (fmt st') < 2 ^ 32 -> bytesperline (fmt st') >= 2 * width (fmt st')) /\
  (bytesperline (fmt st') * height (fmt st') < 2 ^ 32 ->
   sizeimage (fmt st') >= bytesperline (fmt st') * height (fmt st')) /\
  bytesperline (fmt st') >= to_uint (2 * width (fmt st')) /\
  sizeimage (fmt st') >= to_uint (bytesperline (fmt st') * height (fmt st')).
Proof.
  apply (negotiated_format_clamped sim_device (initial_state ∅)).
  - reflexivity.
  - unfold pix_uint, is_uint. cbn. unfold HRES, VRES. lia.
Defined.

(** C3 as worded fails: the forced 320x240 format with a reported stride
    of [2^31] bytes. [2^31 * 240] is 0 modulo [2^32], so a reported image
    size of 0 is left alone. *)
Lemma forced_format_clamp_wraps :
  let st' := state_of (init_device misreporting_device (initial_state ∅)) in
  init_device misreporting_device (initial_state ∅) = Ret tt st' /\
  pix_uint (negotiate misreporting_device (force_format (initial_state ∅))) /\
  width (fmt st') = 320 /\ height (fmt st') = 240 /\
  bytesperline (fmt st') = 2 ^ 31 /\ sizeimage (fmt st') = 0 /\
  ~ (bytesperline (fmt st') >= 2 * width (fmt st') /\
     sizeimage (fmt st') >= bytesperline (fmt st') * height (fmt st')).
Proof.
  cbv zeta.
  set (st' := state_of (init_device misreporting_device (initial_state ∅))).
  assert (width (fmt st') = 320) as Hw by reflexivity.
  assert (height (fmt st') = 240) as Hh by reflexivity.
  assert (bytesperline (fmt st') = 2 ^ 31) as Hb by reflexivity.
  assert (sizeimage (fmt st') = 0) as Hs by reflexivity.
  split; [reflexivity |].
  split; [unfold pix_uint, is_uint; cbn; unfold HRES, VRES; lia |].
  repeat (split; [assumption |]).
  rewrite Hw, Hh, Hb, Hs. lia.
Qed.

(** ** Buffer pool *)

Lemma init_mmap_loop_unfold (fuel : nat) (dev : device) (count n_buffers : Z)
    (buffers : list buffer.t) :
  init_mmap_loop fuel dev count n_buffers buffers =
  if n_buffers <? count then
    match fuel with
    | O => (n_buffers, buffers)
    | S fuel =>
        let '(len, offset) := dev_querybuf dev n_buffers in
        let b := buffer.mk (dev_mmap dev len offset) len in
        init_mmap_loop fuel dev count (n_buffers + 1)
          (<[Z.to_nat n_buffers := b]> buffers)
    end
  else (n_buffers, buffers).
Proof. destruct fuel; reflexivity. Qed.

(** The loop leaves [n_buffers] at [req.count], whether or not the
    mappings succeeded. *)
Lemma init_mmap_loop_count (fuel : nat) :
  forall (dev : device) (count n : Z) (bufs : list buffer.t),
    n <= count -> count - n <= Z.of_nat fuel ->
    fst (init_mmap_loop fuel dev count n bufs) = count /\
    length (snd (init_mmap_loop fuel dev count n bufs)) = length bufs.
Proof.
  induction fuel as [| fuel IH]; intros dev count n bufs Hn Hfuel;
    rewrite init_mmap_loop_unfold; destruct (Z.ltb_spec n count); cbn [fst snd];
    try (split; [lia | done]).
  destruct (dev_querybuf dev n) as [len offset]. cbv zeta.
  destruct (IH dev count (n + 1)
              (<[Z.to_nat n := buffer.mk (dev_mmap dev len offset) len]> bufs))
    as [-> ->]; [lia | lia |].
  by rewrite length_insert.
Qed.

(** Fewer than two granted buffers end the process with a failure status. *)
Lemma init_mmap_insufficient (dev : device) (st : state) :
  snd (dev_reqbufs dev 6) < 2 ->
  exists st', init_mmap dev st = Exit EXIT_FAILURE st' /\ stderr st' <> stderr st.
Proof.
  unfold init_mmap. destruct (dev_reqbufs dev 6) as [[r errno] count]. cbn [snd].
  intros Hc. destruct ((r =? -1) && (errno =? EINVAL)).
  - eexists; split; [reflexivity |]. cbn. intros E.
    apply (f_equal (@length diag)) in E. rewrite length_app in E. cbn in E. lia.
  - destruct (Z.ltb_spec count 2); [| lia].
    eexists; split; [reflexivity |]. cbn. intros E.
    apply (f_equal (@length diag)) in E. rewrite length_app in E. cbn in E. lia.
Qed.

(** When [init_mmap] returns, the pool has one entry per granted buffer. *)
Lemma init_mmap_granted (dev : device) (st st' : state) :
  init_mmap dev st = Ret tt st' ->
  2 <= snd (dev_reqbufs dev 6) /\
  n_buffers st' = snd (dev_reqbufs dev 6) /\
  Z.of_nat (length (buffers st')) = snd (dev_reqbufs dev 6).
Proof.
  unfold init_mmap. destruct (dev_reqbufs dev 6) as [[r errno] count]. cbn [snd].
  destruct ((r =? -1) && (errno =? EINVAL)); [discriminate |].
  destruct (Z.ltb_spec count 2); [discriminate |].
  destruct (dev_calloc dev); [| discriminate]. cbn [negb].
  destruct (init_mmap_loop_count (Z.to_nat count) dev count 0
              (replicate (Z.to_nat count) (buffer.mk 0 0))) as [Hn Hl]; [lia | lia |].
  destruct (init_mmap_loop _ _ _ _ _) as [n bufs]. cbn [fst snd] in Hn, Hl.
  intros [= <-]. cbn. rewrite Hl, length_replicate. lia.
Qed.

(** C4 at the failing input: two buffers granted, the second [mmap]
    fails. Set-up returns normally and counts the failed mapping as a
    pool entry: two entries, one mapped buffer. A frame delivered in
    that entry is then read through [MAP_FAILED]. *)
Lemma init_mmap_counts_failed_mapping :
  returned (init_device unmappable_device (initial_state ∅)) = true /\
  n_buffers unmappable_ready = 2 /\
  buffers unmappable_ready =
    [buffer.mk 0x7f0000000000 153600; buffer.mk MAP_FAILED 153600] /\
  faulted unmappable_run = true.
Proof.
  split; [reflexivity |].
  split; [reflexivity |].
  split; [reflexivity |].
  by vm_compute.
Qed.

(** ** Capture loop: one turn at a time *)

Lemma capture_frame_interrupted (it : iteration) (rest : list event) (st : state) :
  select_interrupted it = true ->
  capture_frame (Iter it :: rest) st = capture_frame rest st.
Proof.
  unfold select_interrupted. cbn [capture_frame].
  destruct (it_select it) as [r errno]. cbn [fst snd]. by intros ->.
Qed.

Lemma read_frame_not_ready (it : iteration) (st : state) :
  dqbuf_not_ready it = true -> read_frame it st = Ret 0 st.
Proof.
  unfold dqbuf_not_ready, read_frame.
  destruct (xioctl (it_dqbuf it)) as [[r errno] |]; [| discriminate]. by intros ->.
Qed.

Lemma capture_frame_not_ready (it : iteration) (rest : list event) (st : state) :
  select_ready it = true -> dqbuf_not_ready it = true ->
  capture_frame (Iter it :: rest) st = capture_frame rest st.
Proof.
  unfold select_ready. intros Hready Hdq. cbn [capture_frame].
  rewrite (read_frame_not_ready it st Hdq).
  destruct (it_select it) as [r errno]. cbn [fst] in Hready.
  apply Z.ltb_lt in Hready.
  destruct (Z.eqb_spec r (-1)); [lia |].
  destruct (Z.eqb_spec r 0); [lia |]. reflexivity.
Qed.

Lemma capture_frame_timeout (it : iteration) (rest : list event) (st : state) :
  select_timeout it = true ->
  capture_frame (Iter it :: rest) st =
  Exit EXIT_FAILURE (eprint (Msg ("select timeout" +:+ LF)) st).
Proof.
  unfold select_timeout. cbn [capture_frame].
  destruct (it_select it) as [r errno]. cbn [fst].
  intros ->%Z.eqb_eq. reflexivity.
Qed.

Lemma capture_frame_skips (pre rest : list event) (st : state) :
  Forall (fun e => transient e = true) pre ->
  capture_frame (pre ++ rest) st = capture_frame rest st.
Proof.
  induction 1 as [| e pre He _ IH]; [done |].
  destruct e as [signal | it]; [discriminate |].
  cbn [app]. cbn [transient] in He.
  apply orb_true_iff in He as [Hint | [Hready Hdq]%andb_true_iff].
  - by rewrite capture_frame_interrupted.
  - by rewrite capture_frame_not_ready.
Qed.

(** C5. Transient conditions are not surfaced: a run of turns in which
    the wait was interrupted ([EINTR]) or the dequeue answered
    [EAGAIN] or [EIO] leaves the program state as it was and the loop at
    its next wait, with no exit; the dequeue of such a turn reports no
    frame ([read_frame] returns 0). *)
Theorem transient_conditions_are_retried (pre rest : list event) (st : state) :
  Forall (fun e => transient e = true) pre ->
  capture_frame (pre ++ rest) st = capture_frame rest st /\
  (forall it, In (Iter it) pre -> select_interrupted it = false ->
              read_frame it st = Ret 0 st).
Proof.
  intros Hpre. split; [by apply capture_frame_skips |].
  intros it Hin Hnot. rewrite Forall_forall in Hpre.
  apply list_elem_of_In in Hin. specialize (Hpre _ Hin). cbn [transient] in Hpre.
  rewrite Hnot in Hpre. cbn [orb] in Hpre.
  apply andb_true_iff in Hpre as [_ Hdq]. by apply read_frame_not_ready.
Qed.

Lemma transient_conditions_are_retried_witness :
  capture_frame ([Iter it_eintr; Iter it_eagain; Iter it_eio] ++ [Iter it_timeout])
    (initial_state ∅)
  = capture_frame [Iter it_timeout] (initial_state ∅) /\
  (forall it, In (Iter it) [Iter it_eintr; Iter it_eagain; Iter it_eio] ->
              select_interrupted it = false ->
              read_frame it (initial_state ∅) = Ret 0 (initial_state ∅)).
Proof.
  apply (transient_conditions_are_retried
           [Iter it_eintr; Iter it_eagain; Iter it_eio] [Iter it_timeout]
           (initial_state ∅)).
  repeat constructor.
Defined.

(** ** Set-up leaves the disk alone *)

Lemma snoc_neq {A : Type} (l : list A) (x : A) : l ++ [x] <> l.
Proof.
  intros E. apply (f_equal (@length A)) in E.
  rewrite length_app in E. cbn [length] in E. lia.
Qed.

Lemma open_device_outcome (dev : device) (st : state) :
  setup_outcome st (open_device dev st).
Proof.
  unfold open_device. destruct (dev_stat dev) as [r is_chr].
  repeat case_match; cbn; repeat split; try done; apply snoc_neq.
Qed.

Lemma init_mmap_outcome (dev : device) (st : state) :
  setup_outcome st (init_mmap dev st).
Proof.
  unfold init_mmap. destruct (dev_reqbufs dev 6) as [[r errno] count].
  repeat case_match; cbn; repeat split; try done; apply snoc_neq.
Qed.

Lemma init_device_outcome (dev : device) (st : state) :
  setup_outcome st (init_device dev st).
Proof.
  unfold init_device. destruct (dev_querycap dev) as [[r errno] capabilities].
  repeat case_match; try (cbn; repeat split; try done; apply snoc_neq).
  apply (init_mmap_outcome dev
           (set_fmt (paranoia (negotiate dev (force_format st))) st)).
Qed.

(** [camera_capture] with its sequence of calls spelled out. *)
Lemma camera_capture_unfold (dev : device) (script : list event) (st : state) :
  camera_capture dev script st =
  match open_device dev st with
  | Ret _ st1 =>
      match init_device dev st1 with
      | Ret _ st2 =>
          match capture_frame script st2 with
          | Ret _ st3 =>
              Ret 0 (eprint (Msg LF)
                       (set_fd (-1) (set_buffers [] (set_is_capture false st3))))
          | Exit code st3 => Exit code st3
          | AssertFail st3 => AssertFail st3
          | Fault st3 => Fault st3
          | Pending st3 => Pending st3
          end
      | Exit code st2 => Exit code st2
      | AssertFail st2 => AssertFail st2
      | Fault st2 => Fault st2
      | Pending st2 => Pending st2
      end
  | Exit code st1 => Exit code st1
  | AssertFail st1 => AssertFail st1
  | Fault st1 => Fault st1
  | Pending st1 => Pending st1
  end.
Proof.
  unfold camera_capture, mbind, prog_mbind, prog_bind.
  destruct (open_device dev st); [| reflexivity ..].
  destruct (init_device dev st0); reflexivity.
Qed.

(** A wait that comes back with no ready descriptor ends the process in
    whatever state the loop is: [capture_frame] leaves with
    [EXIT_FAILURE], which is not 0, after the diagnostic "select
    timeout", and the turn itself changes nothing but [stderr]. When
    nothing but transient conditions came before, the whole session ends
    with [EXIT_FAILURE] and leaves the files and the frame counter as it
    found them: no output file is produced. *)
Lemma select_timeout_is_fatal
    (dev : device) (pre rest : list event) (it : iteration) (st : state) :
  Forall (fun e => transient e = true) pre ->
  select_timeout it = true ->
  EXIT_FAILURE <> 0 /\
  (forall s : state,
     capture_frame (Iter it :: rest) s =
       Exit EXIT_FAILURE (eprint (Msg ("select timeout" +:+ LF)) s)) /\
  capture_frame (pre ++ Iter it :: rest) st =
    Exit EXIT_FAILURE (eprint (Msg ("select timeout" +:+ LF)) st) /\
  exists st',
    camera_capture dev (pre ++ Iter it :: rest) st = Exit EXIT_FAILURE st' /\
    files st' = files st /\ framecnt st' = framecnt st /\ stderr st' <> stderr st.
Proof.
  intros Hpre Htimeout.
  assert (forall s, capture_frame (pre ++ Iter it :: rest) s =
                    Exit EXIT_FAILURE (eprint (Msg ("select timeout" +:+ LF)) s)) as Hloop.
  { intros s. rewrite capture_frame_skips by done. by apply capture_frame_timeout. }
  split; [done |].
  split; [intros s; by apply capture_frame_timeout |].
  split; [apply Hloop |].
  rewrite camera_capture_unfold.
  pose proof (open_device_outcome dev st) as H1.
  destruct (open_device dev st) as [[] st1 | code st1 | | |]; cbn in H1; try done.
  - destruct H1 as (Hf1 & Hc1 & He1).
    pose proof (init_device_outcome dev st1) as H2.
    destruct (init_device dev st1) as [[] st2 | code st2 | | |]; cbn in H2; try done.
    + destruct H2 as (Hf2 & Hc2 & He2). rewrite Hloop.
      eexists; split; [reflexivity |]. cbn.
      repeat split; [congruence | congruence |].
      rewrite He2, He1. apply snoc_neq.
    + destruct H2 as (-> & Hf2 & Hc2 & He2).
      eexists; split; [reflexivity |]. repeat split; congruence.
  - destruct H1 as (-> & Hf1 & Hc1 & He1).
    eexists; split; [reflexivity |]. done.
Qed.

(** C6 at the failing input: a frame is delivered and written, then
    [nanosleep] is interrupted. [break] stands after the [if]/[else] of
    the [nanosleep] test, but the [printf] of the [else] branch is
    commented out, so [break] is that branch: the loop is not left, it
    waits again, and this wait times out. The session ends with
    [EXIT_FAILURE] after "select timeout", one frame is counted, and the
    invocation has produced the output file [frames/test00000001.ppm]
    all the same. *)
Lemma timeout_after_a_frame_leaves_its_file :
  select_timeout it_timeout = true /\
  exit_code timeout_after_frame_run = Some EXIT_FAILURE /\
  last (stderr (state_of timeout_after_frame_run)) =
    Some (Msg ("select timeout" +:+ LF)) /\
  framecnt (state_of timeout_after_frame_run) = 1 /\
  files (initial_state ∅) !! "frames/test00000001.ppm" = None /\
  files (state_of timeout_after_frame_run) !! "frames/test00000001.ppm" =
    Some (bytes_of_string (spec_ppm_header 1700000000 123) ++ [0; 0; 0; 255; 255; 255]).
Proof.
  split; [reflexivity |].
  split; [by vm_compute |].
  split; [by vm_compute |].
  split; [by vm_compute |].
  split; [reflexivity |].
  by vm_compute.
Qed.

(** ** The stop flag *)

Lemma dump_ppm_flag (io : frame_io) (p : list Z) (size tag : Z) (time : timespec)
    (st : state) (b : bool) :
  dump_ppm io p size tag time (set_is_capture b st) =
  outcome_map (set_is_capture b) (dump_ppm io p size tag time st).
Proof.
  unfold dump_ppm.
  change (ppm_dumpname (set_is_capture b st)) with (ppm_dumpname st).
  destruct (dump_ppm_name (ppm_dumpname st) tag) as [name |]; [| reflexivity].
  change (files (set_ppm_dumpname name (set_is_capture b st)))
    with (files (set_ppm_dumpname name st)).
  set (opened := sys_open (c_string name) (io_open io) (files (set_ppm_dumpname name st))).
  cbv zeta.
  change (ppm_header (set_files (fst opened) (set_ppm_dumpname name (set_is_capture b st))))
    with (ppm_header (set_files (fst opened) (set_ppm_dumpname name st))).
  destruct (dump_ppm_stamp _ time) as [header |]; [| reflexivity].
  destruct ((0 <=? size) && (size <=? Z.of_nat (length p))); [| reflexivity].
  change (files (set_ppm_header header
            (set_files (fst opened) (set_ppm_dumpname name (set_is_capture b st)))))
    with (files (set_ppm_header header
            (set_files (fst opened) (set_ppm_dumpname name st)))).
  destruct (dump_ppm_write _ _ _ _ _ _); reflexivity.
Qed.

Lemma process_image_flag (io : frame_io) (p : list Z) (size : Z) (st : state) (b : bool) :
  process_image io p size (set_is_capture b st) =
  outcome_map (set_is_capture b) (process_image io p size st).
Proof.
  unfold process_image.
  change (set_framecnt (to_uint (framecnt (set_is_capture b st) + 1)) (set_is_capture b st))
    with (set_is_capture b (set_framecnt (to_uint (framecnt st + 1)) st)).
  set (st1 := set_framecnt (to_uint (framecnt st + 1)) st).
  change (pixelformat (fmt (set_is_capture b st1))) with (pixelformat (fmt st1)).
  change (bigbuffer (set_is_capture b st1)) with (bigbuffer st1).
  destruct (pixelformat (fmt st1) =? V4L2_PIX_FMT_YUYV); [| reflexivity].
  destruct (yuyv_convert p size (bigbuffer st1)); try reflexivity.
  apply (dump_ppm_flag io _ _ _ _ (set_bigbuffer bigbuffer1 st1) b).
Qed.

Lemma read_frame_flag (it : iteration) (st : state) (b : bool) :
  read_frame it (set_is_capture b st) = outcome_map (set_is_capture b) (read_frame it st).
Proof.
  unfold read_frame. destruct (xioctl (it_dqbuf it)) as [[r errno] |]; [| reflexivity].
  change (n_buffers (set_is_capture b st)) with (n_buffers st).
  change (buffers (set_is_capture b st)) with (buffers st).
  repeat case_match; try reflexivity.
  all: unfold mbind, prog_mbind, prog_bind; rewrite process_image_flag.
  all: destruct (process_image _ _ _ st); reflexivity.
Qed.

Lemma signalHandler_cases (signal : Z) (st : state) :
  signalHandler signal st = set_is_capture false st \/ signalHandler signal st = st.
Proof. unfold signalHandler. repeat case_match; auto. Qed.

Lemma ignoring_flag_set {A : Type} (o : outcome A) (b : bool) :
  ignoring_flag (outcome_map (set_is_capture b) o) = ignoring_flag o.
Proof. by destruct o. Qed.


Lemma dump_ppm_no_exit (io : frame_io) (p : list Z) (size tag : Z) (time : timespec)
    (st : state) : exit_code (dump_ppm io p size tag time st) = None.
Proof. unfold dump_ppm. repeat case_match; reflexivity. Qed.

Lemma process_image_no_exit (io : frame_io) (p : list Z) (size : Z) (st : state) :
  exit_code (process_image io p size st) = None.
Proof.
  unfold process_image. repeat case_match; try reflexivity. apply dump_ppm_no_exit.
Qed.

Lemma read_frame_no_exit (it : iteration) (st : state) :
  exit_code (read_frame it st) = None.
Proof.
  unfold read_frame. repeat case_match; try reflexivity.
  all: unfold mbind, prog_mbind, prog_bind;
    match goal with |- context [process_image ?io ?p ?size ?s] =>
      pose proof (process_image_no_exit io p size s) as Hno;
      by destruct (process_image io p size s)
    end.
Qed.

Lemma read_frame_returns_0_or_1 (it : iteration) (st st1 : state) (got : Z) :
  read_frame it st = Ret got st1 -> got = 0 \/ got = 1.
Proof.
  unfold read_frame.
  destruct (xioctl (it_dqbuf it)) as [[r errno] |]; [| discriminate].
  destruct ((r =? -1) && ((errno =? EAGAIN) || (errno =? EIO)));
    [intros [= <- _]; by left |].
  destruct (it_index it <? n_buffers st); [| discriminate].
  destruct (buffers st !! Z.to_nat (it_index it)) as [b |]; [| discriminate].
  unfold mbind, prog_mbind, prog_bind.
  destruct (process_image _ _ _ st); try discriminate. intros [= <- _]. by right.
Qed.




(** ** [printf]'s zero-padded decimals *)

Lemma digit_char_not_nul (d : Z) : 0 <= d <= 9 -> not_nul (digit_char d).
Proof.
  intros H. unfold not_nul.
  assert (d = 0 \/ d = 1 \/ d = 2 \/ d = 3 \/ d = 4 \/
          d = 5 \/ d = 6 \/ d = 7 \/ d = 8 \/ d = 9) as Hd by lia.
  repeat (destruct Hd as [-> | Hd]; [reflexivity |]). by subst.
Qed.

Lemma dec_digits_length (k : nat) (n : Z) : length (dec_digits k n) = k.
Proof. unfold dec_digits. by rewrite length_fmap, length_rev, length_seq. Qed.

Lemma dec_digits_not_nul (k : nat) (n : Z) : Forall not_nul (dec_digits k n).
Proof.
  unfold dec_digits. apply Forall_fmap, Forall_forall. intros j _. cbn.
  apply digit_char_not_nul.
  pose proof (Z.mod_pos_bound (n / 10 ^ Z.of_nat j) 10). lia.
Qed.

Lemma fmt_0d_length (w : nat) (x : Z) : (w <= length (fmt_0d w x))%nat.
Proof.
  unfold fmt_0d. destruct (x <? 0); cbn [length]; rewrite dec_digits_length; lia.
Qed.

Lemma fmt_0d_not_nul (w : nat) (x : Z) : Forall not_nul (fmt_0d w x).
Proof.
  unfold fmt_0d. destruct (x <? 0); [constructor; [reflexivity |] |];
    apply dec_digits_not_nul.
Qed.

Lemma ndigits_le (fuel : nat) :
  forall (k : nat) (n : Z), 0 <= n < 10 ^ Z.of_nat (S k) -> (ndigits fuel n <= S k)%nat.
Proof.
  induction fuel as [| fuel IH]; intros k n Hn; cbn [ndigits]; [lia |].
  destruct (Z.ltb_spec n 10); [lia |].
  destruct k as [| k]; [change (10 ^ Z.of_nat 1) with 10 in Hn; lia |].
  apply le_n_S, IH. split; [apply Z.div_pos; lia |].
  apply Z.div_lt_upper_bound; [lia |].
  replace (Z.of_nat (S (S k))) with (Z.succ (Z.of_nat (S k))) in Hn by lia.
  rewrite Z.pow_succ_r in Hn by lia. lia.
Qed.

(** A non-negative [int] below [10^w] prints as its [w] digits. *)
Lemma fmt_0d_small (w : nat) (x : Z) :
  0 <= x < 10 ^ Z.of_nat (S w) -> x <= INT_MAX ->
  fmt_0d (S w) (to_int x) = dec_digits (S w) x.
Proof.
  intros Hx Hmax. unfold INT_MAX in Hmax.
  assert (to_int x = x) as ->.
  { unfold to_int. rewrite Z.mod_small; lia. }
  unfold fmt_0d. destruct (Z.ltb_spec x 0); [lia |].
  pose proof (ndigits_le 9 w x Hx). by rewrite Nat.max_l.
Qed.

(** ** The two global [char] arrays *)

Lemma dump_ppm_name_ok (a : list ascii) (tag : Z) :
  length a = 24%nat ->
  dump_ppm_name a tag =
  Some (take 11 a ++ take 8 (fmt_0d 8 (to_int tag)) ++ chars ".ppm" ++ [NUL]).
Proof.
  intros Ha. unfold dump_ppm_name.
  pose proof (fmt_0d_length 8 (to_int tag)) as Hlen.
  pose proof (fmt_0d_not_nul 8 (to_int tag)) as Hnn.
  destruct (fmt_0d 8 (to_int tag))
    as [| d1 [| d2 [| d3 [| d4 [| d5 [| d6 [| d7 [| d8 ds]]]]]]]];
    cbn [length] in Hlen; try lia.
  do 8 (apply Forall_cons in Hnn as [? Hnn]).
  do 24 (destruct a as [| ? a]; [discriminate |]).
  destruct a; [| discriminate].
  unfold snprintf, strncat, poke, not_nul in *.
  cbn. rewrite take_0. cbn.
  repeat match goal with H : Ascii.eqb _ NUL = false |- _ => rewrite H; clear H end.
  reflexivity.
Qed.

Lemma dump_ppm_stamp_ok (h : list ascii) (time : timespec) :
  length h = 49%nat ->
  dump_ppm_stamp h time =
  Some (take 4 h ++ take 10 (fmt_0d 10 (to_int (tv_sec time))) ++ chars " sec " ++
        take 10 (fmt_0d 10 (to_int (Z.quot (tv_nsec time) 1000000))) ++
        chars (" msec " +:+ LF +:+ "320 240" +:+ LF +:+ "255" +:+ LF) ++ [NUL]).
Proof.
  intros Hh. unfold dump_ppm_stamp.
  pose proof (fmt_0d_length 10 (to_int (tv_sec time))) as Hlen1.
  pose proof (fmt_0d_length 10 (to_int (Z.quot (tv_nsec time) 1000000))) as Hlen2.
  destruct (fmt_0d 10 (to_int (tv_sec time)))
    as [| s1 [| s2 [| s3 [| s4 [| s5 [| s6 [| s7 [| s8 [| s9 [| s10 ss]]]]]]]]]];
    cbn [length] in Hlen1; try lia.
  destruct (fmt_0d 10 (to_int (Z.quot (tv_nsec time) 1000000)))
    as [| m1 [| m2 [| m3 [| m4 [| m5 [| m6 [| m7 [| m8 [| m9 [| m10 ms]]]]]]]]]];
    cbn [length] in Hlen2; try lia.
  do 49 (destruct h as [| ? h]; [discriminate |]).
  destruct h; [| discriminate].
  unfold snprintf, strncat, strcat, poke.
  cbn. rewrite !take_0. reflexivity.
Qed.

Example zero_padded_frame_number : spec_ppm_name 1 = "frames/test00000001.ppm".
Proof. reflexivity. Qed.

Example spec_ppm_header_sample :
  spec_ppm_header 1700000000 123 =
  "P6" +:+ LF +:+ "#1700000000 sec 0000000123 msec " +:+ LF +:+
  "320 240" +:+ LF +:+ "255" +:+ LF.
Proof. reflexivity. Qed.

Lemma c_string_app_nul (cs rest : list ascii) :
  Forall not_nul cs -> c_string (cs ++ NUL :: rest) = string_of_list_ascii cs.
Proof.
  induction 1 as [| c cs Hc _ IH]; [reflexivity |].
  cbn [app c_string string_of_list_ascii]. unfold not_nul in Hc. by rewrite Hc, IH.
Qed.

Lemma string_of_list_ascii_app (l1 l2 : list ascii) :
  string_of_list_ascii (l1 ++ l2) = string_of_list_ascii l1 +:+ string_of_list_ascii l2.
Proof. induction l1 as [| c l1 IH]; [done |]. cbn. by rewrite IH. Qed.

(** While the counter is below [10^8] the name built in [ppm_dumpname]
    is the one of the design document. *)
Lemma dump_ppm_name_spec (a : list ascii) (tag : Z) :
  length a = 24%nat -> take 11 a = chars "frames/test" -> 0 <= tag < 10 ^ 8 ->
  exists name,
    dump_ppm_name a tag = Some name /\ length name = 24%nat /\
    take 11 name = chars "frames/test" /\
    c_string name = spec_ppm_name tag.
Proof.
  intros Ha Hpre Htag. eexists. split; [by apply dump_ppm_name_ok |].
  rewrite Hpre, (fmt_0d_small 7 tag) by (unfold INT_MAX; cbn; lia).
  rewrite firstn_all2 by (by rewrite dec_digits_length).
  split; [by rewrite !length_app, dec_digits_length |].
  split; [reflexivity |].
  replace (chars "frames/test" ++ dec_digits 8 tag ++ chars ".ppm" ++ [NUL])
    with ((chars "frames/test" ++ dec_digits 8 tag ++ chars ".ppm") ++ NUL :: [])
    by (by rewrite <- !app_assoc).
  rewrite c_string_app_nul.
  - unfold spec_ppm_name, zero_padded.
    by rewrite !string_of_list_ascii_app.
  - rewrite !Forall_app. repeat split;
      [by repeat constructor | apply dec_digits_not_nul | by repeat constructor].
Qed.

Lemma chars_app (a b : string) : chars (a +:+ b) = chars a ++ chars b.
Proof.
  unfold chars. induction a as [| c a IH]; [done |].
  simpl. by rewrite IH.
Qed.

(** With a time stamp that [int] and ten digits hold, the header built
    in [ppm_header] is the one of the design document. *)
Lemma dump_ppm_stamp_spec (h : list ascii) (time : timespec) :
  length h = 49%nat -> take 4 h = chars ("P6" +:+ LF +:+ "#") ->
  0 <= tv_sec time <= INT_MAX -> 0 <= tv_nsec time < 10 ^ 9 ->
  exists header,
    dump_ppm_stamp h time = Some header /\ length header = 49%nat /\
    take 4 header = chars ("P6" +:+ LF +:+ "#") /\
    take (length header - 1) header =
      chars (spec_ppm_header (tv_sec time) (tv_nsec time / 1000000)).
Proof.
  intros Hh Hpre Hsec Hnsec. eexists. split; [by apply dump_ppm_stamp_ok |].
  assert (0 <= tv_nsec time / 1000000 < 1000) as Hms.
  { split; [apply Z.div_pos; lia | apply Z.div_lt_upper_bound; lia]. }
  rewrite Z.quot_div_nonneg by lia.
  rewrite Hpre, (fmt_0d_small 9 (tv_sec time)), (fmt_0d_small 9 (tv_nsec time / 1000000));
    try (unfold INT_MAX in *; cbn; lia).
  rewrite !firstn_all2 by (by rewrite dec_digits_length).
  assert (forall l : list ascii, length (l ++ [NUL]) - 1 = length l)%nat as Hcut.
  { intros l. rewrite length_app. cbn. lia. }
  split; [by rewrite !length_app, !dec_digits_length |].
  split; [reflexivity |].
  rewrite !app_assoc, Hcut, take_app_length, <- !app_assoc.
  unfold spec_ppm_header, zero_padded, chars.
  rewrite <- (list_ascii_of_string_of_list_ascii (dec_digits 10 (tv_sec time))) at 1.
  rewrite <- (list_ascii_of_string_of_list_ascii
                (dec_digits 10 (tv_nsec time / 1000000))) at 1.
  generalize (string_of_list_ascii (dec_digits 10 (tv_sec time))) as s1.
  generalize (string_of_list_ascii (dec_digits 10 (tv_nsec time / 1000000))) as s2.
  intros s2 s1. fold (chars s1) (chars s2). by rewrite !chars_app.
Qed.

(** ** Writing the file *)

Lemma sys_write_full (fs : gmap string (list Z)) (name : string) (pos : nat)
    (data : list Z) :
  sys_write fs (Some (name, pos)) data (Z.of_nat (length data)) =
  (<[name := write_at (default [] (fs !! name)) pos data]> fs,
   Some (name, (pos + length data)%nat), Z.of_nat (length data)).
Proof.
  unfold sys_write.
  destruct (Z.ltb_spec (Z.of_nat (length data)) 0); [lia |].
  by rewrite Nat2Z.id, firstn_all.
Qed.

Lemma write_at_fresh (header pixels : list Z) :
  write_at (write_at [] 0 header) (length header) pixels = header ++ pixels.
Proof.
  unfold write_at. cbn [take drop app].
  rewrite drop_nil, app_nil_r, firstn_all.
  rewrite drop_ge by lia. by rewrite app_nil_r.
Qed.

(** Both writes take everything they are offered: the file holds the
    header, then the [size] bytes at [p]. *)
Lemma dump_ppm_write_full (fs : gmap string (list Z)) (name : string)
    (header : list ascii) (p : list Z) (size : Z) :
  0 <= size <= Z.of_nat (length p) ->
  dump_ppm_write [Z.of_nat (length header - 1); size] fs (Some (name, O)) header p size =
  Some (<[name := write_at
                    (write_at (default [] (fs !! name)) 0
                       (byte_of_char <$> take (length header - 1) header))
                    (length header - 1) (take (Z.to_nat size) p)]> fs).
Proof.
  intros Hsize. unfold dump_ppm_write.
  set (hbytes := byte_of_char <$> take (length header - 1) header).
  assert (length hbytes = (length header - 1)%nat) as Hhb.
  { unfold hbytes. rewrite length_fmap, length_take. lia. }
  rewrite <- Hhb at 1. rewrite sys_write_full. cbn [dump_ppm_loop].
  set (pixels := take (Z.to_nat size) p).
  assert (Z.of_nat (length pixels) = size) as Hpx.
  { unfold pixels. rewrite length_take. lia. }
  rewrite <- Hpx at 1. rewrite sys_write_full.
  rewrite lookup_insert_eq, insert_insert_eq. cbn [default].
  rewrite Hpx, Z.add_0_l, Z.ltb_irrefl. by rewrite Hhb.
Qed.

Lemma quot_six_quarters (k : nat) : Z.quot (Z.of_nat (4 * k) * 6) 4 = Z.of_nat (6 * k).
Proof.
  replace (Z.of_nat (4 * k) * 6) with (Z.of_nat (6 * k) * 4) by lia.
  apply Z.quot_mul. lia.
Qed.

(** A YUYV frame of [k] quadruples, the dump file opens afresh, both
    writes complete: the file holds the header and the converted frame. *)
Lemma process_image_full (io : frame_io) (frame : list Z) (k : nat) (st : state)
    (name header : list ascii) :
  pixelformat (fmt st) = V4L2_PIX_FMT_YUYV ->
  length frame = (4 * k)%nat ->
  (6 * k <= length (bigbuffer st))%nat ->
  dump_ppm_name (ppm_dumpname st) (to_uint (framecnt st + 1)) = Some name ->
  dump_ppm_stamp (ppm_header st) (io_clock io) = Some header ->
  io_open io = true ->
  io_write io = [Z.of_nat (length header - 1); Z.of_nat (6 * k)] ->
  files st !! c_string name = None ->
  exists st',
    process_image io frame (Z.of_nat (length frame)) st = Ret tt st' /\
    files st' =
      <[c_string name :=
          (byte_of_char <$> take (length header - 1) header) ++ spec_yuyv_to_rgb frame]>
        (files st) /\
    framecnt st' = to_uint (framecnt st + 1) /\
    stderr st' = stderr st /\ is_capture st' = is_capture st.
Proof.
  intros Hfmt Hframe Hroom Hname Hheader Hopen Hwrite Hfresh.
  unfold process_image. simpl_state. rewrite Hfmt, Z.eqb_refl.
  pose proof (yuyv_convert_spec k frame [] (bigbuffer st) Hframe Hroom) as Hconv.
  rewrite app_nil_r in Hconv. rewrite Hconv.
  rewrite Hframe, quot_six_quarters.
  unfold dump_ppm. simpl_state. rewrite Hname, Hheader, Hopen, Hwrite.
  unfold sys_open. cbn [fst snd]. rewrite Hfresh. cbn [default].
  pose proof (spec_yuyv_to_rgb_length k frame Hframe) as Hpx.
  destruct (Z.leb_spec 0 (Z.of_nat (6 * k))); [| lia].
  destruct (Z.leb_spec (Z.of_nat (6 * k))
              (Z.of_nat (length (spec_yuyv_to_rgb frame ++ drop (6 * k) (bigbuffer st)))));
    [| rewrite length_app in *; lia].
  cbn [andb].
  rewrite dump_ppm_write_full by lia.
  rewrite lookup_insert_eq, insert_insert_eq. cbn [default].
  rewrite Nat2Z.id, take_app_length' by done.
  eexists. split; [reflexivity |]. simpl_state.
  split; [| done].
  f_equal.
  rewrite <- (write_at_fresh (byte_of_char <$> take (length header - 1) header)).
  by rewrite length_fmap, length_take, Nat.min_l by lia.
Qed.

(** ** The pool after set-up *)

Lemma init_mmap_loop_keeps (fuel : nat) :
  forall (dev : device) (count n : Z) (bufs : list buffer.t) (j : nat),
    0 <= n -> (j < Z.to_nat n)%nat ->
    snd (init_mmap_loop fuel dev count n bufs) !! j = bufs !! j.
Proof.
  induction fuel as [| fuel IH]; intros dev count n bufs j Hn Hj;
    rewrite init_mmap_loop_unfold; destruct (n <? count); try reflexivity.
  destruct (dev_querybuf dev n) as [len offset]. cbv zeta.
  rewrite IH by lia. apply list_lookup_insert_ne. lia.
Qed.

Lemma init_mmap_loop_lookup (fuel : nat) :
  forall (dev : device) (count n : Z) (bufs : list buffer.t) (i : Z),
    0 <= n <= i -> i < count -> count - n <= Z.of_nat fuel ->
    (Z.to_nat count <= length bufs)%nat ->
    snd (init_mmap_loop fuel dev count n bufs) !! Z.to_nat i =
    Some (buffer.mk (dev_mmap dev (fst (dev_querybuf dev i)) (snd (dev_querybuf dev i)))
            (fst (dev_querybuf dev i))).
Proof.
  induction fuel as [| fuel IH]; intros dev count n bufs i Hn Hi Hfuel Hlen;
    rewrite init_mmap_loop_unfold; destruct (Z.ltb_spec n count); try lia.
  destruct (Z.eq_dec i n) as [-> | Hne].
  - destruct (dev_querybuf dev n) as [len offset]. cbv zeta. cbn [fst snd].
    rewrite init_mmap_loop_keeps by lia.
    apply list_lookup_insert_eq. lia.
  - destruct (dev_querybuf dev n) as [len offset] eqn:E. cbv zeta.
    apply IH; [lia | lia | lia |]. by rewrite length_insert.
Qed.

Lemma to_int_small (x : Z) : 0 <= x <= INT_MAX -> to_int x = x.
Proof. unfold INT_MAX, to_int. intros H. rewrite Z.mod_small; lia. Qed.


(** ** One turn that delivers a frame *)

Lemma capture_frame_full (index : Z) (frame : list Z) (time : timespec)
    (rest : list event) (st : state) (b : buffer.t) (k : nat)
    (name header : list ascii) :
  pixelformat (fmt st) = V4L2_PIX_FMT_YUYV ->
  index < n_buffers st ->
  buffers st !! Z.to_nat index = Some b -> buffer.start b <> MAP_FAILED ->
  length frame = (4 * k)%nat -> Z.of_nat (length frame) <= INT_MAX ->
  (6 * k <= length (bigbuffer st))%nat ->
  dump_ppm_name (ppm_dumpname st) (to_uint (framecnt st + 1)) = Some name ->
  dump_ppm_stamp (ppm_header st) time = Some header ->
  length header = 49%nat ->
  files st !! c_string name = None ->
  exists st',
    capture_frame (Iter (it_frame index frame time) :: rest) st = Ret rest st' /\
    files st' =
      <[c_string name :=
          (byte_of_char <$> take (length header - 1) header) ++ spec_yuyv_to_rgb frame]>
        (files st) /\
    framecnt st' = to_uint (framecnt st + 1) /\
    stderr st' = stderr st /\ is_capture st' = is_capture st.
Proof.
  intros Hfmt Hindex Hbuf Hmapped Hframe Hint Hroom Hname Hheader Hlen Hfresh.
  destruct (process_image_full
              (mk_frame_io time true [48; Z.of_nat (length frame) * 6 / 4])
              frame k st name header) as (st' & Hrun & Hfiles & Hcnt & Herr & Hflag);
    try done.
  { cbn [io_write]. rewrite Hlen, Hframe. repeat f_equal.
    replace (Z.of_nat (4 * k) * 6) with (Z.of_nat (6 * k) * 4) by lia.
    apply Z.div_mul. lia. }
  exists st'. split; [| done].
  cbn [capture_frame it_frame it_select it_nanosleep].
  change ((1 =? -1) && (0 =? EINTR)) with false.
  change (1 =? 0) with false. cbv iota.
  unfold read_frame. cbn [it_frame it_dqbuf it_index it_mem it_io it_bytesused xioctl].
  change ((0 =? -1) && (0 =? EINTR)) with false. cbv iota.
  change ((0 =? -1) && ((0 =? EAGAIN) || (0 =? EIO))) with false. cbv iota.
  destruct (Z.ltb_spec index (n_buffers st)); [| lia].
  rewrite Hbuf.
  destruct (Z.eqb_spec (buffer.start b) MAP_FAILED); [done |].
  rewrite to_int_small by lia.
  unfold mbind, prog_mbind, prog_bind. rewrite Hrun. reflexivity.
Qed.

Lemma write_at_over (header pixels old : list Z) :
  write_at (write_at old 0 header) (length header) pixels =
  header ++ pixels ++ drop (length header + length pixels) old.
Proof.
  unfold write_at. rewrite take_0. cbn [app Nat.add].
  rewrite take_app_length, drop_app_ge, drop_drop by lia.
  do 3 f_equal. lia.
Qed.







(** ** Short and failing writes *)

(** C7 at the failing input: the frame is the six bytes 0 0 0 255 255 255;
    the first pixel write takes four of them, the loop writes again from
    the first byte, and the file ends up with ten pixel bytes
    0 0 0 255 0 0 0 255 255 255 after the header. *)
Lemma short_write_restarts_at_first_byte :
  returned short_write_run = true /\
  spec_yuyv_to_rgb sample_frame = [0; 0; 0; 255; 255; 255] /\
  files (state_of short_write_run) !! "frames/test00000001.ppm" =
    Some (bytes_of_string (spec_ppm_header 1700000000 123) ++
          [0; 0; 0; 255] ++ [0; 0; 0; 255; 255; 255]).
Proof.
  split; [by vm_compute |].
  split; [reflexivity |].
  by vm_compute.
Qed.

(** A write that keeps failing is not reported and not abandoned: it is
    asked again, with or without an open file, for as long as [total]
    can go down in [int]. *)
Lemma dump_ppm_loop_never_gives_up (answers : list Z) :
  forall (fs : gmap string (list Z)) (dumpfd : option (string * nat))
         (p : list Z) (size total : Z),
    Forall (fun answer => answer < 0) answers -> total <= size ->
    INT_MIN <= total - Z.of_nat (length answers) ->
    dump_ppm_loop answers fs dumpfd p size total = None.
Proof.
  induction answers as [| answer answers IH];
    intros fs dumpfd p size total Hall Htotal Hint; [reflexivity |].
  apply Forall_cons in Hall as [Hneg Hall]. cbn [dump_ppm_loop].
  assert (sys_write fs dumpfd (take (Z.to_nat size) p) answer = (fs, dumpfd, -1)) as ->.
  { unfold sys_write. destruct dumpfd as [[name pos] |]; [| done].
    by destruct (Z.ltb_spec answer 0); [| lia]. }
  destruct (Z.ltb_spec (total + -1) size); [| lia].
  apply IH; [done | lia | cbn [length] in Hint; lia].
Qed.

(** Without an open file every write fails, whatever the script says. *)
Lemma dump_ppm_loop_closed (answers : list Z) :
  forall (fs : gmap string (list Z)) (p : list Z) (size total : Z),
    total <= size -> INT_MIN <= total - Z.of_nat (length answers) ->
    dump_ppm_loop answers fs None p size total = None.
Proof.
  induction answers as [| answer answers IH]; intros fs p size total Htotal Hint;
    [reflexivity |].
  cbn [dump_ppm_loop sys_write].
  destruct (Z.ltb_spec (total + -1) size); [| lia].
  apply IH; [lia | cbn [length] in Hint; lia].
Qed.

(** Without an open file the loop writes nothing, however it ends. *)
Lemma dump_ppm_loop_closed_keeps (answers : list Z) :
  forall (fs fs' : gmap string (list Z)) (p : list Z) (size total : Z),
    dump_ppm_loop answers fs None p size total = Some fs' -> fs' = fs.
Proof.
  induction answers as [| answer answers IH]; intros fs fs' p size total;
    [discriminate |].
  cbn [dump_ppm_loop sys_write].
  destruct (total + -1 <? size); [apply IH | by intros [= <-]].
Qed.

(** ** Frame counter *)

Lemma dump_ppm_framecnt (io : frame_io) (p : list Z) (size tag : Z) (time : timespec)
    (st : state) :
  framecnt (state_of (dump_ppm io p size tag time st)) = framecnt st.
Proof. unfold dump_ppm. repeat case_match; reflexivity. Qed.

Lemma process_image_framecnt (io : frame_io) (p : list Z) (size : Z) (st : state) :
  framecnt (state_of (process_image io p size st)) = to_uint (framecnt st + 1).
Proof.
  unfold process_image. repeat case_match; try reflexivity.
  by rewrite dump_ppm_framecnt.
Qed.

Lemma sys_write_touches (fs : gmap string (list Z)) (name : string) (pos : nat)
    (data : list Z) (answer : Z) :
  exists fs' pos' written,
    sys_write fs (Some (name, pos)) data answer = (fs', Some (name, pos'), written) /\
    only_touches name fs fs'.
Proof.
  unfold sys_write, only_touches. destruct (answer <? 0).
  - by eexists _, _, _.
  - eexists _, _, _. split; [reflexivity |]. split.
    + intros _. rewrite lookup_insert_eq. by eexists.
    + intros other Hne. by rewrite lookup_insert_ne.
Qed.

Lemma only_touches_trans (name : string) (fs1 fs2 fs3 : gmap string (list Z)) :
  only_touches name fs1 fs2 -> only_touches name fs2 fs3 -> only_touches name fs1 fs3.
Proof.
  intros [Ha Hb] [Hc Hd]. split; [auto |].
  intros other Hne. by rewrite Hd, Hb.
Qed.

Lemma dump_ppm_loop_touches (answers : list Z) :
  forall (fs fs' : gmap string (list Z)) (name : string) (pos : nat)
         (p : list Z) (size total : Z),
    dump_ppm_loop answers fs (Some (name, pos)) p size total = Some fs' ->
    only_touches name fs fs'.
Proof.
  induction answers as [| answer answers IH]; intros fs fs' name pos p size total;
    [discriminate |].
  cbn [dump_ppm_loop].
  destruct (sys_write_touches fs name pos (take (Z.to_nat size) p) answer)
    as (fs1 & pos1 & written & -> & Htouch).
  destruct (total + written <? size).
  - intros Hrec. eapply only_touches_trans; [exact Htouch |]. by eapply IH.
  - by intros [= <-].
Qed.

(** When [dump_ppm] returns, no file but the one it named has changed,
    and that one is on the disk if it could be opened. *)
Lemma dump_ppm_returns (io : frame_io) (p : list Z) (size tag : Z) (time : timespec)
    (st : state) (name : list ascii) :
  dump_ppm_name (ppm_dumpname st) tag = Some name ->
  returned (dump_ppm io p size tag time st) = true ->
  (io_open io = true ->
   is_Some (files (state_of (dump_ppm io p size tag time st)) !! c_string name)) /\
  (forall other, other <> c_string name ->
     files (state_of (dump_ppm io p size tag time st)) !! other = files st !! other).
Proof.
  intros Hname. unfold dump_ppm. rewrite Hname. simpl_state.
  destruct (dump_ppm_stamp (ppm_header st) time) as [header |]; [| discriminate].
  destruct ((0 <=? size) && (size <=? Z.of_nat (length p))) eqn:Hsize; [| discriminate].
  apply andb_true_iff in Hsize as [Hpos%Z.leb_le _].
  unfold dump_ppm_write, sys_open.
  destruct (io_write io) as [| answer answers]; [discriminate |].
  destruct (io_open io); cbn [fst snd].
  - set (fs0 := <[c_string name := default [] (files st !! c_string name)]> (files st)).
    destruct (sys_write_touches fs0 (c_string name) O
                (byte_of_char <$> take (length header - 1) header) answer)
      as (fs1 & pos1 & written & -> & [Hkeep1 Hrest1]).
    destruct (dump_ppm_loop answers fs1 (Some (c_string name, pos1)) p size 0)
      as [fs2 |] eqn:Hloop; [| discriminate].
    intros _. simpl_state. cbn [state_of]. simpl_state.
    destruct (dump_ppm_loop_touches _ _ _ _ _ _ _ _ Hloop) as [Hkeep2 Hrest2].
    split.
    + intros _. apply Hkeep2, Hkeep1. unfold fs0. rewrite lookup_insert_eq. by eexists.
    + intros other Hne. rewrite Hrest2, Hrest1 by done.
      unfold fs0. by rewrite lookup_insert_ne.
  - cbn [sys_write].
    destruct (dump_ppm_loop answers (files st) None p size 0) as [fs2 |] eqn:Hloop;
      [| discriminate].
    apply dump_ppm_loop_closed_keeps in Hloop as ->.
    intros _. simpl_state. cbn [state_of]. simpl_state. by split.
Qed.

(** C9, as the code has it. [framecnt] is an [unsigned int] and
    [process_image] increments it exactly once for every frame it is
    handed, before it looks at the pixel encoding, so also for a frame
    it does not recognize; from [2^32 - 1] the increment wraps to 0. A
    turn whose dequeue reports no frame leaves the counter alone. When
    [process_image] returns from a YUYV422 frame, no file has changed
    but the one named by the counter's value after the increment, as 8
    zero-padded digits (counter below [10^8]), and that file is on the
    disk if it could be opened; a frame of another encoding leaves the
    disk as it was. *)
Theorem frame_counter_counts_every_dequeued_frame
    (io : frame_io) (p : list Z) (size : Z) (st : state) :
  is_uint (framecnt st) ->
  length (ppm_dumpname st) = 24%nat ->
  take 11 (ppm_dumpname st) = chars "frames/test" ->
  framecnt (state_of (process_image io p size st)) =
    (if framecnt st =? 2 ^ 32 - 1 then 0 else framecnt st + 1) /\
  (forall it, dqbuf_not_ready it = true ->
     framecnt (state_of (read_frame it st)) = framecnt st) /\
  (framecnt st + 1 < 10 ^ 8 ->
   returned (process_image io p size st) = true ->
   if pixelformat (fmt st) =? V4L2_PIX_FMT_YUYV
   then
     (io_open io = true ->
      is_Some (files (state_of (process_image io p size st))
                 !! spec_ppm_name (framecnt st + 1))) /\
     (forall other, other <> spec_ppm_name (framecnt st + 1) ->
        files (state_of (process_image io p size st)) !! other = files st !! other)
   else files (state_of (process_image io p size st)) = files st).
Proof.
  intros Huint Hlen Hpre. unfold is_uint in Huint.
  split.
  { rewrite process_image_framecnt. unfold to_uint.
    destruct (Z.eqb_spec (framecnt st) (2 ^ 32 - 1)) as [-> | Hne]; [reflexivity |].
    apply Z.mod_small. lia. }
  split; [intros it Hit; by rewrite read_frame_not_ready |].
  intros Hsmall.
  assert (to_uint (framecnt st + 1) = framecnt st + 1) as Hcnt.
  { apply to_uint_small. unfold is_uint. lia. }
  unfold process_image. simpl_state. rewrite Hcnt.
  destruct (pixelformat (fmt st) =? V4L2_PIX_FMT_YUYV); [| done].
  destruct (yuyv_convert p size (bigbuffer st)) as [out | | |]; try discriminate.
  destruct (dump_ppm_name_spec (ppm_dumpname st) (framecnt st + 1))
    as (name & Hname & _ & _ & <-); [done | done | lia |].
  intros Hret.
  apply (dump_ppm_returns io out (Z.quot (size * 6) 4) (framecnt st + 1) (io_clock io)
           (set_bigbuffer out (set_framecnt (framecnt st + 1) st)) name Hname Hret).
Qed.

Lemma frame_counter_counts_every_dequeued_frame_witness :
  framecnt (state_of (process_image (it_io (it_frame 0 sample_frame sample_time))
                        sample_frame 4 sim_ready)) =
    (if framecnt sim_ready =? 2 ^ 32 - 1 then 0 else framecnt sim_ready + 1) /\
  (forall it, dqbuf_not_ready it = true ->
     framecnt (state_of (read_frame it sim_ready)) = framecnt sim_ready) /\
  (framecnt sim_ready + 1 < 10 ^ 8 ->
   returned (process_image (it_io (it_frame 0 sample_frame sample_time))
               sample_frame 4 sim_ready) = true ->
   if pixelformat (fmt sim_ready) =? V4L2_PIX_FMT_YUYV
   then
     (io_open (it_io (it_frame 0 sample_frame sample_time)) = true ->
      is_Some (files (state_of (process_image (it_io (it_frame 0 sample_frame sample_time))
                                  sample_frame 4 sim_ready))
                 !! spec_ppm_name (framecnt sim_ready + 1))) /\
     (forall other, other <> spec_ppm_name (framecnt sim_ready + 1) ->
        files (state_of (process_image (it_io (it_frame 0 sample_frame sample_time))
                           sample_frame 4 sim_ready)) !! other
        = files sim_ready !! other)
   else files (state_of (process_image (it_io (it_frame 0 sample_frame sample_time))
                           sample_frame 4 sim_ready)) = files sim_ready).
Proof.
  apply (frame_counter_counts_every_dequeued_frame
           (it_io (it_frame 0 sample_frame sample_time)) sample_frame 4 sim_ready).
  - change (framecnt sim_ready) with 0. unfold is_uint. lia.
  - reflexivity.
  - reflexivity.
Defined.

(** C9 as worded fails: the driver has answered the format request with
    motion JPEG; the dequeued frame is not recognized, nothing is
    written, and the counter has gone from 0 to 1 all the same. *)
Lemma unrecognized_frame_is_counted :
  pixelformat (fmt mjpeg_ready) <> V4L2_PIX_FMT_YUYV /\
  framecnt mjpeg_ready = 0 /\
  returned mjpeg_run = true /\
  framecnt (state_of mjpeg_run) = 1 /\
  files (state_of mjpeg_run) = files mjpeg_ready /\
  stdout (state_of mjpeg_run) = ["ERROR - unknown dump format" +:+ LF].
Proof.
  split; [by vm_compute |].
  split; [reflexivity |].
  split; [by vm_compute |].
  split; [by vm_compute |].
  split; by vm_compute.
Qed.

(* ===================================================================== *)
(** * Further properties of the code *)
(* ===================================================================== *)

(** ** [xioctl] *)

(** X1. [xioctl] hands back the first answer that is not a failure with
    [EINTR]; it never hands back such a failure, and as long as every
    call is interrupted it keeps calling. *)
Theorem xioctl_skips_interrupted_calls (pre rest : list (Z * Z)) (r errno : Z) :
  Forall (fun a => a = (-1, EINTR)) pre ->
  ~ (r = -1 /\ errno = EINTR) ->
  xioctl (pre ++ (r, errno) :: rest) = Some (r, errno) /\
  xioctl pre = None /\
  (forall answers, xioctl answers <> Some (-1, EINTR)).
Proof.
  intros Hpre Hlast. split; [| split].
  - induction Hpre as [| a pre -> _ IH]; cbn [app xioctl].
    + destruct (Z.eqb_spec r (-1)); destruct (Z.eqb_spec errno EINTR);
        cbn [andb]; try reflexivity. tauto.
    + exact IH.
  - induction Hpre as [| a pre -> _ IH]; [reflexivity | exact IH].
  - induction answers as [| [r' errno'] answers IH]; [discriminate |].
    cbn [xioctl].
    destruct (Z.eqb_spec r' (-1)); destruct (Z.eqb_spec errno' EINTR);
      cbn [andb]; try exact IH; intros [= ? ?]; contradiction.
Qed.

Lemma xioctl_skips_interrupted_calls_witness :
  xioctl ([(-1, EINTR); (-1, EINTR)] ++ (-1, EAGAIN) :: [(0, 0)]) = Some (-1, EAGAIN) /\
  xioctl [(-1, EINTR); (-1, EINTR)] = None /\
  (forall answers, xioctl answers <> Some (-1, EINTR)).
Proof.
  apply (xioctl_skips_interrupted_calls [(-1, EINTR); (-1, EINTR)] [(0, 0)] (-1) EAGAIN).
  - repeat constructor.
  - intros [_ H]. discriminate H.
Defined.

(** ** [yuv2rgb] *)

Lemma shiftr8_mono (a b : Z) : a <= b -> Z.shiftr a 8 <= Z.shiftr b 8.
Proof. intros H. rewrite !Z.shiftr_div_pow2 by lia. apply Z.div_le_mono; lia. Qed.

Lemma clamp_0_255_mono (a b : Z) : a <= b -> clamp_0_255 a <= clamp_0_255 b.
Proof. unfold clamp_0_255. lia. Qed.

(** X2. For a luma read from a byte and neutral chroma (U = V = 128)
    [yuv2rgb] computes a grey: the three channels are equal. On that
    axis every luma up to 16 is black and every luma from 235 on is
    white. (For bytes no product of [yuv2rgb] leaves the range of
    [int], see [yuv2rgb_no_overflow].) *)
Theorem neutral_chroma_gives_grey (y : Z) :
  is_byte y ->
  fst (fst (yuv2rgb_int y 128 128)) = snd (fst (yuv2rgb_int y 128 128)) /\
  snd (fst (yuv2rgb_int y 128 128)) = snd (yuv2rgb_int y 128 128) /\
  yuv2rgb_int (Z.min y 16) 128 128 = (0, 0, 0) /\
  yuv2rgb_int (Z.max y 235) 128 128 = (255, 255, 255).
Proof.
  assert (forall c, spec_R c 128 128 = clamp_0_255 (Z.shiftr (298 * (c - 16) + 128) 8) /\
                    spec_G c 128 128 = clamp_0_255 (Z.shiftr (298 * (c - 16) + 128) 8) /\
                    spec_B c 128 128 = clamp_0_255 (Z.shiftr (298 * (c - 16) + 128) 8))
    as Hgrey.
  { intros c. unfold spec_R, spec_G, spec_B. repeat split; do 2 f_equal; lia. }
  intros _. rewrite !yuv2rgb_int_spec. cbn [fst snd].
  destruct (Hgrey y) as (-> & -> & ->).
  destruct (Hgrey (Z.min y 16)) as (-> & -> & ->).
  destruct (Hgrey (Z.max y 235)) as (-> & -> & ->).
  split; [reflexivity |]. split; [reflexivity |]. split.
  - assert (Z.shiftr (298 * (Z.min y 16 - 16) + 128) 8 <= 0) as Hlow.
    { rewrite Z.shiftr_div_pow2 by lia.
      assert ((298 * (Z.min y 16 - 16) + 128) / 2 ^ 8 < 1); [| lia].
      apply Z.div_lt_upper_bound; lia. }
    unfold clamp_0_255. repeat f_equal; lia.
  - assert (255 <= Z.shiftr (298 * (Z.max y 235 - 16) + 128) 8) as Hhigh.
    { rewrite Z.shiftr_div_pow2 by lia. apply Z.div_le_lower_bound; lia. }
    unfold clamp_0_255. repeat f_equal; lia.
Qed.

Lemma neutral_chroma_gives_grey_witness :
  fst (fst (yuv2rgb_int 100 128 128)) = snd (fst (yuv2rgb_int 100 128 128)) /\
  snd (fst (yuv2rgb_int 100 128 128)) = snd (yuv2rgb_int 100 128 128) /\
  yuv2rgb_int (Z.min 100 16) 128 128 = (0, 0, 0) /\
  yuv2rgb_int (Z.max 100 235) 128 128 = (255, 255, 255).
Proof. apply (neutral_chroma_gives_grey 100). unfold is_byte. lia. Defined.

(** X3. On bytes [yuv2rgb] is monotone in the luma: with the chroma pair
    fixed, a brighter Y never gives a smaller R, G or B. (For bytes no
    product of [yuv2rgb] leaves the range of [int].) *)
Theorem brighter_luma_never_darkens (y y' u v : Z) :
  is_byte y -> is_byte y' -> is_byte u -> is_byte v ->
  y <= y' ->
  fst (fst (yuv2rgb_int y u v)) <= fst (fst (yuv2rgb_int y' u v)) /\
  snd (fst (yuv2rgb_int y u v)) <= snd (fst (yuv2rgb_int y' u v)) /\
  snd (yuv2rgb_int y u v) <= snd (yuv2rgb_int y' u v).
Proof.
  intros _ _ _ _ Hy. rewrite !yuv2rgb_int_spec. cbn [fst snd].
  unfold spec_R, spec_G, spec_B.
  repeat split; apply clamp_0_255_mono, shiftr8_mono; lia.
Qed.

Lemma brighter_luma_never_darkens_witness :
  fst (fst (yuv2rgb_int 60 90 200)) <= fst (fst (yuv2rgb_int 61 90 200)) /\
  snd (fst (yuv2rgb_int 60 90 200)) <= snd (fst (yuv2rgb_int 61 90 200)) /\
  snd (yuv2rgb_int 60 90 200) <= snd (yuv2rgb_int 61 90 200).
Proof. apply (brighter_luma_never_darkens 60 61 90 200); unfold is_byte; lia. Defined.

(** ** The conversion loop of [process_image] *)

Lemma yuv2rgb_length (y u v : Z) (m m' : list Z) (r g b : Z) :
  yuv2rgb y u v m r g b = Some m' -> length m' = length m.
Proof.
  unfold yuv2rgb. destruct (yuv2rgb_int y u v) as [[r1 g1] b1].
  destruct (store m r (to_uchar r1)) as [m1 |] eqn:E1; [| discriminate].
  cbn [mbind option_bind].
  destruct (store m1 g (to_uchar g1)) as [m2 |] eqn:E2; [| discriminate].
  cbn [mbind option_bind]. intros E3.
  rewrite (store_length _ _ _ _ E3), (store_length _ _ _ _ E2).
  exact (store_length _ _ _ _ E1).
Qed.

Lemma turns_left_step (size i : Z) :
  i < size -> 1 <= turns_left size i /\ turns_left size (i + 4) = turns_left size i - 1.
Proof.
  intros Hlt. unfold turns_left. split.
  - apply Z.div_le_lower_bound; lia.
  - replace (size - (i + 4) + 3) with (size - i + 3 + (-1) * 4) by lia.
    rewrite Z.div_add by lia. lia.
Qed.

(** Fuel beyond the turns left changes nothing. *)
Lemma yuyv_loop_enough_fuel (fuel1 : nat) :
  forall (fuel2 : nat) (pptr : list Z) (size i newi : Z) (bigbuffer : list Z),
    turns_left size i <= Z.of_nat fuel1 -> turns_left size i <= Z.of_nat fuel2 ->
    yuyv_loop fuel1 pptr size i newi bigbuffer = yuyv_loop fuel2 pptr size i newi bigbuffer.
Proof.
  induction fuel1 as [| fuel1 IH]; intros fuel2 pptr size i newi bigbuffer H1 H2;
    rewrite (yuyv_loop_unfold _ pptr), (yuyv_loop_unfold fuel2 pptr);
    destruct (Z.ltb_spec i size) as [Hlt | Hge]; try reflexivity;
    destruct (turns_left_step size i Hlt) as [Hpos Hnext]; [lia |].
  destruct fuel2 as [| fuel2]; [lia |].
  repeat case_match; try reflexivity. apply IH; lia.
Qed.

(** The loop test only depends on the byte count rounded up to a whole
    quadruple. *)
Lemma yuyv_loop_rounds_up (fuel : nat) :
  forall (pptr : list Z) (size i newi : Z) (bigbuffer : list Z),
    i mod 4 = 0 ->
    yuyv_loop fuel pptr size i newi bigbuffer =
    yuyv_loop fuel pptr (4 * ((size + 3) / 4)) i newi bigbuffer.
Proof.
  induction fuel as [| fuel IH]; intros pptr size i newi bigbuffer Hi;
    rewrite (yuyv_loop_unfold _ pptr size), (yuyv_loop_unfold _ pptr (4 * _));
    pose proof (Z.div_mod (size + 3) 4 ltac:(lia)) as Hdm;
    pose proof (Z.mod_pos_bound (size + 3) 4 ltac:(lia)) as Hmb;
    pose proof (Z.div_mod i 4 ltac:(lia)) as Him;
    destruct (Z.ltb_spec i size); destruct (Z.ltb_spec i (4 * ((size + 3) / 4)));
    try reflexivity; try lia.
  repeat case_match; try reflexivity. apply IH.
  replace (i + 4) with (i + 1 * 4) by lia. by rewrite Z.mod_add.
Qed.

(** X4. The conversion loop treats a byte count that is not a multiple
    of 4 as the next multiple of 4: the last, partial quadruple is read
    and converted whole, up to 3 bytes past the count. A count of 0 or
    less converts nothing and leaves the scratch area as it is. *)
Theorem partial_quadruple_is_converted_whole (pptr bigbuffer : list Z) (size : Z) :
  yuyv_convert pptr size bigbuffer =
    yuyv_convert pptr (4 * ((size + 3) / 4)) bigbuffer /\
  yuyv_convert pptr (Z.min size 0) bigbuffer = LoopDone bigbuffer.
Proof.
  split.
  - unfold yuyv_convert. rewrite (yuyv_loop_rounds_up _ pptr size) by reflexivity.
    pose proof (Z.div_mod (size + 3) 4 ltac:(lia)) as Hdm.
    pose proof (Z.mod_pos_bound (size + 3) 4 ltac:(lia)) as Hmb.
    assert (turns_left (4 * ((size + 3) / 4)) 0 = (size + 3) / 4) as Hturns.
    { unfold turns_left. rewrite Z.sub_0_r.
      replace (4 * ((size + 3) / 4) + 3) with (3 + (size + 3) / 4 * 4) by lia.
      rewrite Z.div_add by lia. reflexivity. }
    apply yuyv_loop_enough_fuel; rewrite Hturns; lia.
  - unfold yuyv_convert. rewrite yuyv_loop_unfold.
    by destruct (Z.ltb_spec 0 (Z.min size 0)); [lia |].
Qed.

(** X5. Converting a frame of [k] quadruples overwrites the first [6 * k]
    bytes of the scratch area with the pixels and leaves every later
    byte as it was; mapped memory behind the frame is not read. *)
Theorem conversion_overwrites_a_prefix (k : nat) (frame behind bigbuffer : list Z) :
  length frame = (4 * k)%nat ->
  (6 * k <= length bigbuffer)%nat ->
  exists out,
    yuyv_convert (frame ++ behind) (Z.of_nat (length frame)) bigbuffer = LoopDone out /\
    take (6 * k) out = spec_yuyv_to_rgb frame /\
    drop (6 * k) out = drop (6 * k) bigbuffer /\
    yuyv_convert (frame ++ behind) (Z.of_nat (length frame)) bigbuffer =
      yuyv_convert frame (Z.of_nat (length frame)) bigbuffer.
Proof.
  intros Hframe Hroom.
  pose proof (spec_yuyv_to_rgb_length k frame Hframe) as Hpx.
  exists (spec_yuyv_to_rgb frame ++ drop (6 * k) bigbuffer).
  split; [by apply yuyv_convert_spec |].
  split; [by rewrite take_app_length' |].
  split; [by rewrite drop_app_length' |].
  rewrite (yuyv_convert_spec k) by done.
  pose proof (yuyv_convert_spec k frame [] bigbuffer Hframe Hroom) as Hplain.
  rewrite app_nil_r in Hplain. by rewrite Hplain.
Qed.

Lemma conversion_overwrites_a_prefix_witness :
  exists out,
    yuyv_convert ([16; 128; 235; 128] ++ [1; 2; 3]) 4 [7; 7; 7; 7; 7; 7; 8; 9]
      = LoopDone out /\
    take 6 out = spec_yuyv_to_rgb [16; 128; 235; 128] /\
    drop 6 out = drop 6 [7; 7; 7; 7; 7; 7; 8; 9] /\
    yuyv_convert ([16; 128; 235; 128] ++ [1; 2; 3]) 4 [7; 7; 7; 7; 7; 7; 8; 9] =
      yuyv_convert [16; 128; 235; 128] 4 [7; 7; 7; 7; 7; 7; 8; 9].
Proof.
  apply (conversion_overwrites_a_prefix 1 [16; 128; 235; 128] [1; 2; 3]
           [7; 7; 7; 7; 7; 7; 8; 9]); [reflexivity | simpl; lia].
Defined.

Lemma store_past_end (m : list Z) (i v : Z) :
  Z.of_nat (length m) <= i -> store m i v = None.
Proof.
  intros H. unfold store.
  destruct (Z.ltb_spec i (Z.of_nat (length m))); [lia |]. by rewrite andb_false_r.
Qed.

(** [k] turns of the loop, with more of the frame still to come. *)
Lemma yuyv_loop_run (k : nat) :
  forall (fuel : nat) (size : Z) (p ppre ptail bpre brest : list Z),
    length p = (4 * k)%nat -> (6 * k <= length brest)%nat ->
    Z.of_nat (length ppre + length p) <= size ->
    yuyv_loop (k + fuel) (ppre ++ p ++ ptail) size
      (Z.of_nat (length ppre)) (Z.of_nat (length bpre)) (bpre ++ brest)
    = yuyv_loop fuel (ppre ++ p ++ ptail) size
        (Z.of_nat (length ppre + length p)) (Z.of_nat (length bpre + 6 * k))
        (bpre ++ spec_yuyv_to_rgb p ++ drop (6 * k) brest).
Proof.
  induction k as [| k IH]; intros fuel size p ppre ptail bpre brest Hp Hb Hsize.
  - destruct p; [| discriminate]. cbn [length Nat.add Nat.mul spec_yuyv_to_rgb app drop].
    by rewrite !Nat.add_0_r.
  - destruct p as [| y0 [| u [| y1 [| v p]]]]; cbn [length] in Hp; try lia.
    destruct brest as [| a [| b [| c [| d [| e [| f brest]]]]]];
      cbn [length] in Hb; try lia.
    cbn [length] in Hsize.
    cbn [Nat.add]. rewrite yuyv_loop_unfold.
    destruct (Z.ltb_spec (Z.of_nat (length ppre)) size) as [_ | Hge]; [| lia].
    erewrite (load_at _ ppre); [| cbn [app]; reflexivity | reflexivity].
    erewrite (load_at _ (ppre ++ [y0])); cycle 1.
    { rewrite <- app_assoc. reflexivity. }
    { rewrite length_app. cbn [length]. lia. }
    erewrite (load_at _ (ppre ++ [y0; u])); cycle 1.
    { rewrite <- app_assoc. reflexivity. }
    { rewrite length_app. cbn [length]. lia. }
    erewrite (load_at _ (ppre ++ [y0; u; y1])); cycle 1.
    { rewrite <- app_assoc. reflexivity. }
    { rewrite length_app. cbn [length]. lia. }
    rewrite yuv2rgb_at.
    replace (Z.of_nat (length bpre) + 3)
      with (Z.of_nat (length (bpre ++ spec_pixel y0 u v)))
      by (rewrite length_app, spec_pixel_length; lia).
    replace (Z.of_nat (length bpre) + 4)
      with (Z.of_nat (length (bpre ++ spec_pixel y0 u v)) + 1)
      by (rewrite length_app, spec_pixel_length; lia).
    replace (Z.of_nat (length bpre) + 5)
      with (Z.of_nat (length (bpre ++ spec_pixel y0 u v)) + 2)
      by (rewrite length_app, spec_pixel_length; lia).
    replace (bpre ++ spec_pixel y0 u v ++ d :: e :: f :: brest)
      with ((bpre ++ spec_pixel y0 u v) ++ d :: e :: f :: brest)
      by (by rewrite <- app_assoc).
    rewrite yuv2rgb_at.
    replace (Z.of_nat (length ppre) + 4)
      with (Z.of_nat (length (ppre ++ [y0; u; y1; v])))
      by (rewrite length_app; cbn [length]; lia).
    replace (ppre ++ (y0 :: u :: y1 :: v :: p) ++ ptail)
      with ((ppre ++ [y0; u; y1; v]) ++ p ++ ptail)
      by (by rewrite <- app_assoc).
    replace (Z.of_nat (length bpre) + 6)
      with (Z.of_nat (length ((bpre ++ spec_pixel y0 u v) ++ spec_pixel y1 u v)))
      by (rewrite !length_app, !spec_pixel_length; lia).
    rewrite (app_assoc (bpre ++ spec_pixel y0 u v)).
    rewrite IH; [| lia | lia | rewrite length_app; cbn [length]; lia].
    cbn [spec_yuyv_to_rgb].
    replace (6 * S k)%nat with (6 + 6 * k)%nat by lia.
    cbn [drop Nat.add]. rewrite <- !app_assoc.
    f_equal; f_equal; rewrite ?length_app, ?spec_pixel_length; cbn [length]; lia.
Qed.

(** X6. Nothing in [process_image] compares the frame with the scratch
    area: a readable frame of more than 819200 bytes makes the
    conversion loop store past the end of [bigbuffer], at the turn that
    follows the 204800th quadruple. *)
Theorem larger_frame_overruns_bigbuffer
    (frame bigbuffer : list Z) (y0 u y1 v : Z) (behind : list Z) (size : Z) :
  Z.of_nat (length frame) = 819200 ->
  Z.of_nat (length bigbuffer) = BIGBUFFER_SIZE ->
  819200 < size ->
  yuyv_convert (frame ++ y0 :: u :: y1 :: v :: behind) size bigbuffer = WriteFault.
Proof.
  intros Hframe Hbig Hsize. unfold BIGBUFFER_SIZE in Hbig. unfold yuyv_convert.
  assert (exists k : nat, Z.of_nat k = 204800) as [k Hk]
    by (exists (Z.to_nat 204800); lia).
  assert (exists fuel, Z.to_nat size = (k + S fuel)%nat) as [fuel ->].
  { exists (Z.to_nat size - k - 1)%nat. lia. }
  pose proof (yuyv_loop_run k (S fuel) size frame [] (y0 :: u :: y1 :: v :: behind)
                [] bigbuffer) as Hrun.
  cbn [app length Nat.add] in Hrun. change (Z.of_nat 0) with 0 in Hrun.
  rewrite Hrun by lia. clear Hrun.
  rewrite drop_ge, app_nil_r by lia.
  rewrite yuyv_loop_unfold.
  destruct (Z.ltb_spec (Z.of_nat (length frame)) size); [| lia].
  erewrite (load_at _ frame); [| reflexivity | reflexivity].
  erewrite (load_at _ (frame ++ [y0])); cycle 1.
  { rewrite <- app_assoc. reflexivity. }
  { rewrite length_app. cbn [length]. lia. }
  erewrite (load_at _ (frame ++ [y0; u])); cycle 1.
  { rewrite <- app_assoc. reflexivity. }
  { rewrite length_app. cbn [length]. lia. }
  erewrite (load_at _ (frame ++ [y0; u; y1])); cycle 1.
  { rewrite <- app_assoc. reflexivity. }
  { rewrite length_app. cbn [length]. lia. }
  assert (length (spec_yuyv_to_rgb frame) = (6 * k)%nat) as Hpx
    by (apply spec_yuyv_to_rgb_length; lia).
  unfold yuv2rgb at 1. destruct (yuv2rgb_int y0 u v) as [[r1 g1] b1].
  by rewrite store_past_end by lia.
Qed.

Lemma larger_frame_overruns_bigbuffer_witness :
  yuyv_convert (replicate (Z.to_nat 819200) 16 ++ 16 :: 128 :: 235 :: 128 :: [])
    819204 bigbuffer0 = WriteFault.
Proof.
  apply (larger_frame_overruns_bigbuffer (replicate (Z.to_nat 819200) 16) bigbuffer0
           16 128 235 128 [] 819204).
  - rewrite length_replicate. lia.
  - apply bigbuffer0_length.
  - lia.
Defined.

(** ** [dump_ppm]: the two [char] arrays *)

(** X7. Whatever the frame number, also one of more than 8 digits or one
    that [%d] prints with a sign, [dump_ppm] stays inside
    [ppm_dumpname]: the array keeps its 24 bytes, its first 11
    characters and its ending [.ppm] with the terminator, and the 8
    characters between are never NUL. The name of a later frame does
    not depend on the frames named before. *)
Theorem dump_name_stays_in_its_array (a : list ascii) (tag tag' : Z) :
  length a = 24%nat ->
  exists name,
    dump_ppm_name a tag = Some name /\
    length name = 24%nat /\
    take 11 name = take 11 a /\
    Forall not_nul (take 8 (drop 11 name)) /\
    drop 19 name = chars ".ppm" ++ [NUL] /\
    dump_ppm_name name tag' = dump_ppm_name a tag'.
Proof.
  intros Ha.
  pose proof (fmt_0d_length 8 (to_int tag)) as Hfmt.
  assert (length (take 11 a) = 11%nat) as H11 by (rewrite length_take; lia).
  assert (length (take 8 (fmt_0d 8 (to_int tag))) = 8%nat) as H8
    by (rewrite length_take; lia).
  eexists. split; [by apply dump_ppm_name_ok |].
  assert (length (take 11 a ++ take 8 (fmt_0d 8 (to_int tag)) ++ chars ".ppm" ++ [NUL])
          = 24%nat) as Hlen.
  { rewrite !length_app, H11, H8. reflexivity. }
  split; [exact Hlen |].
  split; [by rewrite take_app_length' |].
  split.
  { rewrite drop_app_length', take_app_length' by done.
    apply Forall_take, fmt_0d_not_nul. }
  split.
  { rewrite app_assoc, drop_app_length'; [done |]. rewrite length_app. lia. }
  rewrite !dump_ppm_name_ok by done. by rewrite take_app_length'.
Qed.

Lemma dump_name_stays_in_its_array_witness :
  exists name,
    dump_ppm_name ppm_dumpname0 123456789 = Some name /\
    length name = 24%nat /\
    take 11 name = take 11 ppm_dumpname0 /\
    Forall not_nul (take 8 (drop 11 name)) /\
    drop 19 name = chars ".ppm" ++ [NUL] /\
    dump_ppm_name name 2 = dump_ppm_name ppm_dumpname0 2.
Proof. apply (dump_name_stays_in_its_array ppm_dumpname0 123456789 2). reflexivity. Defined.

(** X8. Whatever the clock reads, also a time before 1970 or after 2038
    that [(int)] wraps, [dump_ppm] stays inside [ppm_header]: the array
    keeps its 49 bytes, its first 4 characters and its terminator in the
    last place. The header of a later frame does not depend on the time
    stamps written before. *)
Theorem header_stays_in_its_array (h : list ascii) (time time' : timespec) :
  length h = 49%nat ->
  exists header,
    dump_ppm_stamp h time = Some header /\
    length header = 49%nat /\
    take 4 header = take 4 h /\
    header !! 48%nat = Some NUL /\
    dump_ppm_stamp header time' = dump_ppm_stamp h time'.
Proof.
  intros Hh.
  pose proof (fmt_0d_length 10 (to_int (tv_sec time))) as Hsec.
  pose proof (fmt_0d_length 10 (to_int (Z.quot (tv_nsec time) 1000000))) as Hms.
  assert (length (take 4 h) = 4%nat) as H4 by (rewrite length_take; lia).
  set (sec := take 10 (fmt_0d 10 (to_int (tv_sec time)))).
  set (ms := take 10 (fmt_0d 10 (to_int (Z.quot (tv_nsec time) 1000000)))).
  assert (length sec = 10%nat) as Hl1 by (unfold sec; rewrite length_take; lia).
  assert (length ms = 10%nat) as Hl2 by (unfold ms; rewrite length_take; lia).
  eexists. split; [by apply dump_ppm_stamp_ok |]. fold sec ms.
  set (tail := chars (" msec " +:+ LF +:+ "320 240" +:+ LF +:+ "255" +:+ LF)).
  assert (length tail = 19%nat) as Hl3 by reflexivity.
  assert (length (take 4 h ++ sec ++ chars " sec " ++ ms ++ tail ++ [NUL]) = 49%nat)
    as Hlen.
  { rewrite !length_app, H4, Hl1, Hl2, Hl3. reflexivity. }
  split; [exact Hlen |].
  split; [by rewrite take_app_length' |].
  split.
  { rewrite !app_assoc. rewrite lookup_app_r; rewrite !length_app, H4, Hl1, Hl2, Hl3;
      [reflexivity | cbn; lia]. }
  rewrite !dump_ppm_stamp_ok by done. by rewrite take_app_length'.
Qed.

Lemma header_stays_in_its_array_witness :
  exists header,
    dump_ppm_stamp ppm_header0 (mk_timespec (2 ^ 31) (-5)) = Some header /\
    length header = 49%nat /\
    take 4 header = take 4 ppm_header0 /\
    header !! 48%nat = Some NUL /\
    dump_ppm_stamp header sample_time = dump_ppm_stamp ppm_header0 sample_time.
Proof.
  apply (header_stays_in_its_array ppm_header0 (mk_timespec (2 ^ 31) (-5)) sample_time).
  reflexivity.
Defined.

(** ** [dump_ppm]: the file *)

(** [dump_ppm] once the two arrays are filled in and the sizes are in
    range: what remains is the opening and the writes. *)
Lemma dump_ppm_body (io : frame_io) (p : list Z) (size tag : Z) (time : timespec)
    (st : state) (name header : list ascii) :
  dump_ppm_name (ppm_dumpname st) tag = Some name ->
  dump_ppm_stamp (ppm_header st) time = Some header ->
  0 <= size <= Z.of_nat (length p) ->
  dump_ppm io p size tag time st =
  let opened := sys_open (c_string name) (io_open io) (files st) in
  let st2 := set_ppm_header header (set_files (fst opened) (set_ppm_dumpname name st)) in
  match dump_ppm_write (io_write io) (fst opened) (snd opened) header p size with
  | None => Pending st2
  | Some fs => Ret tt (printf ("Wrote a frame" +:+ LF) (set_files fs st2))
  end.
Proof.
  intros Hname Hheader Hsize. unfold dump_ppm. rewrite Hname. simpl_state.
  rewrite Hheader.
  destruct (Z.leb_spec 0 size); [| lia].
  destruct (Z.leb_spec size (Z.of_nat (length p))); [| lia]. reflexivity.
Qed.

Lemma header_bytes_length (header : list ascii) :
  length (header_bytes header) = (length header - 1)%nat.
Proof. unfold header_bytes. rewrite length_fmap, length_take. lia. Qed.

(** X9. The dump file is opened without [O_TRUNC]: when a file of that
    name is already there, [dump_ppm] overwrites its beginning with the
    header and the pixels and leaves whatever the old file held beyond
    them. *)
Theorem existing_dump_file_is_not_truncated
    (io : frame_io) (p : list Z) (size tag : Z) (time : timespec) (st : state)
    (name header : list ascii) (old : list Z) :
  dump_ppm_name (ppm_dumpname st) tag = Some name ->
  dump_ppm_stamp (ppm_header st) time = Some header ->
  0 <= size <= Z.of_nat (length p) ->
  io_open io = true ->
  io_write io = [Z.of_nat (length header - 1); size] ->
  files st !! c_string name = Some old ->
  returned (dump_ppm io p size tag time st) = true /\
  files (state_of (dump_ppm io p size tag time st)) !! c_string name =
    Some (header_bytes header ++ take (Z.to_nat size) p ++
          drop (length header - 1 + Z.to_nat size) old).
Proof.
  intros Hname Hheader Hsize Hopen Hwrite Hold.
  rewrite (dump_ppm_body io p size tag time st name header) by done.
  cbv zeta. rewrite Hopen, Hwrite. unfold sys_open. cbn [fst snd].
  rewrite dump_ppm_write_full by done.
  cbn [returned state_of]. simpl_state.
  split; [reflexivity |].
  rewrite lookup_insert_eq, lookup_insert_eq, Hold. cbn [default]. f_equal.
  fold (header_bytes header). rewrite <- (header_bytes_length header).
  rewrite write_at_over. do 3 f_equal. rewrite length_take. lia.
Qed.

Lemma existing_dump_file_is_not_truncated_witness :
  returned (dump_ppm (mk_frame_io sample_time true [48; 2]) [1; 2; 3] 2 1 sample_time
              (initial_state {["frames/test00000001.ppm" := replicate 60 9]})) = true /\
  files (state_of (dump_ppm (mk_frame_io sample_time true [48; 2]) [1; 2; 3] 2 1 sample_time
                     (initial_state {["frames/test00000001.ppm" := replicate 60 9]})))
    !! c_string (chars "frames/test00000001.ppm" ++ [NUL]) =
    Some (header_bytes
            (chars (spec_ppm_header 1700000000 123) ++ [NUL]) ++
          take (Z.to_nat 2) [1; 2; 3] ++
          drop (length (chars (spec_ppm_header 1700000000 123) ++ [NUL]) - 1 + Z.to_nat 2)
            (replicate 60 9)).
Proof.
  apply (existing_dump_file_is_not_truncated
           (mk_frame_io sample_time true [48; 2]) [1; 2; 3] 2 1 sample_time
           (initial_state {["frames/test00000001.ppm" := replicate 60 9]})
           (chars "frames/test00000001.ppm" ++ [NUL])
           (chars (spec_ppm_header 1700000000 123) ++ [NUL])
           (replicate 60 9)).
  - reflexivity.
  - reflexivity.
  - simpl. lia.
  - reflexivity.
  - reflexivity.
  - reflexivity.
Defined.

(** X10. When the dump file cannot be opened, for instance because the
    directory [frames] is missing, [dump_ppm] does not report it and
    does not give up: every [write] on the bad descriptor fails and is
    asked again. After as many as [2^31] calls of [write], the last
    count at which [int total] has not overflowed, the loop is still
    asking; the disk and the standard output are as they were. *)
Theorem unopened_dump_file_keeps_being_written
    (io : frame_io) (p : list Z) (size tag : Z) (time : timespec) (st : state) :
  length (ppm_dumpname st) = 24%nat ->
  length (ppm_header st) = 49%nat ->
  0 <= size <= Z.of_nat (length p) ->
  io_open io = false ->
  Z.of_nat (length (io_write io)) <= 2 ^ 31 ->
  pending (dump_ppm io p size tag time st) = true /\
  files (state_of (dump_ppm io p size tag time st)) = files st /\
  stdout (state_of (dump_ppm io p size tag time st)) = stdout st.
Proof.
  intros Hname Hheader Hsize Hopen Hcalls.
  erewrite (dump_ppm_body io p size tag time st);
    [| by apply dump_ppm_name_ok | by apply dump_ppm_stamp_ok | done].
  cbv zeta. rewrite Hopen. unfold sys_open. cbn [fst snd].
  assert (forall header, dump_ppm_write (io_write io) (files st) None header p size = None)
    as ->; [| done].
  intros header. unfold dump_ppm_write.
  destruct (io_write io) as [| answer answers]; [reflexivity |].
  cbn [sys_write]. cbn [length] in Hcalls.
  apply dump_ppm_loop_closed; unfold INT_MIN; lia.
Qed.

Lemma unopened_dump_file_keeps_being_written_witness :
  pending (dump_ppm (mk_frame_io sample_time false [48; 6; 6; 6]) [1; 2; 3; 4; 5; 6] 6 1
             sample_time (initial_state ∅)) = true /\
  files (state_of (dump_ppm (mk_frame_io sample_time false [48; 6; 6; 6])
                     [1; 2; 3; 4; 5; 6] 6 1 sample_time (initial_state ∅)))
    = files (initial_state ∅) /\
  stdout (state_of (dump_ppm (mk_frame_io sample_time false [48; 6; 6; 6])
                      [1; 2; 3; 4; 5; 6] 6 1 sample_time (initial_state ∅)))
    = stdout (initial_state ∅).
Proof.
  apply (unopened_dump_file_keeps_being_written
           (mk_frame_io sample_time false [48; 6; 6; 6]) [1; 2; 3; 4; 5; 6] 6 1
           sample_time (initial_state ∅)).
  - reflexivity.
  - reflexivity.
  - simpl. lia.
  - reflexivity.
  - simpl. lia.
Defined.

Lemma sys_write_some (fs : gmap string (list Z)) (name : string) (pos : nat)
    (data : list Z) (answer : Z) :
  0 <= answer ->
  sys_write fs (Some (name, pos)) data answer =
  (<[name := write_at (default [] (fs !! name)) pos (take (Z.to_nat answer) data)]> fs,
   Some (name, (pos + length (take (Z.to_nat answer) data))%nat),
   Z.of_nat (length (take (Z.to_nat answer) data))).
Proof. intros H. unfold sys_write. by destruct (Z.ltb_spec answer 0); [lia |]. Qed.

Lemma write_at_end (content data : list Z) :
  write_at content (length content) data = content ++ data.
Proof.
  unfold write_at. rewrite firstn_all, drop_ge by lia. by rewrite app_nil_r.
Qed.

(** X11. The return value of the header's [write] is overwritten without
    being looked at: when the system takes only the first [n] bytes of
    the header, [dump_ppm] writes the pixels right behind them and
    reports the frame as written. *)
Theorem short_header_write_goes_unnoticed
    (io : frame_io) (p : list Z) (size tag : Z) (time : timespec) (st : state)
    (name header : list ascii) (n : Z) :
  dump_ppm_name (ppm_dumpname st) tag = Some name ->
  dump_ppm_stamp (ppm_header st) time = Some header ->
  0 <= size <= Z.of_nat (length p) ->
  io_open io = true ->
  0 <= n ->
  io_write io = [n; size] ->
  files st !! c_string name = None ->
  returned (dump_ppm io p size tag time st) = true /\
  files (state_of (dump_ppm io p size tag time st)) !! c_string name =
    Some (take (Z.to_nat n) (header_bytes header) ++ take (Z.to_nat size) p) /\
  stdout (state_of (dump_ppm io p size tag time st)) =
    stdout st ++ ["Wrote a frame" +:+ LF].
Proof.
  intros Hname Hheader Hsize Hopen Hn Hwrite Hfresh.
  rewrite (dump_ppm_body io p size tag time st name header) by done.
  cbv zeta. rewrite Hopen, Hwrite. unfold sys_open, dump_ppm_write. cbn [fst snd].
  fold (header_bytes header). rewrite sys_write_some by done.
  rewrite lookup_insert_eq, insert_insert_eq, Hfresh. cbn [default dump_ppm_loop].
  unfold id.
  set (sent := take (Z.to_nat n) (header_bytes header)).
  set (pixels := take (Z.to_nat size) p).
  assert (Z.of_nat (length pixels) = size) as Hpx
    by (unfold pixels; rewrite length_take; lia).
  rewrite sys_write_some by lia.
  replace (take (Z.to_nat size) pixels) with pixels
    by (symmetry; apply take_ge; lia).
  rewrite lookup_insert_eq, insert_insert_eq. cbn [default]. unfold id.
  rewrite Hpx, Z.add_0_l, Z.ltb_irrefl.
  cbn [returned state_of]. simpl_state.
  split; [reflexivity |]. split; [| reflexivity].
  rewrite lookup_insert_eq. f_equal.
  unfold write_at at 2. rewrite take_0, drop_nil, app_nil_r. cbn [app Nat.add].
  apply write_at_end.
Qed.

Lemma short_header_write_goes_unnoticed_witness :
  returned (dump_ppm (mk_frame_io sample_time true [10; 2]) [1; 2; 3] 2 1 sample_time
              (initial_state ∅)) = true /\
  files (state_of (dump_ppm (mk_frame_io sample_time true [10; 2]) [1; 2; 3] 2 1
                     sample_time (initial_state ∅)))
    !! c_string (chars "frames/test00000001.ppm" ++ [NUL]) =
    Some (take (Z.to_nat 10)
            (header_bytes (chars (spec_ppm_header 1700000000 123) ++ [NUL])) ++
          take (Z.to_nat 2) [1; 2; 3]) /\
  stdout (state_of (dump_ppm (mk_frame_io sample_time true [10; 2]) [1; 2; 3] 2 1
                      sample_time (initial_state ∅)))
    = stdout (initial_state ∅) ++ ["Wrote a frame" +:+ LF].
Proof.
  apply (short_header_write_goes_unnoticed
           (mk_frame_io sample_time true [10; 2]) [1; 2; 3] 2 1 sample_time
           (initial_state ∅)
           (chars "frames/test00000001.ppm" ++ [NUL])
           (chars (spec_ppm_header 1700000000 123) ++ [NUL]) 10).
  - reflexivity.
  - reflexivity.
  - simpl. lia.
  - reflexivity.
  - lia.
  - reflexivity.
  - reflexivity.
Defined.

(** Every byte the loop puts behind a file of [pos] bytes is counted in
    [total], and failures only take away from [total]: when the loop is
    left the file has grown by at least what was missing. ([size] up to
    [2^30] and at most [2^31] calls: no sum leaves the range of [int].) *)
Lemma dump_ppm_loop_grows (answers : list Z) :
  forall (fs fs' : gmap string (list Z)) (name : string) (content p : list Z)
         (size total : Z),
    size <= 2 ^ 30 -> total <= size ->
    INT_MIN <= total - Z.of_nat (length answers) ->
    fs !! name = Some content ->
    dump_ppm_loop answers fs (Some (name, length content)) p size total = Some fs' ->
    exists more,
      fs' !! name = Some (content ++ more) /\ size <= total + Z.of_nat (length more).
Proof.
  induction answers as [| answer answers IH];
    intros fs fs' name content p size total Hsize Htotal Hint Hcontent; [discriminate |].
  cbn [dump_ppm_loop]. cbn [length] in Hint.
  destruct (Z.ltb_spec answer 0) as [Hneg | Hpos].
  - assert (sys_write fs (Some (name, length content)) (take (Z.to_nat size) p) answer
            = (fs, Some (name, length content), -1)) as ->.
    { unfold sys_write. by destruct (Z.ltb_spec answer 0); [| lia]. }
    destruct (Z.ltb_spec (total + -1) size).
    + intros Hrec.
      destruct (IH fs fs' name content p size (total + -1)) as (more & Hmore & Hsum);
        [done | lia | lia | done | done |].
      exists more. split; [done | lia].
    + intros [= <-]. exists []. rewrite app_nil_r. split; [done |]. cbn [length]. lia.
  - rewrite sys_write_some by lia. rewrite Hcontent. cbn [default]. unfold id.
    rewrite write_at_end.
    set (taken := take (Z.to_nat answer) (take (Z.to_nat size) p)).
    replace (length content + length taken)%nat with (length (content ++ taken))
      by (by rewrite length_app).
    destruct (Z.ltb_spec (total + Z.of_nat (length taken)) size).
    + intros Hrec.
      destruct (IH _ fs' name (content ++ taken) p size
                  (total + Z.of_nat (length taken)) Hsize ltac:(lia) ltac:(lia)
                  (lookup_insert_eq _ _ _) Hrec)
        as (more & Hmore & Hsum).
      exists (taken ++ more). rewrite app_assoc. split; [done |].
      rewrite length_app. lia.
    + intros [= <-]. exists taken. split; [apply lookup_insert_eq | lia].
Qed.

(** X12. When [dump_ppm] returns after a complete header write to a new
    file, the file is not shorter than declared: it holds the header
    and at least [size] further bytes, however the pixel writes were cut
    short or failed in between. This is for a [size] up to [2^30] and at
    most [2^31] calls of [write], where no sum of the loop leaves the
    range of [int total]. *)
Theorem returned_dump_is_never_short
    (io : frame_io) (p : list Z) (size tag : Z) (time : timespec) (st : state)
    (name header : list ascii) (answers : list Z) :
  dump_ppm_name (ppm_dumpname st) tag = Some name ->
  dump_ppm_stamp (ppm_header st) time = Some header ->
  0 <= size <= Z.of_nat (length p) ->
  size <= 2 ^ 30 ->
  io_open io = true ->
  io_write io = Z.of_nat (length header - 1) :: answers ->
  Z.of_nat (length answers) <= 2 ^ 31 ->
  files st !! c_string name = None ->
  returned (dump_ppm io p size tag time st) = true ->
  exists more,
    files (state_of (dump_ppm io p size tag time st)) !! c_string name =
      Some (header_bytes header ++ more) /\
    size <= Z.of_nat (length more).
Proof.
  intros Hname Hheader Hsize Hsmall Hopen Hwrite Hcalls Hfresh.
  rewrite (dump_ppm_body io p size tag time st name header) by done.
  cbv zeta. rewrite Hopen, Hwrite. unfold sys_open, dump_ppm_write. cbn [fst snd].
  fold (header_bytes header). rewrite <- (header_bytes_length header).
  rewrite sys_write_full, lookup_insert_eq, insert_insert_eq, Hfresh.
  cbn [default]. unfold id.
  replace (write_at [] 0 (header_bytes header)) with (header_bytes header)
    by (unfold write_at; by rewrite take_0, drop_nil, app_nil_r).
  cbn [Nat.add].
  destruct (dump_ppm_loop answers _ _ p size 0) as [fs' |] eqn:Hloop; [| discriminate].
  intros _. cbn [state_of]. simpl_state.
  destruct (dump_ppm_loop_grows answers _ fs' (c_string name) (header_bytes header)
              p size 0 Hsmall ltac:(lia) ltac:(unfold INT_MIN; lia)
              (lookup_insert_eq _ _ _) Hloop) as (more & Hmore & Hsum).
  exists more. split; [done | lia].
Qed.

Lemma returned_dump_is_never_short_witness :
  exists more,
    files (state_of (dump_ppm (mk_frame_io sample_time true [48; 1; -1; 0; 3])
                       [1; 2; 3] 3 1 sample_time (initial_state ∅)))
      !! c_string (chars "frames/test00000001.ppm" ++ [NUL]) =
      Some (header_bytes (chars (spec_ppm_header 1700000000 123) ++ [NUL]) ++ more) /\
    3 <= Z.of_nat (length more).
Proof.
  apply (returned_dump_is_never_short
           (mk_frame_io sample_time true [48; 1; -1; 0; 3]) [1; 2; 3] 3 1 sample_time
           (initial_state ∅)
           (chars "frames/test00000001.ppm" ++ [NUL])
           (chars (spec_ppm_header 1700000000 123) ++ [NUL]) [1; -1; 0; 3]).
  - reflexivity.
  - reflexivity.
  - simpl. lia.
  - lia.
  - reflexivity.
  - reflexivity.
  - simpl. lia.
  - reflexivity.
  - reflexivity.
Defined.

(** ** What the capture loop keeps *)

Lemma yuyv_loop_length (fuel : nat) :
  forall (pptr : list Z) (size i newi : Z) (bigbuffer out : list Z),
    yuyv_loop fuel pptr size i newi bigbuffer = LoopDone out ->
    length out = length bigbuffer.
Proof.
  induction fuel as [| fuel IH]; intros pptr size i newi bigbuffer out;
    rewrite yuyv_loop_unfold; destruct (i <? size); try discriminate;
    try (by intros [= <-]).
  destruct (load pptr i); [| discriminate].
  destruct (load pptr (i + 1)); [| discriminate].
  destruct (load pptr (i + 2)); [| discriminate].
  destruct (load pptr (i + 3)); [| discriminate].
  destruct (yuv2rgb _ _ _ bigbuffer _ _ _) as [m1 |] eqn:E1; [| discriminate].
  destruct (yuv2rgb _ _ _ m1 _ _ _) as [m2 |] eqn:E2; [| discriminate].
  intros Hrec. rewrite (IH _ _ _ _ _ _ Hrec).
  rewrite (yuv2rgb_length _ _ _ _ _ _ _ _ E2). exact (yuv2rgb_length _ _ _ _ _ _ _ _ E1).
Qed.

Lemma globals_ok_arrays (st st' : state) :
  globals_ok st ->
  bigbuffer st' = bigbuffer st ->
  (ppm_dumpname st' = ppm_dumpname st \/
   exists tag, dump_ppm_name (ppm_dumpname st) tag = Some (ppm_dumpname st')) ->
  (ppm_header st' = ppm_header st \/
   exists time, dump_ppm_stamp (ppm_header st) time = Some (ppm_header st')) ->
  globals_ok st'.
Proof.
  intros (Hbig & Hn & Hnp & Hh & Hhp) Ebig Hname Hheader.
  unfold globals_ok. rewrite Ebig. split; [done |].
  assert (length (ppm_dumpname st') = 24%nat /\
          take 11 (ppm_dumpname st') = chars "frames/test") as [? ?].
  { destruct Hname as [-> | [tag Htag]]; [done |].
    rewrite dump_ppm_name_ok in Htag by done. injection Htag as <-.
    pose proof (fmt_0d_length 8 (to_int tag)).
    assert (length (take 11 (ppm_dumpname st)) = 11%nat) as H11
      by (rewrite length_take; lia).
    split; [| by rewrite take_app_length'].
    rewrite !length_app, H11, length_take.
    change (length (chars ".ppm")) with 4%nat. cbn [length].
    by rewrite Nat.min_l by lia. }
  assert (length (ppm_header st') = 49%nat /\
          take 4 (ppm_header st') = chars ("P6" +:+ LF +:+ "#")) as [? ?]; [| done].
  destruct Hheader as [-> | [time Htime]]; [done |].
  rewrite dump_ppm_stamp_ok in Htime by done. injection Htime as <-.
  pose proof (fmt_0d_length 10 (to_int (tv_sec time))).
  pose proof (fmt_0d_length 10 (to_int (Z.quot (tv_nsec time) 1000000))).
  assert (length (take 4 (ppm_header st)) = 4%nat) as H4
    by (rewrite length_take; lia).
  split; [| by rewrite take_app_length'].
  rewrite !length_app, H4, !length_take.
  change (length (chars (" msec " +:+ LF +:+ "320 240" +:+ LF +:+ "255" +:+ LF)))
    with 19%nat.
  change (length (chars " sec ")) with 5%nat. cbn [length].
  rewrite ?length_app, ?length_take, ?Nat.min_l by lia.
  change (length (chars (" msec " +:+ LF +:+ "320 240" +:+ LF +:+ "255" +:+ LF)))
    with 19%nat.
  cbn [length]. lia.
Qed.

Lemma dump_ppm_keeps (io : frame_io) (p : list Z) (size tag : Z) (time : timespec)
    (st : state) :
  globals_ok st ->
  globals_ok (state_of (dump_ppm io p size tag time st)) /\
  same_device st (state_of (dump_ppm io p size tag time st)) /\
  is_capture (state_of (dump_ppm io p size tag time st)) = is_capture st /\
  stderr (state_of (dump_ppm io p size tag time st)) = stderr st.
Proof.
  intros Hok. unfold dump_ppm.
  destruct (dump_ppm_name (ppm_dumpname st) tag) as [name |] eqn:Hname; [| done].
  simpl_state.
  destruct (dump_ppm_stamp (ppm_header st) time) as [header |] eqn:Hheader.
  - repeat case_match; cbn [state_of]; (split; [| done]);
      (eapply (globals_ok_arrays st); [exact Hok | reflexivity | right | right]);
      simpl_state; eauto.
  - cbn [state_of]. split; [| done].
    eapply (globals_ok_arrays st); [exact Hok | reflexivity | right | left];
      simpl_state; eauto.
Qed.

Lemma same_device_refl (st : state) : same_device st st.
Proof. by unfold same_device. Qed.

Lemma same_device_trans (st1 st2 st3 : state) :
  same_device st1 st2 -> same_device st2 st3 -> same_device st1 st3.
Proof. unfold same_device. intros (? & ? & ? & ? & ?) (? & ? & ? & ? & ?). repeat split; congruence. Qed.

Lemma process_image_keeps (io : frame_io) (p : list Z) (size : Z) (st : state) :
  globals_ok st ->
  globals_ok (state_of (process_image io p size st)) /\
  same_device st (state_of (process_image io p size st)) /\
  is_capture (state_of (process_image io p size st)) = is_capture st /\
  stderr (state_of (process_image io p size st)) = stderr st.
Proof.
  intros Hok. unfold process_image. simpl_state.
  set (st1 := set_framecnt (to_uint (framecnt st + 1)) st).
  assert (globals_ok st1) as Hok1 by exact Hok.
  destruct (pixelformat (fmt st) =? V4L2_PIX_FMT_YUYV); [| done].
  destruct (yuyv_convert p size (bigbuffer st)) as [out | | |] eqn:Hconv; try done.
  apply yuyv_loop_length in Hconv.
  assert (globals_ok (set_bigbuffer out st1)) as Hok2.
  { destruct Hok as (Hbig & Hrest). split; [| exact Hrest]. simpl_state. by rewrite Hconv. }
  exact (dump_ppm_keeps io out _ _ _ (set_bigbuffer out st1) Hok2).
Qed.

Lemma read_frame_keeps (it : iteration) (st : state) :
  globals_ok st ->
  globals_ok (state_of (read_frame it st)) /\
  same_device st (state_of (read_frame it st)) /\
  is_capture (state_of (read_frame it st)) = is_capture st /\
  stderr (state_of (read_frame it st)) = stderr st.
Proof.
  intros Hok. unfold read_frame.
  destruct (xioctl (it_dqbuf it)) as [[r errno] |]; [| done].
  destruct ((r =? -1) && ((errno =? EAGAIN) || (errno =? EIO))); [done |].
  destruct (it_index it <? n_buffers st); [| done].
  destruct (buffers st !! Z.to_nat (it_index it)) as [b |]; [| done].
  unfold mbind, prog_mbind, prog_bind.
  pose proof (process_image_keeps (it_io it)
                (if buffer.start b =? MAP_FAILED then [] else it_mem it)
                (to_int (it_bytesused it)) st Hok) as Hkeep.
  by destruct (process_image _ _ _ st).
Qed.

(** X13. As long as no access leaves its memory area (the run does not
    end in a fault, as it does for a frame that does not fit the scratch
    area), the capture loop keeps the three global arrays well-formed
    ([bigbuffer] with its 1280*960 bytes, [ppm_dumpname] with its 24
    bytes and prefix, [ppm_header] with its 49 bytes and magic number)
    and leaves the negotiated format, the descriptor and the buffer pool
    alone, whatever the system answers. *)
Theorem capture_loop_keeps_its_globals (script : list event) (st : state) :
  globals_ok st ->
  faulted (capture_frame script st) = false ->
  globals_ok (state_of (capture_frame script st)) /\
  same_device st (state_of (capture_frame script st)).
Proof.
  revert st. induction script as [| e script IH]; intros st Hok Hsafe.
  - split; [exact Hok | apply same_device_refl].
  - destruct e as [signal | it]; cbn [capture_frame] in Hsafe |- *.
    + assert (globals_ok (signalHandler signal st) /\
              same_device st (signalHandler signal st)) as [Hok' Hdev'].
      { destruct (signalHandler_cases signal st) as [-> | ->];
          (split; [exact Hok | by unfold same_device]). }
      destruct (IH _ Hok' Hsafe) as [? ?]. split; [done |].
      by eapply same_device_trans.
    + destruct (it_select it) as [r errno].
      destruct ((r =? -1) && (errno =? EINTR)); [by apply IH |].
      destruct (r =? 0); [split; [exact Hok | by unfold same_device] |].
      destruct (read_frame_keeps it st Hok) as (Hok1 & Hdev1 & _).
      destruct (read_frame it st) as [got st1 | | | st1 |];
        [| done | done | discriminate Hsafe | done].
      cbn [state_of] in Hok1, Hdev1.
      destruct (got =? 0).
      * destruct (IH _ Hok1 Hsafe) as [? ?]. split; [done |].
        by eapply same_device_trans.
      * destruct (it_nanosleep it) as [r' errno'].
        destruct (r' =? 0); [done |].
        destruct (IH (eprint (Perror "nanosleep" errno') st1) Hok1 Hsafe) as [? ?].
        split; [done |]. eapply same_device_trans; [exact Hdev1 | done].
Qed.

Lemma capture_loop_keeps_its_globals_witness :
  globals_ok (state_of (capture_frame
                          [Iter it_eagain; Iter (it_frame 0 sample_frame sample_time)]
                          sim_ready)) /\
  same_device sim_ready
    (state_of (capture_frame
                 [Iter it_eagain; Iter (it_frame 0 sample_frame sample_time)] sim_ready)).
Proof.
  apply (capture_loop_keeps_its_globals
           [Iter it_eagain; Iter (it_frame 0 sample_frame sample_time)] sim_ready).
  - split; [exact bigbuffer0_length |]. repeat split.
  - by vm_compute.
Defined.

(** ** How the capture loop can end *)

(** X14. The capture loop leaves the process in one way only: a wait
    that timed out. No error of [select], of [VIDIOC_DQBUF], of
    [VIDIOC_QBUF], of [open], of [write] or of [nanosleep] makes it call
    [exit]; when it does exit, the status is [EXIT_FAILURE] and the last
    diagnostic is "select timeout". *)
Theorem capture_loop_exits_only_on_timeout (script : list event) (st : state) :
  match capture_frame script st with
  | Exit code st' =>
      code = EXIT_FAILURE /\ last (stderr st') = Some (Msg ("select timeout" +:+ LF))
  | _ => True
  end.
Proof.
  revert st. induction script as [| e script IH]; intros st; [done |].
  destruct e as [signal | it]; cbn [capture_frame]; [apply IH |].
  destruct (it_select it) as [r errno].
  destruct ((r =? -1) && (errno =? EINTR)); [apply IH |].
  destruct (r =? 0).
  { split; [reflexivity |]. cbn [eprint stderr]. apply last_snoc. }
  pose proof (read_frame_no_exit it st) as Hno.
  destruct (read_frame it st) as [got st1 | | | |]; try done.
  destruct (got =? 0); [apply IH |].
  destruct (it_nanosleep it) as [r' errno']. destruct (r' =? 0); [done | apply IH].
Qed.

(** ** The frame counter along the loop *)

Lemma to_uint_succ_small (n : Z) : 0 <= n -> n + 1 < 2 ^ 32 -> to_uint (n + 1) = n + 1.
Proof. intros. apply to_uint_small. unfold is_uint. lia. Qed.

Lemma read_frame_counter (it : iteration) (st : state) :
  (framecnt (state_of (read_frame it st)) = framecnt st /\
   forall st1, read_frame it st <> Ret 1 st1) \/
  framecnt (state_of (read_frame it st)) = to_uint (framecnt st + 1).
Proof.
  unfold read_frame.
  destruct (xioctl (it_dqbuf it)) as [[r errno] |]; [| by left].
  destruct ((r =? -1) && ((errno =? EAGAIN) || (errno =? EIO))); [by left |].
  destruct (it_index it <? n_buffers st); [| by left].
  destruct (buffers st !! Z.to_nat (it_index it)) as [b |]; [| by left].
  right. unfold mbind, prog_mbind, prog_bind.
  pose proof (process_image_framecnt (it_io it)
                (if buffer.start b =? MAP_FAILED then [] else it_mem it)
                (to_int (it_bytesused it)) st) as Hcnt.
  by destruct (process_image _ _ _ st).
Qed.

(** X15. Along the capture loop the frame counter never goes down, it
    goes up by at most one per turn, and when the loop returns it has
    gone up: the loop is only left by [break] after a frame was handed
    to [process_image]. (Counter far from the wrap-around at [2^32].) *)
Theorem capture_loop_counts_at_most_one_per_turn (script : list event) (st : state) :
  0 <= framecnt st ->
  framecnt st + Z.of_nat (length script) < 2 ^ 32 ->
  framecnt st <= framecnt (state_of (capture_frame script st))
    <= framecnt st + Z.of_nat (length script) /\
  (if returned (capture_frame script st)
   then framecnt st < framecnt (state_of (capture_frame script st))
   else True).
Proof.
  revert st. induction script as [| e script IH]; intros st Hpos Hsmall.
  - cbn. lia.
  - cbn [length] in Hsmall. destruct e as [signal | it]; cbn [capture_frame].
    + assert (framecnt (signalHandler signal st) = framecnt st) as Hsig
        by (by destruct (signalHandler_cases signal st) as [-> | ->]).
      destruct (IH (signalHandler signal st)) as [Hb Hr]; [lia | lia |].
      rewrite Hsig in Hb, Hr. split; [cbn [length]; lia | exact Hr].
    + destruct (it_select it) as [r errno].
      destruct ((r =? -1) && (errno =? EINTR)).
      { destruct (IH st) as [Hb Hr]; [lia | lia |]. split; [cbn [length]; lia | exact Hr]. }
      destruct (r =? 0); [cbn; lia |].
      pose proof (read_frame_counter it st) as Hcnt.
      pose proof (read_frame_returns_0_or_1 it st) as H01.
      destruct (read_frame it st) as [got st1 | | | |]; cbn [state_of] in Hcnt;
        try (cbn [returned state_of length];
             destruct Hcnt as [[-> _] | ->]; rewrite ?to_uint_succ_small by lia; lia).
      assert (framecnt st <= framecnt st1 <= framecnt st + 1) as Hstep.
      { destruct Hcnt as [[-> _] | ->]; rewrite ?to_uint_succ_small by lia; lia. }
      destruct (Z.eqb_spec got 0) as [-> | Hgot].
      * destruct (IH st1) as [Hb Hr]; [lia | lia |].
        split; [cbn [length]; lia |].
        destruct (returned (capture_frame script st1)); [lia | done].
      * assert (framecnt st1 = framecnt st + 1) as Hone.
        { destruct (H01 st1 got eq_refl) as [-> | ->]; [done |].
          destruct Hcnt as [[_ Hnot] | ->]; [by destruct (Hnot st1) |].
          by rewrite to_uint_succ_small by lia. }
        destruct (it_nanosleep it) as [r' errno']. destruct (r' =? 0).
        { cbn [returned state_of length]. lia. }
        destruct (IH (eprint (Perror "nanosleep" errno') st1)) as [Hb Hr];
          [simpl_state; lia | simpl_state; lia |].
        change (framecnt (eprint (Perror "nanosleep" errno') st1)) with (framecnt st1)
          in Hb, Hr.
        split; [cbn [length]; lia |].
        destruct (returned (capture_frame script _)); [lia | done].
Qed.

Lemma capture_loop_counts_at_most_one_per_turn_witness :
  framecnt sim_ready
    <= framecnt (state_of (capture_frame
                             [Iter it_eagain; Iter (it_frame 0 sample_frame sample_time)]
                             sim_ready))
    <= framecnt sim_ready +
       Z.of_nat (length [Iter it_eagain; Iter (it_frame 0 sample_frame sample_time)]) /\
  (if returned (capture_frame
                  [Iter it_eagain; Iter (it_frame 0 sample_frame sample_time)] sim_ready)
   then framecnt sim_ready
        < framecnt (state_of (capture_frame
                                [Iter it_eagain; Iter (it_frame 0 sample_frame sample_time)]
                                sim_ready))
   else True).
Proof.
  apply (capture_loop_counts_at_most_one_per_turn
           [Iter it_eagain; Iter (it_frame 0 sample_frame sample_time)] sim_ready).
  - change (framecnt sim_ready) with 0. lia.
  - change (framecnt sim_ready) with 0. simpl. lia.
Defined.

(** ** The stop flag along the loop *)

Lemma set_is_capture_same (st : state) : set_is_capture (is_capture st) st = st.
Proof. by destruct st. Qed.

Lemma read_frame_keeps_flag (it : iteration) (st : state) :
  is_capture (state_of (read_frame it st)) = is_capture st.
Proof.
  rewrite <- (set_is_capture_same st) at 1. rewrite read_frame_flag.
  by destruct (read_frame it st).
Qed.

(** X16. Nothing in the capture loop sets the stop flag again: once
    [is_capture] is false, by a signal or from the start, it is false in
    whatever state the loop ends. *)
Theorem stop_flag_is_never_set_again (script : list event) (st : state) :
  is_capture st = false ->
  is_capture (state_of (capture_frame script st)) = false.
Proof.
  revert st. induction script as [| e script IH]; intros st Hflag; [exact Hflag |].
  destruct e as [signal | it]; cbn [capture_frame].
  - apply IH. by destruct (signalHandler_cases signal st) as [-> | ->].
  - destruct (it_select it) as [r errno].
    destruct ((r =? -1) && (errno =? EINTR)); [by apply IH |].
    destruct (r =? 0); [exact Hflag |].
    pose proof (read_frame_keeps_flag it st) as Hkeep. rewrite Hflag in Hkeep.
    destruct (read_frame it st) as [got st1 | | | |]; try exact Hkeep.
    cbn [state_of] in Hkeep.
    destruct (got =? 0); [by apply IH |].
    destruct (it_nanosleep it) as [r' errno']. destruct (r' =? 0); [exact Hkeep |].
    by apply IH.
Qed.

Lemma stop_flag_is_never_set_again_witness :
  is_capture (state_of (capture_frame
                          [Iter it_eagain; Iter (it_frame 0 sample_frame sample_time)]
                          sim_stopped)) = false.
Proof.
  apply (stop_flag_is_never_set_again
           [Iter it_eagain; Iter (it_frame 0 sample_frame sample_time)] sim_stopped).
  reflexivity.
Defined.

(** ** [select] and [VIDIOC_DQBUF] errors *)

(** X17. Any answer of [select] other than 0 and other than a failure
    with [EINTR] is taken for readiness: a wait that failed, say with
    [EBADF], goes on to the dequeue exactly as a wait that reported one
    ready descriptor. *)
Theorem failed_wait_is_taken_for_ready
    (it : iteration) (rest : list event) (st : state) :
  fst (it_select it) <> 0 ->
  select_interrupted it = false ->
  capture_frame (Iter it :: rest) st = capture_frame (Iter (with_select (1, 0) it) :: rest) st.
Proof.
  unfold select_interrupted. intros Hr Hint. cbn [capture_frame with_select it_select].
  destruct (it_select it) as [r errno]. cbn [fst snd] in Hr, Hint. rewrite Hint.
  destruct (Z.eqb_spec r 0); [done |].
  change ((1 =? -1) && (0 =? EINTR)) with false. change (1 =? 0) with false. cbv iota.
  reflexivity.
Qed.

Lemma failed_wait_is_taken_for_ready_witness :
  capture_frame (Iter (with_select (-1, 9) (it_frame 0 sample_frame sample_time)) :: [])
    sim_ready
  = capture_frame
      (Iter (with_select (1, 0) (with_select (-1, 9) (it_frame 0 sample_frame sample_time)))
         :: []) sim_ready.
Proof.
  apply (failed_wait_is_taken_for_ready
           (with_select (-1, 9) (it_frame 0 sample_frame sample_time)) [] sim_ready).
  - discriminate.
  - reflexivity.
Defined.

(** ** File names of successive frames *)

Lemma digit_char_inj (d e : Z) :
  0 <= d <= 9 -> 0 <= e <= 9 -> digit_char d = digit_char e -> d = e.
Proof.
  unfold digit_char. intros Hd He E.
  apply (f_equal nat_of_ascii) in E.
  rewrite !nat_ascii_embedding in E by lia. lia.
Qed.

Lemma dec_digits_S (k : nat) (n : Z) :
  dec_digits (S k) n =
  digit_char ((n / 10 ^ Z.of_nat k) mod 10) :: dec_digits k n.
Proof.
  unfold dec_digits. rewrite seq_S, rev_app_distr. reflexivity.
Qed.

(** The [k] digits determine the number up to [10^k]. *)
Lemma dec_digits_inj (k : nat) :
  forall n m : Z,
    dec_digits k n = dec_digits k m -> n mod 10 ^ Z.of_nat k = m mod 10 ^ Z.of_nat k.
Proof.
  induction k as [| k IH]; intros n m E.
  - change (10 ^ Z.of_nat 0) with 1. by rewrite !Z.mod_1_r.
  - rewrite !dec_digits_S in E. injection E as Ehd Etl.
    apply digit_char_inj in Ehd;
      [| pose proof (Z.mod_pos_bound (n / 10 ^ Z.of_nat k) 10); lia
       | pose proof (Z.mod_pos_bound (m / 10 ^ Z.of_nat k) 10); lia].
    apply IH in Etl.
    replace (Z.of_nat (S k)) with (Z.succ (Z.of_nat k)) by lia.
    rewrite Z.pow_succ_r, (Z.mul_comm 10) by lia.
    assert (0 < 10 ^ Z.of_nat k) by (apply Z.pow_pos_nonneg; lia).
    rewrite !Z.rem_mul_r by lia. by rewrite Ehd, Etl.
Qed.

(** Cutting the last of [S k] digits leaves the [k] digits of the
    tenth. *)
Lemma dec_digits_cut (k : nat) (n : Z) :
  take k (dec_digits (S k) n) = dec_digits k (n / 10).
Proof.
  unfold dec_digits.
  change (seq 0 (S k)) with (0%nat :: seq 1 k).
  cbn [rev]. rewrite fmap_app, take_app_length'
    by (by rewrite length_fmap, length_rev, length_seq).
  rewrite <- fmap_S_seq, <- (map_rev S), <- list_fmap_compose.
  apply list_fmap_ext. intros _ j _. cbn.
  do 2 f_equal.
  replace (Z.of_nat (S j)) with (Z.succ (Z.of_nat j)) by lia.
  rewrite Z.pow_succ_r by lia.
  rewrite Z.div_div by (try apply Z.pow_pos_nonneg; lia). reflexivity.
Qed.

Lemma ndigits_ge (fuel : nat) :
  forall (k : nat) (n : Z),
    (k <= fuel)%nat -> 10 ^ Z.of_nat k <= n -> (S k <= ndigits fuel n)%nat.
Proof.
  induction fuel as [| fuel IH]; intros k n Hk Hn; cbn [ndigits]; [lia |].
  destruct k as [| k]; [destruct (n <? 10); lia |].
  replace (Z.of_nat (S k)) with (Z.succ (Z.of_nat k)) in Hn by lia.
  rewrite Z.pow_succ_r in Hn by lia.
  assert (0 < 10 ^ Z.of_nat k) by (apply Z.pow_pos_nonneg; lia).
  destruct (Z.ltb_spec n 10); [lia |].
  apply le_n_S, IH; [lia |].
  apply Z.div_le_lower_bound; lia.
Qed.

(** X18. Frames numbered below [10^8] get file names of their own. From
    [10^8] on the number has nine digits and the array has room for
    eight: the last digit is cut off, and frame [n] is written to the
    file named after [n / 10]. *)
Theorem frame_names_are_distinct_below_1e8 (a : list ascii) (n m : Z) :
  length a = 24%nat ->
  0 <= n < 10 ^ 8 -> 0 <= m < 10 ^ 8 ->
  (dump_ppm_name a n = dump_ppm_name a m -> n = m) /\
  (forall big, 10 ^ 8 <= big < 10 ^ 9 ->
     dump_ppm_name a big = dump_ppm_name a (big / 10)).
Proof.
  intros Ha Hn Hm. split.
  - rewrite !dump_ppm_name_ok by done.
    rewrite !(fmt_0d_small 7) by (unfold INT_MAX; cbn; lia).
    rewrite (firstn_all2 (dec_digits 8 n)), (firstn_all2 (dec_digits 8 m))
      by (by rewrite dec_digits_length).
    intros [= E]. apply app_inv_head in E.
    assert (length (dec_digits 8 n) = length (dec_digits 8 m)) as Hlen
      by (by rewrite !dec_digits_length).
    destruct (app_inj_1 _ _ _ _ Hlen E) as [E' _].
    apply dec_digits_inj in E'. change (Z.of_nat 8) with 8 in E'.
    rewrite !Z.mod_small in E' by lia. exact E'.
  - intros big Hbig. rewrite !dump_ppm_name_ok by done. do 3 f_equal.
    assert (0 <= big / 10 < 10 ^ 8) as Htenth.
    { split; [apply Z.div_pos; lia | apply Z.div_lt_upper_bound; lia]. }
    rewrite (fmt_0d_small 7 (big / 10)) by (unfold INT_MAX; cbn; lia).
    rewrite (firstn_all2 (dec_digits 8 (big / 10))) by (by rewrite dec_digits_length).
    rewrite to_int_small by (unfold INT_MAX; lia).
    unfold fmt_0d. destruct (Z.ltb_spec big 0); [lia |].
    assert (9 <= ndigits 9 big)%nat as Hge
      by (apply (ndigits_ge 9 8 big); [lia | change (Z.of_nat 8) with 8; lia]).
    assert (ndigits 9 big <= 9)%nat as Hle
      by (apply (ndigits_le 9 8 big); change (Z.of_nat 9) with 9; lia).
    replace (Nat.max 8 (ndigits 9 big)) with 9%nat by lia.
    apply dec_digits_cut.
Qed.

Lemma frame_names_are_distinct_below_1e8_witness :
  (dump_ppm_name ppm_dumpname0 1 = dump_ppm_name ppm_dumpname0 2 -> 1 = 2) /\
  (forall big, 10 ^ 8 <= big < 10 ^ 9 ->
     dump_ppm_name ppm_dumpname0 big = dump_ppm_name ppm_dumpname0 (big / 10)).
Proof.
  apply (frame_names_are_distinct_below_1e8 ppm_dumpname0 1 2); [reflexivity | lia | lia].
Defined.

(** ** Set-up: format negotiation and the pool *)

Lemma init_mmap_loop_with_format (s g : v4l2_pix_format -> Z * v4l2_pix_format)
    (fuel : nat) :
  forall (dev : device) (count n : Z) (bufs : list buffer.t),
    init_mmap_loop fuel (with_format s g dev) count n bufs =
    init_mmap_loop fuel dev count n bufs.
Proof.
  induction fuel as [| fuel IH]; intros dev count n bufs;
    rewrite !init_mmap_loop_unfold; destruct (n <? count); try reflexivity.
  change (dev_querybuf (with_format s g dev) n) with (dev_querybuf dev n).
  destruct (dev_querybuf dev n) as [len offset]. cbv zeta.
  change (dev_mmap (with_format s g dev) len offset) with (dev_mmap dev len offset).
  apply IH.
Qed.

(** [init_mmap] neither reads nor writes the global [fmt]. *)
Lemma init_mmap_set_fmt (dev : device) (f : v4l2_pix_format) (st : state) :
  init_mmap dev (set_fmt f st) = outcome_map (set_fmt f) (init_mmap dev st).
Proof.
  unfold init_mmap. destruct (dev_reqbufs dev 6) as [[r errno] count].
  destruct ((r =? -1) && (errno =? EINVAL)); [reflexivity |].
  destruct (count <? 2); [reflexivity |].
  destruct (dev_calloc dev); [| reflexivity]. cbn [negb].
  by destruct (init_mmap_loop _ _ _ _ _) as [n bufs].
Qed.

Lemma init_mmap_with_format (s g : v4l2_pix_format -> Z * v4l2_pix_format)
    (dev : device) (st : state) :
  init_mmap (with_format s g dev) st = init_mmap dev st.
Proof.
  unfold init_mmap.
  change (dev_reqbufs (with_format s g dev) 6) with (dev_reqbufs dev 6).
  change (dev_calloc (with_format s g dev)) with (dev_calloc dev).
  destruct (dev_reqbufs dev 6) as [[r errno] count].
  by rewrite init_mmap_loop_with_format.
Qed.

Lemma outcome_map_set_fmt {A : Type} (f f' : v4l2_pix_format) (o : outcome A) :
  outcome_map (set_fmt f) (outcome_map (set_fmt f') o) = outcome_map (set_fmt f) o.
Proof. by destruct o. Qed.

(** X19. No answer to [VIDIOC_S_FMT] or [VIDIOC_G_FMT] stops set-up or
    changes its course: with any other driver behaviour at these two
    requests, a refusal included, [init_device] ends the same way with
    the same pool, file descriptor and diagnostics; the runs differ in
    the global [fmt] only, which holds what the driver left in it after
    the two corrections. *)
Theorem format_answer_never_stops_setup
    (s g : v4l2_pix_format -> Z * v4l2_pix_format) (dev : device) (st : state) :
  outcome_map (set_fmt (fmt st)) (init_device (with_format s g dev) st) =
  outcome_map (set_fmt (fmt st)) (init_device dev st) /\
  match init_device dev st with
  | Ret _ st' => fmt st' = paranoia (negotiate dev (force_format st))
  | _ => True
  end.
Proof.
  unfold init_device.
  change (dev_querycap (with_format s g dev)) with (dev_querycap dev).
  destruct (dev_querycap dev) as [[r errno] capabilities].
  destruct ((r =? -1) && (errno =? EINVAL)); [done |].
  destruct (Z.land capabilities V4L2_CAP_VIDEO_CAPTURE =? 0); [done |].
  destruct (Z.land capabilities V4L2_CAP_STREAMING =? 0); [done |].
  rewrite init_mmap_with_format, !init_mmap_set_fmt, !outcome_map_set_fmt.
  split; [reflexivity |].
  by destruct (init_mmap dev st).
Qed.

(** X20. When [init_mmap] returns, the pool has one entry for each
    buffer the driver granted, be it fewer or more than the 6 asked for,
    and [n_buffers] counts them all. Entry [i] holds the length that
    [VIDIOC_QUERYBUF] reported for buffer [i] and whatever [mmap]
    returned for it, [MAP_FAILED] included. *)
Theorem pool_holds_every_granted_buffer (dev : device) (st st' : state) (i : Z) :
  init_mmap dev st = Ret tt st' ->
  0 <= i < snd (dev_reqbufs dev 6) ->
  n_buffers st' = snd (dev_reqbufs dev 6) /\
  Z.of_nat (length (buffers st')) = snd (dev_reqbufs dev 6) /\
  buffers st' !! Z.to_nat i =
    Some (buffer.mk
            (dev_mmap dev (fst (dev_querybuf dev i)) (snd (dev_querybuf dev i)))
            (fst (dev_querybuf dev i))).
Proof.
  intros Hrun Hi.
  destruct (init_mmap_granted dev st st' Hrun) as (Hcount & Hn & Hlen).
  split; [exact Hn |]. split; [exact Hlen |].
  revert Hrun Hi. unfold init_mmap.
  destruct (dev_reqbufs dev 6) as [[r errno] count]. cbn [snd] in *.
  destruct ((r =? -1) && (errno =? EINVAL)); [discriminate |].
  destruct (count <? 2); [discriminate |].
  destruct (dev_calloc dev); [| discriminate]. cbn [negb].
  pose proof (init_mmap_loop_lookup (Z.to_nat count) dev count 0
                (replicate (Z.to_nat count) (buffer.mk 0 0)) i) as Hlook.
  destruct (init_mmap_loop _ _ _ _ _) as [n bufs]. cbn [snd] in Hlook.
  intros [= <-] Hi. simpl_state.
  apply Hlook; rewrite ?length_replicate; lia.
Qed.

Lemma pool_holds_every_granted_buffer_witness :
  n_buffers (state_of (init_mmap unmappable_device (initial_state ∅))) = 2 /\
  Z.of_nat (length (buffers (state_of (init_mmap unmappable_device (initial_state ∅)))))
    = 2 /\
  buffers (state_of (init_mmap unmappable_device (initial_state ∅))) !! Z.to_nat 1 =
    Some (buffer.mk MAP_FAILED 153600).
Proof.
  apply (pool_holds_every_granted_buffer unmappable_device (initial_state ∅)
           (state_of (init_mmap unmappable_device (initial_state ∅))) 1).
  - reflexivity.
  - cbn. lia.
Defined.

(** X21. The two corrections of [init_device] settle at once: applied
    to their own result they change nothing. Whatever the driver
    reported, after them the line stride is at least twice the width
    and the image size at least stride times height, both as
    [unsigned int] computes the products. *)
Theorem paranoia_settles (f : v4l2_pix_format) :
  paranoia (paranoia f) = paranoia f /\
  to_uint (width (paranoia f) * 2) <= bytesperline (paranoia f) /\
  to_uint (bytesperline (paranoia f) * height (paranoia f)) <= sizeimage (paranoia f).
Proof.
  pose proof (paranoia_mod f) as (_ & _ & Hbpl & Hszi).
  split; [| split; [exact Hbpl | exact Hszi]].
  unfold paranoia in *. cbn [width height pixelformat field bytesperline sizeimage] in *.
  destruct (Z.ltb_spec (bytesperline f) (to_uint (width f * 2))) as [Hlt | Hge].
  - rewrite Z.ltb_irrefl.
    destruct (Z.ltb_spec (sizeimage f) (to_uint (to_uint (width f * 2) * height f)));
      [by rewrite Z.ltb_irrefl |].
    destruct (Z.ltb_spec (sizeimage f) (to_uint (to_uint (width f * 2) * height f)));
      [lia | reflexivity].
  - destruct (Z.ltb_spec (bytesperline f) (to_uint (width f * 2))); [lia |].
    destruct (Z.ltb_spec (sizeimage f) (to_uint (bytesperline f * height f)));
      [by rewrite Z.ltb_irrefl |].
    destruct (Z.ltb_spec (sizeimage f) (to_uint (bytesperline f * height f)));
      [lia | reflexivity].
Qed.

(** ** The whole session *)

Lemma open_device_failed (dev : device) (st : state) :
  failed_with_message (open_device dev st).
Proof.
  unfold open_device. destruct (dev_stat dev) as [r is_chr].
  repeat case_match; try exact I;
    (split; [reflexivity | eexists; cbn [eprint stderr]; apply last_snoc]).
Qed.

Lemma init_mmap_failed (dev : device) (st : state) :
  failed_with_message (init_mmap dev st).
Proof.
  unfold init_mmap. destruct (dev_reqbufs dev 6) as [[r errno] count].
  repeat case_match; try exact I;
    (split; [reflexivity | eexists; cbn [eprint stderr]; apply last_snoc]).
Qed.

Lemma init_device_failed (dev : device) (st : state) :
  failed_with_message (init_device dev st).
Proof.
  unfold init_device. destruct (dev_querycap dev) as [[r errno] capabilities].
  repeat case_match; try apply init_mmap_failed;
    (split; [reflexivity | eexists; cbn [eprint stderr]; apply last_snoc]).
Qed.

Lemma capture_frame_failed (script : list event) :
  forall st : state, failed_with_message (capture_frame script st).
Proof.
  induction script as [| e script IH]; intros st; [done |].
  destruct e as [signal | it]; cbn [capture_frame]; [apply IH |].
  destruct (it_select it) as [r errno].
  destruct ((r =? -1) && (errno =? EINTR)); [apply IH |].
  destruct (r =? 0).
  { split; [reflexivity |]. eexists. cbn [eprint stderr]. apply last_snoc. }
  pose proof (read_frame_no_exit it st) as Hno.
  destruct (read_frame it st) as [got st1 | | | |]; try done.
  destruct (got =? 0); [apply IH |].
  destruct (it_nanosleep it) as [r' errno']. destruct (r' =? 0); [done | apply IH].
Qed.

(** X22. [camera_capture] returns nothing but 0, and when it returns
    the tear-down has run: the stop flag is cleared, the pool is freed,
    the descriptor is -1 and a newline is the last thing on [stderr].
    When it leaves through [exit] instead, at whatever stage, the status
    is [EXIT_FAILURE] and a message was printed just before. *)
Theorem session_returns_0_or_fails_with_message
    (dev : device) (script : list event) (st : state) :
  match camera_capture dev script st with
  | Ret r st' =>
      r = 0 /\ is_capture st' = false /\ buffers st' = [] /\ fd st' = -1 /\
      last (stderr st') = Some (Msg LF)
  | o => failed_with_message o
  end.
Proof.
  rewrite camera_capture_unfold.
  pose proof (open_device_failed dev st) as Hopen.
  destruct (open_device dev st) as [[] st1 | | | |]; try done.
  pose proof (init_device_failed dev st1) as Hinit.
  destruct (init_device dev st1) as [[] st2 | | | |]; try done.
  pose proof (capture_frame_failed script st2) as Hloop.
  destruct (capture_frame script st2) as [rest st3 | | | |]; try done.
  repeat (split; [reflexivity |]). cbn [eprint stderr]. apply last_snoc.
Qed.

(** ** A failed dequeue *)

Lemma yuyv_convert_nothing (pptr bigbuffer : list Z) :
  yuyv_convert pptr 0 bigbuffer = LoopDone bigbuffer.
Proof. reflexivity. Qed.

(** X23. With [PRINT_ENABLE] at 0 a [VIDIOC_DQBUF] that fails with
    anything but [EINTR], [EAGAIN] or [EIO] is not reported:
    [read_frame] goes on with [buf] as [CLEAR] left it and treats buffer
    0 as a frame of 0 bytes. It counts the frame, writes a dump file
    that holds the header and no pixel, and returns 1 as for a frame. *)
Theorem failed_dequeue_is_dumped_as_empty_frame
    (it : iteration) (st : state) (b : buffer.t) (errno : Z)
    (name header : list ascii) :
  xioctl (it_dqbuf it) = Some (-1, errno) ->
  errno <> EAGAIN -> errno <> EIO ->
  it_index it = 0 -> it_bytesused it = 0 ->
  0 < n_buffers st -> buffers st !! O = Some b ->
  pixelformat (fmt st) = V4L2_PIX_FMT_YUYV ->
  dump_ppm_name (ppm_dumpname st) (to_uint (framecnt st + 1)) = Some name ->
  dump_ppm_stamp (ppm_header st) (io_clock (it_io it)) = Some header ->
  io_open (it_io it) = true ->
  io_write (it_io it) = [Z.of_nat (length header - 1); 0] ->
  files st !! c_string name = None ->
  exists st',
    read_frame it st = Ret 1 st' /\
    framecnt st' = to_uint (framecnt st + 1) /\
    files st' = <[c_string name := header_bytes header]> (files st) /\
    bigbuffer st' = bigbuffer st /\
    stdout st' = stdout st ++ ["Wrote a frame" +:+ LF] /\
    stderr st' = stderr st.
Proof.
  intros Hdq Hagain Hio Hindex Hused Hn Hbuf Hfmt Hname Hheader Hopen Hwrite Hfresh.
  unfold read_frame. rewrite Hdq, Hindex, Hused.
  destruct (Z.eqb_spec errno EAGAIN); [done |].
  destruct (Z.eqb_spec errno EIO); [done |].
  change ((-1 =? -1) && (false || false)) with false. cbv iota.
  destruct (Z.ltb_spec 0 (n_buffers st)); [| lia].
  change (Z.to_nat 0) with O. rewrite Hbuf.
  change (to_int 0) with 0.
  unfold mbind, prog_mbind, prog_bind, process_image. simpl_state.
  rewrite Hfmt, Z.eqb_refl, yuyv_convert_nothing.
  change (Z.quot (0 * 6) 4) with 0.
  rewrite (dump_ppm_body (it_io it) (bigbuffer st) 0 (to_uint (framecnt st + 1))
             (io_clock (it_io it)) _ name header); simpl_state; [| done | done | lia].
  cbv zeta. rewrite Hopen, Hwrite. unfold sys_open. cbn [fst snd].
  rewrite dump_ppm_write_full by lia.
  eexists. split; [reflexivity |]. simpl_state.
  split; [reflexivity |]. split; [| done].
  rewrite lookup_insert_eq, insert_insert_eq, Hfresh. cbn [default].
  f_equal. change (Z.to_nat 0) with O. rewrite take_0.
  unfold write_at, id. rewrite take_0. cbn [app length Nat.add].
  fold (header_bytes header). rewrite drop_nil, !app_nil_r.
  rewrite drop_ge, app_nil_r by (rewrite header_bytes_length; lia).
  apply take_ge. rewrite header_bytes_length. lia.
Qed.

Lemma failed_dequeue_is_dumped_as_empty_frame_witness :
  exists st',
    read_frame
      (mk_iteration (1, 0) [(-1, EINTR); (-1, 19)] 0 0 sample_frame
         (mk_frame_io sample_time true [48; 0]) (0, 0)) sim_ready = Ret 1 st' /\
    framecnt st' = to_uint (framecnt sim_ready + 1) /\
    files st' =
      <[c_string (chars "frames/test00000001.ppm" ++ [NUL]) :=
          header_bytes (chars (spec_ppm_header 1700000000 123) ++ [NUL])]>
        (files sim_ready) /\
    bigbuffer st' = bigbuffer sim_ready /\
    stdout st' = stdout sim_ready ++ ["Wrote a frame" +:+ LF] /\
    stderr st' = stderr sim_ready.
Proof.
  apply (failed_dequeue_is_dumped_as_empty_frame
           (mk_iteration (1, 0) [(-1, EINTR); (-1, 19)] 0 0 sample_frame
              (mk_frame_io sample_time true [48; 0]) (0, 0))
           sim_ready (buffer.mk 0x7f0000000000 153600) 19).
  - reflexivity.
  - discriminate.
  - discriminate.
  - reflexivity.
  - reflexivity.
  - reflexivity.
  - reflexivity.
  - reflexivity.
  - reflexivity.
  - reflexivity.
  - reflexivity.
  - reflexivity.
  - reflexivity.
Defined.

(** ** An interrupted pause *)

Lemma capture_frame_pause (r errno : Z) (it : iteration) (rest : list event)
    (st st1 : state) :
  capture_frame [Iter it] st = Ret [] st1 ->
  st1 = state_of (read_frame it st) /\
  capture_frame (Iter (with_nanosleep (r, errno) it) :: rest) st =
    if r =? 0 then Ret rest st1
    else capture_frame rest (eprint (Perror "nanosleep" errno) st1).
Proof.
  cbn [capture_frame].
  change (it_select (with_nanosleep (r, errno) it)) with (it_select it).
  change (it_nanosleep (with_nanosleep (r, errno) it)) with (r, errno).
  change (read_frame (with_nanosleep (r, errno) it) st) with (read_frame it st).
  destruct (it_select it) as [rs es].
  destruct ((rs =? -1) && (es =? EINTR)); [discriminate |].
  destruct (rs =? 0); [discriminate |].
  destruct (read_frame it st) as [got st2 | | | |]; try discriminate.
  destruct (got =? 0); [discriminate |].
  destruct (it_nanosleep it) as [r' e']. destruct (r' =? 0); [| discriminate].
  by intros [= <-].
Qed.

Lemma spec_ppm_name_inj (n m : Z) :
  0 <= n < 10 ^ 8 -> 0 <= m < 10 ^ 8 -> spec_ppm_name n = spec_ppm_name m -> n = m.
Proof.
  intros Hn Hm E. unfold spec_ppm_name, zero_padded in E.
  apply (f_equal chars) in E. rewrite !chars_app in E.
  apply app_inv_head, app_inv_tail in E.
  unfold chars in E. rewrite !list_ascii_of_string_of_list_ascii in E.
  apply dec_digits_inj in E. change (Z.of_nat 8) with 8 in E.
  rewrite !Z.mod_small in E by lia. exact E.
Qed.

(** X24. The loop is left only after a pause that was not cut short. When
    [nanosleep] returns non-zero after the first frame, the loop prints
    the error and takes a further frame: the session writes two dump
    files, numbered one after the other, and counts two frames. *)
Theorem interrupted_pause_captures_second_frame
    (i1 i2 : Z) (f1 f2 : list Z) (t1 t2 : timespec) (st : state) (b1 b2 : buffer.t)
    (k1 k2 : nat) (r errno : Z) :
  globals_ok st ->
  pixelformat (fmt st) = V4L2_PIX_FMT_YUYV ->
  i1 < n_buffers st -> buffers st !! Z.to_nat i1 = Some b1 ->
  buffer.start b1 <> MAP_FAILED ->
  i2 < n_buffers st -> buffers st !! Z.to_nat i2 = Some b2 ->
  buffer.start b2 <> MAP_FAILED ->
  length f1 = (4 * k1)%nat -> length f2 = (4 * k2)%nat ->
  Z.of_nat (length f1) <= MAX_FRAME_BYTES -> Z.of_nat (length f2) <= MAX_FRAME_BYTES ->
  0 <= tv_sec t1 <= INT_MAX -> 0 <= tv_nsec t1 < 10 ^ 9 ->
  0 <= tv_sec t2 <= INT_MAX -> 0 <= tv_nsec t2 < 10 ^ 9 ->
  0 <= framecnt st -> framecnt st + 2 < 10 ^ 8 ->
  files st !! spec_ppm_name (framecnt st + 1) = None ->
  files st !! spec_ppm_name (framecnt st + 2) = None ->
  r <> 0 ->
  exists st',
    capture_frame [Iter (with_nanosleep (r, errno) (it_frame i1 f1 t1));
                   Iter (it_frame i2 f2 t2)] st = Ret [] st' /\
    framecnt st' = framecnt st + 2 /\
    files st' =
      <[spec_ppm_name (framecnt st + 2) :=
          bytes_of_string (spec_ppm_header (tv_sec t2) (tv_nsec t2 / 1000000)) ++
          spec_yuyv_to_rgb f2]>
        (<[spec_ppm_name (framecnt st + 1) :=
             bytes_of_string (spec_ppm_header (tv_sec t1) (tv_nsec t1 / 1000000)) ++
             spec_yuyv_to_rgb f1]> (files st)) /\
    stderr st' = stderr st ++ [Perror "nanosleep" errno].
Proof.
  intros Hok Hfmt Hi1 Hb1 Hm1 Hi2 Hb2 Hm2 Hf1 Hf2 Hmax1 Hmax2 Hs1 Hn1 Hs2 Hn2
    Hcnt Hcnt2 Hfresh1 Hfresh2 Hr.
  unfold MAX_FRAME_BYTES, BIGBUFFER_SIZE in Hmax1, Hmax2.
  change (1280 * 960 * 4 / 6) with 819200 in Hmax1, Hmax2.
  pose proof Hok as (Hbig & Hnl & Hnp & Hhl & Hhp).
  unfold BIGBUFFER_SIZE in Hbig.
  (* the first frame *)
  rewrite <- (to_uint_succ_small (framecnt st)) in Hfresh1 by lia.
  destruct (dump_ppm_name_spec (ppm_dumpname st) (to_uint (framecnt st + 1)))
    as (name1 & Hname1 & _ & _ & Hc1);
    [done | done | rewrite to_uint_succ_small by lia; lia |].
  destruct (dump_ppm_stamp_spec (ppm_header st) t1)
    as (header1 & Hheader1 & Hl1 & _ & Htake1); [done | done | done | done |].
  destruct (capture_frame_full i1 f1 t1 [] st b1 k1 name1 header1)
    as (st1 & Hrun1 & Hfiles1 & Hcnt1 & Herr1 & _); try done;
    [unfold INT_MAX; lia | lia | by rewrite Hc1 |].
  destruct (capture_frame_pause r errno (it_frame i1 f1 t1)
              [Iter (it_frame i2 f2 t2)] st st1 Hrun1) as [Est1 Hpause].
  destruct (Z.eqb_spec r 0); [done |].
  destruct (read_frame_keeps (it_frame i1 f1 t1) st Hok)
    as ((Hbig1 & Hnl1 & Hnp1 & Hhl1 & Hhp1) & (Efmt & _ & Ebufs & En & _) & _).
  rewrite <- Est1 in *. unfold BIGBUFFER_SIZE in Hbig1.
  rewrite to_uint_succ_small in Hcnt1 by lia.
  rewrite to_uint_succ_small in Hc1 by lia.
  (* the second frame *)
  set (st1' := eprint (Perror "nanosleep" errno) st1) in *.
  assert (framecnt st1' + 1 = framecnt st + 2) as Hnext
    by (unfold st1'; simpl_state; lia).
  destruct (dump_ppm_name_spec (ppm_dumpname st1') (to_uint (framecnt st1' + 1)))
    as (name2 & Hname2 & _ & _ & Hc2);
    [done | done | rewrite Hnext, to_uint_small by (unfold is_uint; lia); lia |].
  destruct (dump_ppm_stamp_spec (ppm_header st1') t2)
    as (header2 & Hheader2 & Hl2 & _ & Htake2); [done | done | done | done |].
  rewrite Hnext, to_uint_small in Hc2 by (unfold is_uint; lia).
  destruct (capture_frame_full i2 f2 t2 [] st1' b2 k2 name2 header2)
    as (st2 & Hrun2 & Hfiles2 & Hcnt2' & Herr2 & _); try done.
  - unfold st1'. simpl_state. by rewrite Efmt.
  - unfold st1'. simpl_state. by rewrite En.
  - unfold st1'. simpl_state. by rewrite Ebufs.
  - unfold INT_MAX. lia.
  - unfold st1'. simpl_state. lia.
  - rewrite Hc2. unfold st1'. simpl_state. rewrite Hfiles1, Hc1.
    rewrite lookup_insert_ne; [done |].
    intros E. apply spec_ppm_name_inj in E; lia.
  - exists st2. rewrite Hpause. split; [exact Hrun2 |].
    split; [rewrite Hcnt2', Hnext; apply to_uint_small; unfold is_uint; lia |].
    split.
    + rewrite Hfiles2, Hc2. unfold st1'. simpl_state.
      rewrite Hfiles1, Hc1, Htake1, Htake2. reflexivity.
    + rewrite Herr2. unfold st1'. simpl_state. by rewrite Herr1.
Qed.

Lemma interrupted_pause_captures_second_frame_witness :
  exists st',
    capture_frame [Iter (with_nanosleep (-1, EINTR) (it_frame 0 sample_frame sample_time));
                   Iter (it_frame 1 sample_frame sample_time)] sim_ready = Ret [] st' /\
    framecnt st' = framecnt sim_ready + 2 /\
    files st' =
      <[spec_ppm_name (framecnt sim_ready + 2) :=
          bytes_of_string
            (spec_ppm_header (tv_sec sample_time) (tv_nsec sample_time / 1000000)) ++
          spec_yuyv_to_rgb sample_frame]>
        (<[spec_ppm_name (framecnt sim_ready + 1) :=
             bytes_of_string
               (spec_ppm_header (tv_sec sample_time) (tv_nsec sample_time / 1000000)) ++
             spec_yuyv_to_rgb sample_frame]> (files sim_ready)) /\
    stderr st' = stderr sim_ready ++ [Perror "nanosleep" EINTR].
Proof.
  apply (interrupted_pause_captures_second_frame 0 1 sample_frame sample_frame
           sample_time sample_time sim_ready
           (buffer.mk 0x7f0000000000 153600) (buffer.mk (0x7f0000000000 + 153600) 153600)
           1 1 (-1) EINTR).
  - split; [exact bigbuffer0_length |]. repeat split.
  - reflexivity.
  - reflexivity.
  - reflexivity.
  - discriminate.
  - reflexivity.
  - reflexivity.
  - discriminate.
  - reflexivity.
  - reflexivity.
  - by vm_compute.
  - by vm_compute.
  - by vm_compute.
  - by vm_compute.
  - by vm_compute.
  - by vm_compute.
  - by vm_compute.
  - by vm_compute.
  - reflexivity.
  - reflexivity.
  - discriminate.
Defined.
